(** * Meeting-transcript pipeline: Drive fetch, AI summary, Slack delivery

    A shallow embedding of the five Python modules
    ([config.py], [drive_downloader.py], [ai_summarizer.py],
    [slack_poster.py], [main.py]) and the properties of the pipeline
    they implement.

    Conventions.
    - A Python [str] is a Rocq [string] holding its UTF-8 code units; a
      string that is not well-formed UTF-8 stands for a [str] that UTF-8
      cannot encode (one with a lone surrogate).  A Python [bytes] is a
      [list Byte.byte].
    - A Python value that may be [None] is a [value].
    - A [dict] is a [gmap] keyed by strings.
    - Vendor SDK calls (Drive, Gemini, Slack), the clock and the parts of
      the file system that can fail are fields of a [World]; every call
      is recorded in the trace of the [State], so that the order and the
      absence of calls can be stated.
    - Python exceptions are the [Raise] outcome of the monad [M];
      [try ... except Exception] is [try_except].
    - Files are written and read as on POSIX: text mode writes line
      feeds as they are and reads with universal newlines.  Files and
      directories are known by their path as it is written. *)

From Stdlib Require Import ZArith NArith Ascii String List Bool Lia Sorted.
From stdpp Require Import base option list gmap strings pretty.

Local Open Scope string_scope.
Local Open Scope list_scope.

(** * Python values, strings and bytes *)

Module Py.

(** Values of the functions that return [str] or [None]. *)
Inductive value : Type :=
| VNone
| VStr (s : string).

(** Truthiness: [None] and the empty string are falsy. *)
Definition truthy (v : value) : bool :=
  match v with
  | VNone => false
  | VStr EmptyString => false
  | VStr (String _ _) => true
  end.

Definition str_truthy (s : string) : bool := truthy (VStr s).

Definition code_units (s : string) : list N :=
  map N_of_ascii (list_ascii_of_string s).

(** [sep.join(parts)] *)
Fixpoint join (sep : string) (parts : list string) : string :=
  match parts with
  | [] => EmptyString
  | [p] => p
  | p :: rest => p +:+ sep +:+ join sep rest
  end.

(** *** Characters of a UTF-8 encoded string

    A new character starts at every code unit that is not a
    continuation byte (0x80..0xBF). *)
Definition is_continuation (c : ascii) : bool :=
  let n := N_of_ascii c in ((128 <=? n) && (n <=? 191))%N.

Fixpoint utf8_chars (s : string) : list string :=
  match s with
  | EmptyString => []
  | String b t =>
      match utf8_chars t with
      | String c r :: cs =>
          if is_continuation c then String b (String c r) :: cs
          else String b EmptyString :: String c r :: cs
      | cs => String b EmptyString :: cs
      end
  end.

Definition in_range (lo hi n : N) : bool := ((lo <=? n) && (n <=? hi))%N.

(** Well-formed UTF-8 byte sequences of one scalar value (Unicode
    standard, table 3-7); surrogates and overlong forms are excluded,
    as in [bytes.decode('utf-8')]. *)
Definition wf_scalar (ch : string) : bool :=
  match code_units ch with
  | [b1] => in_range 0 127 b1
  | [b1; b2] => in_range 194 223 b1 && in_range 128 191 b2
  | [b1; b2; b3] =>
      (   (b1 =? 224)%N && in_range 160 191 b2
       || in_range 225 236 b1 && in_range 128 191 b2
       || (b1 =? 237)%N && in_range 128 159 b2
       || in_range 238 239 b1 && in_range 128 191 b2)
      && in_range 128 191 b3
  | [b1; b2; b3; b4] =>
      (   (b1 =? 240)%N && in_range 144 191 b2
       || in_range 241 243 b1 && in_range 128 191 b2
       || (b1 =? 244)%N && in_range 128 143 b2)
      && in_range 128 191 b3 && in_range 128 191 b4
  | _ => false
  end.

Definition wf_str (s : string) : bool := forallb wf_scalar (utf8_chars s).

(** [str.isspace()] of one character: the code points U+0009..U+000D,
    U+001C..U+0020, U+0085, U+00A0, U+1680, U+2000..U+200A, U+2028,
    U+2029, U+202F, U+205F and U+3000, in their UTF-8 form. *)
Definition isspace (ch : string) : bool :=
  match code_units ch with
  | [b1] => in_range 9 13 b1 || in_range 28 32 b1
  | [b1; b2] => (b1 =? 194)%N && ((b2 =? 133)%N || (b2 =? 160)%N)
  | [b1; b2; b3] =>
         (b1 =? 225)%N && (b2 =? 154)%N && (b3 =? 128)%N
      || (b1 =? 226)%N && (b2 =? 128)%N
         && (in_range 128 138 b3 || (b3 =? 168)%N || (b3 =? 169)%N
             || (b3 =? 175)%N)
      || (b1 =? 226)%N && (b2 =? 129)%N && (b3 =? 159)%N
      || (b1 =? 227)%N && (b2 =? 128)%N && (b3 =? 128)%N
  | _ => false
  end.

Fixpoint lstrip_chars (chars : list string) : list string :=
  match chars with
  | [] => []
  | c :: rest => if isspace c then lstrip_chars rest else chars
  end.

Definition rstrip_chars (chars : list string) : list string :=
  rev (lstrip_chars (rev chars)).

(** [s.strip()] *)
Definition strip (s : string) : string :=
  String.concat EmptyString (rstrip_chars (lstrip_chars (utf8_chars s))).

(** *** Bytes *)

Definition encode_utf8 (s : string) : list Byte.byte := list_byte_of_string s.

(** [b.decode('utf-8')]: [None] stands for [UnicodeDecodeError]. *)
Definition decode_utf8 (b : list Byte.byte) : option string :=
  let s := string_of_list_byte b in
  if wf_str s then Some s else None.

(** *** Text-mode reading

    [open(path, 'r')] reads with universal newlines: a carriage return
    followed by a line feed, and a lone carriage return, both become
    one line feed. *)
Definition CR : ascii := ascii_of_N 13.
Definition LF : ascii := ascii_of_N 10.

(** The string of one line feed. *)
Definition NL : string := String LF EmptyString.

Fixpoint universal_newlines (s : string) : string :=
  match s with
  | EmptyString => EmptyString
  | String c t =>
      if Ascii.eqb c CR then
        match t with
        | String c' t' =>
            if Ascii.eqb c' LF then String LF (universal_newlines t')
            else String LF (universal_newlines t)
        | EmptyString => String LF EmptyString
        end
      else String c (universal_newlines t)
  end.

Fixpoint has_cr (s : string) : bool :=
  match s with
  | EmptyString => false
  | String c t => Ascii.eqb c CR || has_cr t
  end.

(** [needle in s] *)
Definition contains (s needle : string) : Prop :=
  exists pre post, s = pre +:+ needle +:+ post.

(** [os.path.join(a, b)] on POSIX, for two components. *)
Definition ends_with_slash (s : string) : bool :=
  match rev (list_ascii_of_string s) with
  | c :: _ => Ascii.eqb c "/"%char
  | [] => false
  end.

Definition path_join (a b : string) : string :=
  match b with
  | String "/"%char _ => b
  | _ =>
      match a with
      | EmptyString => b
      | _ => if ends_with_slash a then a +:+ b else a +:+ "/" +:+ b
      end
  end.

(** [os.path.split(p)] on POSIX: the part before the last slash, with
    its trailing slashes removed unless it holds slashes only, and the
    part after the last slash. *)
Fixpoint rsplit_slash (p : string) : option (string * string) :=
  match p with
  | EmptyString => None
  | String c t =>
      match rsplit_slash t with
      | Some (head, tail) => Some (String c head, tail)
      | None => if Ascii.eqb c "/" then Some ("/", t) else None
      end
  end.

Fixpoint rstrip_slashes (s : string) : string :=
  match s with
  | EmptyString => EmptyString
  | String c t =>
      match rstrip_slashes t with
      | EmptyString =>
          if Ascii.eqb c "/" then EmptyString else String c EmptyString
      | r => String c r
      end
  end.

Definition path_split (p : string) : string * string :=
  match rsplit_slash p with
  | None => (EmptyString, p)
  | Some (head, tail) =>
      (match rstrip_slashes head with
       | EmptyString => head
       | stripped => stripped
       end, tail)
  end.

End Py.

Import Py.

(** * Effects: exceptions, calls to the outside and the state they act on *)

(** The exceptions that [except Exception] catches. *)
Inductive Exn : Type :=
| KeyError (key : string)
| IndexError
| TypeError
| ValueError (msg : string)
| UnicodeDecodeError
| UnicodeEncodeError
| OSError (msg : string)
| FileExistsError (path : string)
| HttpError (msg : string)
| SlackApiError (error : string)
| LibraryError (msg : string).

(** [isinstance(e, OSError)] *)
Definition is_os_error (e : Exn) : bool :=
  match e with
  | OSError _ | FileExistsError _ => true
  | _ => false
  end.

Inductive Res (A : Type) : Type :=
| Ret (a : A)
| Raise (e : Exn).
Arguments Ret {A} a.
Arguments Raise {A} e.

(** Slack Block Kit payload built by [_create_slack_message]. *)
Inductive TextObj : Type :=
| PlainText (text : string) (emoji : bool)
| Mrkdwn (text : string).

Inductive Block : Type :=
| HeaderBlock (text : TextObj)
| Divider
| SectionBlock (text : TextObj)
| ContextBlock (elements : list TextObj).

(** The answer of a Slack Web API call; only the [ok] field is read. *)
Record SlackResponse : Type := { ok : bool }.

(** A Drive listing entry is the JSON object of the API, a [dict]. *)
Abbreviation DriveFile := (gmap string string) (only parsing).

(** A media download, chunk by chunk: each [next_chunk()] either
    delivers bytes and says whether the download is done, or raises. *)
Inductive Download : Type :=
| LastChunk (data : list Byte.byte)
| MoreChunks (data : list Byte.byte) (rest : Download)
| ChunkError (e : Exn).

(** Every interaction with the outside of the process. *)
Inductive Event : Type :=
| EvLoadDotenv
| EvCredentials (path : string) (scopes : list string)
| EvDriveBuild
| EvDriveList (q orderBy fields : string)
| EvDriveExport (file_id mime_type : string)
| EvDriveGetMedia (file_id : string)
| EvNextChunk
| EvDocx
| EvMakedirs (dir : string)
| EvNow
| EvOpenWrite (path : string)
| EvExists (path : string)
| EvOpenRead (path : string)
| EvGenaiConfigure (api_key : string)
| EvGenaiModel (model_name : string)
| EvGenerate (model_name prompt : string)
| EvSlackAuthTest (token : string)
| EvTime
| EvSlackPost (token channel text : string) (blocks : option (list Block)).

Definition is_drive_call (e : Event) : bool :=
  match e with
  | EvCredentials _ _ | EvDriveBuild | EvDriveList _ _ _
  | EvDriveExport _ _ | EvDriveGetMedia _ | EvNextChunk => true
  | _ => false
  end.

Definition is_genai_call (e : Event) : bool :=
  match e with
  | EvGenaiConfigure _ | EvGenaiModel _ | EvGenerate _ _ => true
  | _ => false
  end.

Definition is_slack_post (e : Event) : bool :=
  match e with
  | EvSlackPost _ _ _ _ => true
  | _ => false
  end.

Definition is_slack_auth_test (e : Event) : bool :=
  match e with
  | EvSlackAuthTest _ => true
  | _ => false
  end.

Definition is_file_write (e : Event) : bool :=
  match e with
  | EvOpenWrite _ | EvMakedirs _ => true
  | _ => false
  end.

(** The collaborators.  Each answer may depend on what happened before
    (the history is the trace so far), so a backend may change its mind
    between two calls.  [None] in an [option Exn] means: no exception.
    - [dotenv]: the settings of the [.env] file;
    - [from_service_account_file], [build]: loading the credentials and
      building the Drive service;
    - [files_list q orderBy fields]: [files().list(...).execute()], the
      [files] entry of the answer when it has one;
    - [export_media], [get_media]: the chunks that the downloader of the
      request delivers;
    - [docx_paragraphs]: the [text] of the [paragraphs] of
      [Document(file_io)], in document order;
    - [mkdir_error]: the failures of [os.mkdir] for a path that does
      not exist yet (missing parent, permissions, ...);
    - [open_write_error], [open_read_error]: the failures of [open];
    - [now_strftime]: [datetime.now().strftime("%Y%m%d_%H%M%S")];
    - [generate_content_text model prompt]: the [text] of
      [model.generate_content(prompt)];
    - [auth_test], [chat_postMessage]: the Slack Web API calls;
    - [time_time]: [int(time.time())]. *)
Record World : Type := {
  dotenv : gmap string string;
  from_service_account_file : list Event -> string -> list string -> option Exn;
  build : list Event -> option Exn;
  files_list :
    list Event -> string -> string -> string -> Res (option (list DriveFile));
  export_media : list Event -> string -> string -> Download;
  get_media : list Event -> string -> Download;
  docx_paragraphs : list Event -> list Byte.byte -> Res (list string);
  mkdir_error : list Event -> string -> option Exn;
  now_strftime : list Event -> string;
  open_write_error : list Event -> string -> option Exn;
  open_read_error : list Event -> string -> option Exn;
  generate_content_text : list Event -> string -> string -> Res string;
  auth_test : list Event -> string -> Res SlackResponse;
  time_time : list Event -> Z;
  chat_postMessage :
    list Event -> string -> string -> string -> option (list Block) ->
    Res SlackResponse
}.

(** What the process can change: its environment and the files and
    directories, and the trace of its calls. *)
Record State : Type := {
  trace : list Event;
  environ : gmap string string;
  fs_files : gmap string (list Byte.byte);
  fs_dirs : gset string
}.

(** *** The monad *)

Definition M (A : Type) : Type := State -> Res A * State.

Definition ret {A} (a : A) : M A := fun st => (Ret a, st).
Definition raise {A} (e : Exn) : M A := fun st => (Raise e, st).

Definition bind {A B} (m : M A) (k : A -> M B) : M B :=
  fun st =>
    match m st with
    | (Ret a, st') => k a st'
    | (Raise e, st') => (Raise e, st')
    end.

(** [try: body except Exception as e: handler] *)
Definition try_except {A} (body : M A) (handler : Exn -> M A) : M A :=
  fun st =>
    match body st with
    | (Ret a, st') => (Ret a, st')
    | (Raise e, st') => handler e st'
    end.

Declare Scope py_scope.
Delimit Scope py_scope with py.
Notation "x <- m ;; k" := (bind m (fun x => k))
  (at level 100, m at next level, right associativity) : py_scope.
Notation "m ;; k" := (bind m (fun _ => k))
  (at level 100, right associativity) : py_scope.
Local Open Scope py_scope.

(** The state once one more event has happened. *)
Definition log (st : State) (e : Event) : State :=
  {| trace := trace st ++ [e]; environ := environ st;
     fs_files := fs_files st; fs_dirs := fs_dirs st |}.

Definition emit (e : Event) : M unit := fun st => (Ret tt, log st e).

(** One call to a collaborator: the event joins the trace and the
    collaborator answers from the history before the call. *)
Definition call {A} (e : Event) (answer : list Event -> Res A) : M A :=
  fun st => (answer (trace st), log st e).

Definition call_check (e : Event) (answer : list Event -> option Exn)
  : M unit :=
  call e (fun h => match answer h with
                   | Some x => Raise x
                   | None => Ret tt
                   end).

(** The state once the directory [dir] exists. *)
Definition add_dir (st : State) (dir : string) : State :=
  {| trace := trace st; environ := environ st;
     fs_files := fs_files st; fs_dirs := fs_dirs st ∪ {[ dir ]} |}.

(** The state once [path] holds [data]. *)
Definition set_file (st : State) (path : string) (data : list Byte.byte)
  : State :=
  {| trace := trace st; environ := environ st;
     fs_files := <[path := data]> (fs_files st); fs_dirs := fs_dirs st |}.

(** [d[key]] on a dict *)
Definition getitem {V} (d : gmap string V) (key : string) : M V :=
  match d !! key with
  | Some v => ret v
  | None => raise (KeyError key)
  end.

(** A value used where the callee takes a [str].  In [main] the value
    is never [None] at these places (the settings are strings after a
    successful resolution, the other values have passed a truthiness
    test); the model raises there. *)
Definition as_str (v : value) : M string :=
  match v with
  | VStr s => ret s
  | VNone => raise TypeError
  end.

(** * The pipeline *)

Section Pipeline.

Variable w : World.

(** ** config.py *)

(** [load_dotenv()]: settings of the [.env] file enter [os.environ];
    a variable that is already set keeps its value. *)
Definition load_dotenv : M unit :=
  fun st =>
    (Ret tt,
     {| trace := trace st ++ [EvLoadDotenv];
        environ := environ st ∪ dotenv w;
        fs_files := fs_files st; fs_dirs := fs_dirs st |}).

(** [os.getenv(name)] and [os.getenv(name, default)] *)
Definition getenv (name : string) : M value :=
  fun st =>
    (Ret (match environ st !! name with
          | Some s => VStr s
          | None => VNone
          end), st).

Definition getenv_default (name fallback : string) : M value :=
  fun st =>
    (Ret (match environ st !! name with
          | Some s => VStr s
          | None => VStr fallback
          end), st).

Definition required_vars : list string :=
  [ "google_credentials_path";
    "google_drive_folder_id";
    "slack_bot_token";
    "slack_channel_id";
    "google_ai_api_key" ].

Definition missing_message (missing_vars : list string) : string :=
  "以下の環境変数が設定されていません: " +:+ join ", " missing_vars.

(** [[var for var in required_vars if not env_vars[var]]] *)
Fixpoint missing_in (env_vars : gmap string value) (vars : list string)
  : M (list string) :=
  match vars with
  | [] => ret []
  | var :: rest =>
      v <- getitem env_vars var ;;
      tail <- missing_in env_vars rest ;;
      ret (if truthy v then tail else var :: tail)
  end.

Definition load_environment_variables : M (gmap string value) :=
  load_dotenv ;;
  google_credentials_path <- getenv "GOOGLE_CREDENTIALS_PATH" ;;
  google_drive_folder_id <- getenv "GOOGLE_DRIVE_FOLDER_ID" ;;
  slack_bot_token <- getenv "SLACK_BOT_TOKEN" ;;
  slack_channel_id <- getenv "SLACK_CHANNEL_ID" ;;
  google_ai_api_key <- getenv "GOOGLE_AI_API_KEY" ;;
  ai_model_name <- getenv_default "AI_MODEL_NAME" "gemini-pro" ;;
  target_directory <- getenv_default "TARGET_DIRECTORY" "./downloads" ;;
  let env_vars : gmap string value :=
    <["google_credentials_path" := google_credentials_path]>
    (<["google_drive_folder_id" := google_drive_folder_id]>
    (<["slack_bot_token" := slack_bot_token]>
    (<["slack_channel_id" := slack_channel_id]>
    (<["google_ai_api_key" := google_ai_api_key]>
    (<["ai_model_name" := ai_model_name]>
    (<["target_directory" := target_directory]> ∅)))))) in
  missing_vars <- missing_in env_vars required_vars ;;
  match missing_vars with
  | _ :: _ => raise (ValueError (missing_message missing_vars))
  | [] => ret env_vars
  end.

(** ** drive_downloader.py *)

Definition SCOPES : list string :=
  [ "https://www.googleapis.com/auth/drive.readonly" ].

Definition transcript_query (folder_id : string) : string :=
  "'" +:+ folder_id +:+
  "' in parents and (name contains '会議の録音' or name contains 'meeting' or name contains 'transcript')".

Definition LIST_ORDER : string := "modifiedTime desc".
Definition LIST_FIELDS : string :=
  "files(id, name, mimeType, modifiedTime, webViewLink)".

Definition MIME_GOOGLE_DOC : string := "application/vnd.google-apps.document".
Definition MIME_DOCX : string :=
  "application/vnd.openxmlformats-officedocument.wordprocessingml.document".
Definition MIME_TEXT : string := "text/plain".

(** [while done is False: status, done = downloader.next_chunk()] *)
Fixpoint next_chunks (d : Download) (file_io : list Byte.byte)
  : M (list Byte.byte) :=
  match d with
  | LastChunk data => emit EvNextChunk ;; ret (file_io ++ data)
  | MoreChunks data rest =>
      emit EvNextChunk ;; next_chunks rest (file_io ++ data)
  | ChunkError e => emit EvNextChunk ;; raise e
  end.

(** The request object of the first [if]/[elif] chain; [None] is the
    [else] branch, which returns [None] at once. *)
Definition media_request (file_id mime_type : string)
  : M (option Download) :=
  if String.eqb mime_type MIME_GOOGLE_DOC then
    call (EvDriveExport file_id MIME_TEXT)
         (fun h => Ret (Some (export_media w h file_id MIME_TEXT)))
  else if String.eqb mime_type MIME_DOCX then
    call (EvDriveGetMedia file_id)
         (fun h => Ret (Some (get_media w h file_id)))
  else if String.eqb mime_type MIME_TEXT then
    call (EvDriveGetMedia file_id)
         (fun h => Ret (Some (get_media w h file_id)))
  else ret None.

(** The text of a file held in memory. *)
Definition extract_text (mime_type : string) (file_io : list Byte.byte)
  : M string :=
  if String.eqb mime_type MIME_DOCX then
    paragraphs <- call EvDocx (fun h => docx_paragraphs w h file_io) ;;
    ret (join NL paragraphs)
  else
    match decode_utf8 file_io with
    | Some content => ret content
    | None => raise UnicodeDecodeError
    end.

Definition _download_file_content (file_id mime_type : string) : M value :=
  try_except
    (request <- media_request file_id mime_type ;;
     match request with
     | None => ret VNone
     | Some request =>
         file_io <- next_chunks request [] ;;
         content <- extract_text mime_type file_io ;;
         ret (VStr content)
     end)
    (fun _ => ret VNone).

(** [os.path.exists(p)] on the state. *)
Definition exists_in (st : State) (p : string) : bool :=
  bool_decide (is_Some (fs_files st !! p)) || bool_decide (p ∈ fs_dirs st).

(** [os.mkdir(p)]: it fails when the path exists; its other failures
    are the collaborator's. *)
Definition mkdir (h : list Event) (p : string) : M unit :=
  fun st =>
    if exists_in st p then (Raise (FileExistsError p), st)
    else
      match mkdir_error w h p with
      | Some e => (Raise e, st)
      | None => (Ret tt, add_dir st p)
      end.

(** The last step of [os.makedirs(name, exist_ok=True)]:
    [try: mkdir(name) except OSError: if not path.isdir(name): raise] *)
Definition mkdir_exist_ok (h : list Event) (name : string) : M unit :=
  fun st =>
    match mkdir h name st with
    | (Raise e, st') =>
        if is_os_error e && bool_decide (name ∈ fs_dirs st')
        then (Ret tt, st') else (Raise e, st')
    | done => done
    end.

(** The first lines of [os.makedirs]:
    [head, tail = path.split(name)]
    [if not tail: head, tail = path.split(head)] *)
Definition makedirs_split (name : string) : string * string :=
  let '(head, tail) := path_split name in
  if str_truthy tail then (head, tail) else path_split head.

(** The body of [os.makedirs(name, exist_ok=True)]: the missing
    ancestors are made first, outermost first; a [FileExistsError] of
    the recursive call is passed over.  The recursion is on a shorter
    path each time, so the length of [name] is enough fuel. *)
Fixpoint makedirs_from (fuel : nat) (h : list Event) (name : string)
  : M unit :=
  match fuel with
  | O => mkdir_exist_ok h name
  | S fuel =>
      let '(head, tail) := makedirs_split name in
      fun st =>
        if str_truthy head && str_truthy tail && negb (exists_in st head)
        then
          let after st' :=
            if String.eqb tail "." then (Ret tt, st')
            else mkdir_exist_ok h name st' in
          match makedirs_from fuel h head st with
          | (Ret _, st') => after st'
          | (Raise (FileExistsError _), st') => after st'
          | (Raise e, st') => (Raise e, st')
          end
        else mkdir_exist_ok h name st
  end.

(** [os.makedirs(target_directory, exist_ok=True)] *)
Definition makedirs (dir : string) : M unit :=
  fun st =>
    makedirs_from (String.length dir) (trace st) dir (log st (EvMakedirs dir)).

(** [open(path, 'w', encoding='utf-8')]: the file exists and is empty
    from here on. *)
Definition open_write (path : string) : M unit :=
  call_check (EvOpenWrite path) (fun h => open_write_error w h path) ;;
  fun st => (Ret tt, set_file st path []).

(** [f.write(text)] on a file opened for writing with
    [encoding='utf-8'] (POSIX: line feeds are written as they are).  A
    text that UTF-8 cannot encode raises, and nothing of it is
    written. *)
Definition f_write (path text : string) : M unit :=
  fun st =>
    if wf_str text then
      (Ret tt,
       set_file st path
         (default [] (fs_files st !! path) ++ encode_utf8 text))
    else (Raise UnicodeEncodeError, st).

(** [files[0]] *)
Definition first_item {A} (l : list A) : M A :=
  match l !! 0%nat with
  | Some x => ret x
  | None => raise IndexError
  end.

Definition ARTIFACT_TITLE : string := "# 会議文字起こし" +:+ NL +:+ NL.
Definition ARTIFACT_BODY_HEADING : string := "## 内容" +:+ NL +:+ NL.

(** Lines 31 to 49 of [download_latest_transcript_from_drive]:
    credentials, service, and the listing of the folder, requested in
    descending order of modification time. *)
Definition list_transcript_files (folder_id credentials_path : string)
  : M (list DriveFile) :=
  call_check (EvCredentials credentials_path SCOPES)
    (fun h => from_service_account_file w h credentials_path SCOPES) ;;
  call_check EvDriveBuild (build w) ;;
  let query := transcript_query folder_id in
  results <- call (EvDriveList query LIST_ORDER LIST_FIELDS)
               (fun h => files_list w h query LIST_ORDER LIST_FIELDS) ;;
  ret (default [] results).

(** Lines 79 to 85: the [with open(...)] block. *)
Definition write_artifact
    (md_filepath : string) (latest_file : DriveFile)
    (file_name web_view_link content : string) : M unit :=
  open_write md_filepath ;;
  f_write md_filepath ARTIFACT_TITLE ;;
  f_write md_filepath ("**元ファイル名:** " +:+ file_name +:+ NL) ;;
  modified_time <- getitem latest_file "modifiedTime" ;;
  f_write md_filepath ("**更新日時:** " +:+ modified_time +:+ NL) ;;
  f_write md_filepath ("**元のURL:** " +:+ web_view_link +:+ NL +:+ NL) ;;
  f_write md_filepath ARTIFACT_BODY_HEADING ;;
  f_write md_filepath content.

(** Lines 57 to 88: what happens to the selected entry. *)
Definition save_transcript (latest_file : DriveFile)
    (target_directory : string) : M (value * value) :=
  file_id <- getitem latest_file "id" ;;
  file_name <- getitem latest_file "name" ;;
  mime_type <- getitem latest_file "mimeType" ;;
  web_view_link <- getitem latest_file "webViewLink" ;;
  makedirs target_directory ;;
  content <- _download_file_content file_id mime_type ;;
  match content with
  | VNone => ret (VNone, VNone)
  | VStr content =>
      timestamp <- call EvNow (fun h => Ret (now_strftime w h)) ;;
      let md_filename := "transcript_" +:+ timestamp +:+ ".md" in
      let md_filepath := path_join target_directory md_filename in
      write_artifact md_filepath latest_file file_name web_view_link
        content ;;
      ret (VStr md_filepath, VStr web_view_link)
  end.

Definition download_latest_transcript_from_drive
    (folder_id credentials_path target_directory : string)
  : M (value * value) :=
  try_except
    (files <- list_transcript_files folder_id credentials_path ;;
     match files with
     | [] => ret (VNone, VNone)
     | _ :: _ =>
         latest_file <- first_item files ;;
         save_transcript latest_file target_directory
     end)
    (fun _ => ret (VNone, VNone)).

(** ** ai_summarizer.py *)

Definition PROMPT_HEAD : string := "
以下は会議の文字起こしです。この内容を以下の形式で要約してください：

【要約形式】
## 📋 会議要約

### 🎯 主要議題
- 重要なポイントを3-5点で簡潔にまとめてください

### 💡 決定事項
- 会議で決定された事項があれば箇条書きで記載してください
- 決定事項がない場合は「なし」と記載してください

### 📝 次回アクション・タスク
- 今後実行すべきアクションやタスクがあれば担当者と期限を含めて記載してください
- アクションがない場合は「なし」と記載してください

### 📅 次回会議
- 次回会議の予定があれば記載してください
- 予定がない場合は「未定」と記載してください

【文字起こし内容】
".

Definition PROMPT_TAIL : string := "

上記の内容を読みやすく、要点を整理して要約してください。専門用語がある場合は簡潔に説明を加えてください。
".

Definition _create_summary_prompt (content : string) : string :=
  PROMPT_HEAD +:+ content +:+ PROMPT_TAIL.

(** [os.path.exists(path)] *)
Definition path_exists (path : string) : M bool :=
  emit (EvExists path) ;;
  fun st =>
    (Ret (bool_decide (is_Some (fs_files st !! path))
          || bool_decide (path ∈ fs_dirs st)), st).

(** [with open(path, 'r', encoding='utf-8') as f: content = f.read()] *)
Definition read_text (path : string) : M string :=
  call_check (EvOpenRead path) (fun h => open_read_error w h path) ;;
  fun st =>
    match fs_files st !! path with
    | None => (Raise (OSError path), st)
    | Some data =>
        match decode_utf8 data with
        | Some text => (Ret (universal_newlines text), st)
        | None => (Raise UnicodeDecodeError, st)
        end
    end.

Definition summarize_transcript_with_ai
    (file_path ai_api_key model_name : string) : M value :=
  try_except
    (found <- path_exists file_path ;;
     if negb found then ret VNone
     else
       content <- read_text file_path ;;
       if negb (str_truthy (strip content)) then ret VNone
       else
         emit (EvGenaiConfigure ai_api_key) ;;
         emit (EvGenaiModel model_name) ;;
         let prompt := _create_summary_prompt content in
         text <- call (EvGenerate model_name prompt)
                   (fun h => generate_content_text w h model_name prompt) ;;
         if str_truthy text then ret (VStr (strip text)) else ret VNone)
    (fun _ => ret VNone).

(** ** slack_poster.py *)

Record SlackMessage : Type := { blocks : list Block }.

Definition NOTIFICATION_TEXT : string := "📝 会議の要約が完了しました".

(** The block list of [_create_slack_message], the footer carrying
    the time of generation. *)
Definition message_blocks (summary_text google_doc_url : string)
    (generated_at : Z) : list Block :=
  [ HeaderBlock (PlainText "📝 会議要約レポート" true);
    Divider;
    SectionBlock (Mrkdwn summary_text);
    Divider;
    SectionBlock
      (Mrkdwn ("📄 *元の文書:* <" +:+ google_doc_url +:+
               "|Google Docを開く>"));
    ContextBlock
      [ Mrkdwn ("🤖 自動生成された要約 | 生成日時: <!date^" +:+
                pretty generated_at +:+
                "^{date_short_pretty} {time}|エラー>") ] ].

Definition _create_slack_message (summary_text google_doc_url : string)
  : M SlackMessage :=
  generated_at <- call EvTime (fun h => Ret (time_time w h)) ;;
  ret {| blocks := message_blocks summary_text google_doc_url
                     generated_at |}.

Definition _create_simple_slack_message
    (summary_text google_doc_url : string) : string :=
  "📝 **会議要約レポート**

" +:+ summary_text +:+ "

---
📄 **元の文書:** " +:+ google_doc_url +:+ "

🤖 自動生成された要約".

Definition post_summary_to_slack
    (slack_token channel_id summary_text google_doc_url : string)
  : M bool :=
  try_except
    (message <- _create_slack_message summary_text google_doc_url ;;
     response <-
       call (EvSlackPost slack_token channel_id NOTIFICATION_TEXT
               (Some (blocks message)))
            (fun h => chat_postMessage w h slack_token channel_id
                        NOTIFICATION_TEXT (Some (blocks message))) ;;
     if ok response then ret true else ret false)
    (fun _ => ret false).

Definition post_simple_message_to_slack
    (slack_token channel_id summary_text google_doc_url : string)
  : M bool :=
  try_except
    (let message :=
       _create_simple_slack_message summary_text google_doc_url in
     response <-
       call (EvSlackPost slack_token channel_id message None)
            (fun h => chat_postMessage w h slack_token channel_id
                        message None) ;;
     if ok response then ret true else ret false)
    (fun _ => ret false).

Definition test_slack_connection (slack_token : string) : M bool :=
  try_except
    (response <- call (EvSlackAuthTest slack_token)
                   (fun h => auth_test w h slack_token) ;;
     if ok response then ret true else ret false)
    (fun _ => ret false).

(** ** main.py *)

(** [env_vars[key]] passed where a [str] is expected. *)
Definition setting (env_vars : gmap string value) (key : string)
  : M string :=
  v <- getitem env_vars key ;;
  as_str v.

Definition main : M bool :=
  try_except
    (env_vars <- load_environment_variables ;;
     slack_bot_token <- setting env_vars "slack_bot_token" ;;
     connected <- test_slack_connection slack_bot_token ;;
     if negb connected then ret false
     else
       google_drive_folder_id <- setting env_vars "google_drive_folder_id" ;;
       google_credentials_path <-
         setting env_vars "google_credentials_path" ;;
       target_directory <- setting env_vars "target_directory" ;;
       fetched <- download_latest_transcript_from_drive
                    google_drive_folder_id google_credentials_path
                    target_directory ;;
       let '(file_path, google_doc_url) := fetched in
       if negb (truthy file_path) || negb (truthy google_doc_url)
       then ret false
       else
         file_path <- as_str file_path ;;
         google_doc_url <- as_str google_doc_url ;;
         google_ai_api_key <- setting env_vars "google_ai_api_key" ;;
         ai_model_name <- setting env_vars "ai_model_name" ;;
         summary_text <- summarize_transcript_with_ai
                           file_path google_ai_api_key ai_model_name ;;
         if negb (truthy summary_text) then ret false
         else
           summary_text <- as_str summary_text ;;
           slack_bot_token <- setting env_vars "slack_bot_token" ;;
           slack_channel_id <- setting env_vars "slack_channel_id" ;;
           success <- post_summary_to_slack slack_bot_token
                        slack_channel_id summary_text google_doc_url ;;
           if negb success then ret false else ret true)
    (fun _ => ret false).

End Pipeline.

(** * Notions used in the statements *)

(** ** Configuration resolution *)

(** The environment variable behind each key of the bundle, as in the
    dict literal of [load_environment_variables]. *)
Definition env_name (key : string) : string :=
  if String.eqb key "google_credentials_path" then "GOOGLE_CREDENTIALS_PATH"
  else if String.eqb key "google_drive_folder_id" then "GOOGLE_DRIVE_FOLDER_ID"
  else if String.eqb key "slack_bot_token" then "SLACK_BOT_TOKEN"
  else if String.eqb key "slack_channel_id" then "SLACK_CHANNEL_ID"
  else if String.eqb key "google_ai_api_key" then "GOOGLE_AI_API_KEY"
  else if String.eqb key "ai_model_name" then "AI_MODEL_NAME"
  else if String.eqb key "target_directory" then "TARGET_DIRECTORY"
  else EmptyString.

(** A setting is missing when its variable is unset or set to the empty
    string. *)
Definition setting_missing (env : gmap string string) (key : string) : bool :=
  match env !! env_name key with
  | None => true
  | Some EmptyString => true
  | Some (String _ _) => false
  end.

(** [os.getenv(NAME)] and [os.getenv(NAME, fallback)] as values of the
    bundle. *)
Definition required_value (env : gmap string string) (key : string) : value :=
  match env !! env_name key with
  | Some s => VStr s
  | None => VNone
  end.

Definition optional_value (env : gmap string string) (key fallback : string)
  : value :=
  match env !! env_name key with
  | Some s => VStr s
  | None => VStr fallback
  end.

(** The bundle a successful resolution returns. *)
Definition config_bundle (env : gmap string string) : gmap string value :=
  list_to_map
    [ ("google_credentials_path", required_value env "google_credentials_path");
      ("google_drive_folder_id", required_value env "google_drive_folder_id");
      ("slack_bot_token", required_value env "slack_bot_token");
      ("slack_channel_id", required_value env "slack_channel_id");
      ("google_ai_api_key", required_value env "google_ai_api_key");
      ("ai_model_name", optional_value env "ai_model_name" "gemini-pro");
      ("target_directory", optional_value env "target_directory" "./downloads") ].

(** The required keys whose setting is missing, in the order of
    [required_vars]. *)
Definition missing_settings (env : gmap string string) : list string :=
  filter (fun key => setting_missing env key = true) required_vars.

(** The keys of the bundle. *)
Definition setting_keys : list string :=
  required_vars ++ [ "ai_model_name"; "target_directory" ].

(** ** Outcomes of computations *)

(** [returns_only P m]: whatever [m] returns satisfies [P] (it may also
    raise). *)
Definition returns_only {A} (P : A -> Prop) (m : M A) : Prop :=
  forall st a st', m st = (Ret a, st') -> P a.

(** [same_files st st']: files, directories and environment of [st']
    are those of [st]. *)
Definition same_files (st st' : State) : Prop :=
  fs_files st' = fs_files st /\ fs_dirs st' = fs_dirs st
  /\ environ st' = environ st.

(** [keeps_files m]: whatever [m] does, it leaves files, directories
    and environment as they were. *)
Definition keeps_files {A} (m : M A) : Prop :=
  forall st r st', m st = (r, st') -> same_files st st'.

(** ** The fetch and its artifact *)

(** The two shapes of the pair that the fetch returns. *)
Definition full_or_empty (pair : value * value) : Prop :=
  pair = (VNone, VNone) \/
  exists path url, pair = (VStr path, VStr url).

(** The calls of the listing phase, in order. *)
Definition listing_events (folder_id credentials_path : string)
  : list Event :=
  [ EvCredentials credentials_path SCOPES;
    EvDriveBuild;
    EvDriveList (transcript_query folder_id) LIST_ORDER LIST_FIELDS ].

(** The five fields that the fetch reads from a listing entry. *)
Record entry_fields (latest_file : DriveFile)
    (file_id file_name mime_type modified_time web_view_link : string)
  : Prop := {
  field_id : latest_file !! "id" = Some file_id;
  field_name : latest_file !! "name" = Some file_name;
  field_mime_type : latest_file !! "mimeType" = Some mime_type;
  field_modified_time : latest_file !! "modifiedTime" = Some modified_time;
  field_web_view_link : latest_file !! "webViewLink" = Some web_view_link
}.

(** The path of the artifact, the clock being read in state [st]. *)
Definition artifact_path (w : World) (target_directory : string)
    (st : State) : string :=
  path_join target_directory
    ("transcript_" +:+ now_strftime w (trace st) +:+ ".md").

(** What the six [f.write] calls put in front of the content. *)
Definition artifact_header (file_name modified_time web_view_link : string)
  : string :=
  ARTIFACT_TITLE +:+
  ("**元ファイル名:** " +:+ file_name +:+ NL) +:+
  ("**更新日時:** " +:+ modified_time +:+ NL) +:+
  ("**元のURL:** " +:+ web_view_link +:+ NL +:+ NL) +:+
  ARTIFACT_BODY_HEADING.

Definition artifact_text
    (file_name modified_time web_view_link content : string) : string :=
  artifact_header file_name modified_time web_view_link +:+ content.

(** The part of a text that follows a given prefix. *)
Fixpoint strip_prefix (prefix s : string) : option string :=
  match prefix, s with
  | EmptyString, _ => Some s
  | String c p, String d t => if Ascii.eqb c d then strip_prefix p t else None
  | String _ _, EmptyString => None
  end.

(** The body section of an artifact text: what follows the header. *)
Definition artifact_body
    (file_name modified_time web_view_link text : string) : option string :=
  strip_prefix (artifact_header file_name modified_time web_view_link) text.

(** ** Order of a listing *)

(** The modification time of an entry, an RFC 3339 timestamp in UTC as
    the Drive API prints it (fixed width, so that the order of the
    strings is the order of the instants). *)
Definition modified_time_of (f : DriveFile) : string :=
  default EmptyString (f !! "modifiedTime").

(** [f] was modified no earlier than [g]. *)
Definition not_older (f g : DriveFile) : Prop :=
  String.le (modified_time_of g) (modified_time_of f).

(** A listing in descending order of modification time, which is what
    [orderBy='modifiedTime desc'] asks the API for. *)
Definition newest_first (files : list DriveFile) : Prop :=
  Sorted not_older files.

(** ** Text *)

(** [s.split(sep)] for a one-character separator. *)
Fixpoint split_on (sep : ascii) (s : string) : list string :=
  match s with
  | EmptyString => [EmptyString]
  | String c t =>
      if Ascii.eqb c sep then EmptyString :: split_on sep t
      else
        match split_on sep t with
        | piece :: pieces => String c piece :: pieces
        | [] => [String c EmptyString]
        end
  end.

(** [sep in s] for one character. *)
Fixpoint has_char (sep : ascii) (s : string) : bool :=
  match s with
  | EmptyString => false
  | String c t => Ascii.eqb c sep || has_char sep t
  end.

(** Every character of [s] is a whitespace character. *)
Definition all_whitespace (s : string) : bool :=
  forallb isspace (utf8_chars s).

(** Texts made of whitespace characters, one after the other. *)
Inductive ws_string : string -> Prop :=
| ws_nil : ws_string EmptyString
| ws_cons (c s : string) :
    isspace c = true -> ws_string s -> ws_string (c +:+ s).

(** The concatenation of a list of characters. *)
Fixpoint flatten (chars : list string) : string :=
  match chars with
  | [] => EmptyString
  | c :: rest => c +:+ flatten rest
  end.

(** ** Test doubles

    Backends with fixed answers, for running the pipeline on concrete
    inputs. *)

Module Demo.

Definition drive_file (id name mime_type modified_time url : string)
  : DriveFile :=
  list_to_map
    [ ("id", id); ("name", name); ("mimeType", mime_type);
      ("modifiedTime", modified_time); ("webViewLink", url) ].

Definition settings : gmap string string :=
  list_to_map
    [ ("GOOGLE_CREDENTIALS_PATH", "key.json");
      ("GOOGLE_DRIVE_FOLDER_ID", "folder1");
      ("SLACK_BOT_TOKEN", "xoxb-1");
      ("SLACK_CHANNEL_ID", "C01");
      ("GOOGLE_AI_API_KEY", "k") ].

(** A world whose Drive folder lists [listing], whose downloads all
    deliver [payload], whose Slack [auth.test] answers [auth_ok] and
    whose generator answers [summary]. *)
Definition world (listing : list DriveFile) (payload : Download)
    (auth_ok : bool) (summary : Res string) : World :=
  {| dotenv := ∅;
     from_service_account_file := fun _ _ _ => None;
     build := fun _ => None;
     files_list := fun _ _ _ _ => Ret (Some listing);
     export_media := fun _ _ _ => payload;
     get_media := fun _ _ => payload;
     docx_paragraphs := fun _ _ => Ret [ "Hello"; EmptyString; "World" ];
     mkdir_error := fun _ _ => None;
     now_strftime := fun _ => "20240102_030405";
     open_write_error := fun _ _ => None;
     open_read_error := fun _ _ => None;
     generate_content_text := fun _ _ _ => summary;
     auth_test :=
       fun _ _ => if auth_ok then Ret {| ok := true |}
                  else Raise (SlackApiError "invalid_auth");
     time_time := fun _ => 1700000000%Z;
     chat_postMessage := fun _ _ _ _ _ => Ret {| ok := true |} |}.

Definition start (env : gmap string string) : State :=
  {| trace := []; environ := env; fs_files := ∅; fs_dirs := ∅ |}.

Definition meeting (mime_type : string) : DriveFile :=
  drive_file "f1" "meeting_2024" mime_type "2024-01-02T03:04:05.000Z"
    "https://docs.google.com/document/d/f1".

End Demo.

Definition demo_url : string := "https://docs.google.com/document/d/f1".
Definition demo_path : string := "./downloads/transcript_20240102_030405.md".

Definition world_plain : World :=
  Demo.world [Demo.meeting MIME_TEXT]
    (LastChunk (encode_utf8 "Discussed X. Decided Y.")) true (Ret "summary").

Definition plain_listed : State :=
  (list_transcript_files world_plain "folder1" "key.json" (Demo.start ∅)).2.

Definition plain_made : State :=
  (makedirs world_plain "./downloads" plain_listed).2.

Definition plain_extracted : State :=
  (_download_file_content world_plain "f1" MIME_TEXT plain_made).2.

Definition plain_run : Res (value * value) * State :=
  download_latest_transcript_from_drive world_plain "folder1" "key.json"
    "./downloads" (Demo.start ∅).

Definition world_empty_folder : World :=
  Demo.world [] (LastChunk []) true (Ret "summary").

Definition world_auth_rejected : World :=
  Demo.world [Demo.meeting MIME_TEXT] (LastChunk (encode_utf8 "Discussed X."))
    false (Ret "summary").

Definition world_docx : World :=
  Demo.world [Demo.meeting MIME_DOCX] (MoreChunks [] (LastChunk [])) true
    (Ret "summary").

(** One space and one line feed. *)
Definition blank : string := " " +:+ NL.

Definition world_blank : World :=
  Demo.world [Demo.meeting MIME_TEXT] (LastChunk (encode_utf8 blank)) true
    (Ret "summary").

Definition blank_listed : State :=
  (list_transcript_files world_blank "folder1" "key.json" (Demo.start ∅)).2.

Definition blank_made : State :=
  (makedirs world_blank "./downloads" blank_listed).2.

Definition blank_extracted : State :=
  (_download_file_content world_blank "f1" MIME_TEXT blank_made).2.

(** A text with a carriage return before the line feed, as a plain-text
    export with CR LF line ends delivers it. *)
Definition crlf_text : string := "a" +:+ String CR NL +:+ "b".

Definition world_crlf : World :=
  Demo.world [Demo.meeting MIME_GOOGLE_DOC] (LastChunk (encode_utf8 crlf_text))
    true (Ret "summary").

Definition crlf_run : Res (value * value) * State :=
  download_latest_transcript_from_drive world_crlf "folder1" "key.json"
    "./downloads" (Demo.start ∅).

Definition IDEOGRAPHIC_SPACE : string :=
  String (ascii_of_N 227) (String (ascii_of_N 128)
    (String (ascii_of_N 128) EmptyString)).

(** A file of a space, a tab, a line feed, a carriage return and an
    ideographic space. *)
Definition blank_file : string :=
  " " +:+ String (ascii_of_N 9) NL +:+ String CR IDEOGRAPHIC_SPACE.

Definition state_with_blank_file : State :=
  {| trace := []; environ := ∅;
     fs_files := {[ "in.md" := encode_utf8 blank_file ]}; fs_dirs := ∅ |}.

Definition entry_a : DriveFile :=
  Demo.drive_file "a" "meeting_a" MIME_TEXT "2024-03-01T10:00:00.000Z"
    "https://docs.google.com/document/d/a".
Definition entry_b : DriveFile :=
  Demo.drive_file "b" "transcript_b" MIME_TEXT "2024-03-01T10:00:00.000Z"
    "https://docs.google.com/document/d/b".
Definition entry_c : DriveFile :=
  Demo.drive_file "c" "meeting_c" MIME_TEXT "2024-02-28T23:59:59.000Z"
    "https://docs.google.com/document/d/c".

Definition world_three : World :=
  Demo.world [entry_a; entry_b; entry_c]
    (LastChunk (encode_utf8 "Discussed X.")) true (Ret "summary").

Definition three_listed : State :=
  (list_transcript_files world_three "folder1" "key.json" (Demo.start ∅)).2.

(** ** Notions for the further properties *)

(** The state once the events [evs] have happened. *)
Definition logs (st : State) (evs : list Event) : State :=
  {| trace := trace st ++ evs; environ := environ st;
     fs_files := fs_files st; fs_dirs := fs_dirs st |}.

(** What a download delivers over all its chunks: the bytes in order,
    or the exception of the chunk that fails. *)
Fixpoint delivered (d : Download) : Res (list Byte.byte) :=
  match d with
  | LastChunk data => Ret data
  | MoreChunks data rest =>
      match delivered rest with
      | Ret more => Ret (data ++ more)
      | Raise e => Raise e
      end
  | ChunkError e => Raise e
  end.

(** The number of [next_chunk()] calls a download takes. *)
Fixpoint chunk_calls (d : Download) : nat :=
  match d with
  | LastChunk _ => 1
  | MoreChunks _ rest => S (chunk_calls rest)
  | ChunkError _ => 1
  end.

(** The request of [_download_file_content] for a supported content
    type (an export as plain text for a Google document, the media
    otherwise), and the event of making it. *)
Definition text_request (w : World) (h : list Event)
    (file_id mime_type : string) : Download :=
  if String.eqb mime_type MIME_GOOGLE_DOC
  then export_media w h file_id MIME_TEXT
  else get_media w h file_id.

Definition text_request_event (file_id mime_type : string) : Event :=
  if String.eqb mime_type MIME_GOOGLE_DOC
  then EvDriveExport file_id MIME_TEXT
  else EvDriveGetMedia file_id.

(** The content types that [_download_file_content] handles. *)
Definition supported_mime_type (mime_type : string) : bool :=
  String.eqb mime_type MIME_GOOGLE_DOC
  || String.eqb mime_type MIME_DOCX
  || String.eqb mime_type MIME_TEXT.

(** The four fields that the fetch reads from a listing entry before it
    creates the directory. *)
Record entry_head (latest_file : DriveFile)
    (file_id file_name mime_type web_view_link : string) : Prop := {
  head_id : latest_file !! "id" = Some file_id;
  head_name : latest_file !! "name" = Some file_name;
  head_mime_type : latest_file !! "mimeType" = Some mime_type;
  head_web_view_link : latest_file !! "webViewLink" = Some web_view_link
}.

(** [path_prefix d name]: the path [d] is a prefix of the path
    [name]. *)
Definition path_prefix (d name : string) : Prop :=
  exists rest, name = d +:+ rest.

(** [made_for name st st']: [st'] is [st] with more directories, each
    new one a prefix of [name]; files, environment and trace are the
    same. *)
Definition made_for (name : string) (st st' : State) : Prop :=
  trace st' = trace st /\ fs_files st' = fs_files st
  /\ environ st' = environ st
  /\ fs_dirs st ⊆ fs_dirs st'
  /\ forall d, d ∈ fs_dirs st' -> d ∈ fs_dirs st \/ path_prefix d name.

(** The texts that the [with open(...)] block writes, in order, and the
    exception that ends it early when the entry has no modification
    time. *)
Definition artifact_writes (latest_file : DriveFile)
    (file_name web_view_link content : string) : list string * option Exn :=
  let name_line := "**元ファイル名:** " +:+ file_name +:+ NL in
  match latest_file !! "modifiedTime" with
  | Some modified_time =>
      ([ ARTIFACT_TITLE; name_line;
         "**更新日時:** " +:+ modified_time +:+ NL;
         "**元のURL:** " +:+ web_view_link +:+ NL +:+ NL;
         ARTIFACT_BODY_HEADING; content ], None)
  | None => ([ ARTIFACT_TITLE; name_line ], Some (KeyError "modifiedTime"))
  end.

(** The texts of a list up to the first one that UTF-8 cannot encode. *)
Fixpoint encodable_prefix (texts : list string) : list string :=
  match texts with
  | [] => []
  | text :: rest =>
      if wf_str text then text :: encodable_prefix rest else []
  end.

(** The state of a demo world once its target directory is made. *)
Definition made (w : World) (st1 : State) : State :=
  (makedirs w "./downloads" st1).2.

(** Test doubles for the further properties. *)

Definition two_chunks : Download :=
  MoreChunks (encode_utf8 "Discussed X. ") (LastChunk (encode_utf8 "Decided Y.")).

Definition world_two_chunks : World :=
  Demo.world [Demo.meeting MIME_GOOGLE_DOC] two_chunks true (Ret "summary").

Definition invalid_bytes : list Byte.byte := [ Byte.xff; Byte.xfe ].

Definition world_invalid_bytes : World :=
  Demo.world [Demo.meeting MIME_TEXT] (LastChunk invalid_bytes) true
    (Ret "summary").

Definition world_pdf : World :=
  Demo.world [Demo.meeting "application/pdf"] (LastChunk []) true
    (Ret "summary").

(** An entry without its modification time. *)
Definition entry_without_time : DriveFile :=
  list_to_map
    [ ("id", "f1"); ("name", "meeting_2024"); ("mimeType", MIME_TEXT);
      ("webViewLink", "https://docs.google.com/document/d/f1") ].

Definition world_without_time : World :=
  Demo.world [entry_without_time] (LastChunk (encode_utf8 "Discussed X."))
    true (Ret "summary").

(** An entry without its link. *)
Definition entry_without_link : DriveFile :=
  list_to_map
    [ ("id", "f1"); ("name", "meeting_2024"); ("mimeType", MIME_TEXT);
      ("modifiedTime", "2024-01-02T03:04:05.000Z") ].

Definition world_without_link : World :=
  Demo.world [entry_without_link] (LastChunk (encode_utf8 "Discussed X."))
    true (Ret "summary").

(** The state of a demo world once its folder is listed. *)
Definition listed (w : World) : State :=
  (list_transcript_files w "folder1" "key.json" (Demo.start ∅)).2.

Definition world_no_credentials : World :=
  {| dotenv := ∅;
     from_service_account_file := fun _ _ _ => Some (OSError "key.json");
     build := fun _ => None;
     files_list := fun _ _ _ _ => Ret (Some [Demo.meeting MIME_TEXT]);
     export_media := fun _ _ _ => LastChunk [];
     get_media := fun _ _ => LastChunk [];
     docx_paragraphs := fun _ _ => Ret [];
     mkdir_error := fun _ _ => None;
     now_strftime := fun _ => "20240102_030405";
     open_write_error := fun _ _ => None;
     open_read_error := fun _ _ => None;
     generate_content_text := fun _ _ _ => Ret "summary";
     auth_test := fun _ _ => Ret {| ok := true |};
     time_time := fun _ => 1700000000%Z;
     chat_postMessage := fun _ _ _ _ _ => Ret {| ok := true |} |}.

(** [preserves R m]: every run of [m] takes a state to a state related
    to it by [R]. *)
Definition preserves (R : State -> State -> Prop) {A} (m : M A) : Prop :=
  forall st r st', m st = (r, st') -> R st st'.

(** [extends P st st']: the trace of [st'] is the trace of [st] followed
    by events that all satisfy [P]. *)
Definition extends (P : Event -> bool) (st st' : State) : Prop :=
  exists evs, trace st' = trace st ++ evs /\ forallb P evs = true.

(** [emits P m]: [m] only makes calls that satisfy [P]. *)
Definition emits (P : Event -> bool) {A} (m : M A) : Prop :=
  preserves (extends P) m.

(** [elsewhere path st st']: apart from the file at [path], files,
    directories and environment of [st'] are those of [st]. *)
Definition elsewhere (path : string) (st st' : State) : Prop :=
  (forall q, q <> path -> fs_files st' !! q = fs_files st !! q)
  /\ fs_dirs st' = fs_dirs st
  /\ environ st' = environ st.

(** The calls of the three stages. *)
Definition is_fetch_event (e : Event) : bool :=
  match e with
  | EvCredentials _ _ | EvDriveBuild | EvDriveList _ _ _
  | EvDriveExport _ _ | EvDriveGetMedia _ | EvNextChunk | EvDocx
  | EvMakedirs _ | EvNow | EvOpenWrite _ => true
  | _ => false
  end.

Definition is_summarize_event (e : Event) : bool :=
  match e with
  | EvExists _ | EvOpenRead _ | EvGenaiConfigure _ | EvGenaiModel _
  | EvGenerate _ _ => true
  | _ => false
  end.

Definition is_publish_event (e : Event) : bool :=
  match e with
  | EvTime | EvSlackPost _ _ _ _ => true
  | _ => false
  end.

(** The outcome of the [with open(...)] block once the file is open:
    what the file holds afterwards, and how the block ends. *)
Definition written_text (latest_file : DriveFile)
    (file_name web_view_link content : string) : string :=
  flatten
    (encodable_prefix
       (artifact_writes latest_file file_name web_view_link content).1).

Definition written_result (latest_file : DriveFile)
    (file_name web_view_link content : string) : Res unit :=
  let '(texts, last) :=
    artifact_writes latest_file file_name web_view_link content in
  if forallb wf_str texts then
    match last with
    | Some e => Raise e
    | None => Ret tt
    end
  else Raise UnicodeEncodeError.

(** The path of an artifact written at the time [timestamp]. *)
Definition artifact_path_at (target_directory timestamp : string) : string :=
  path_join target_directory ("transcript_" +:+ timestamp +:+ ".md").

(** What the summarizer returns for the answer of the generation
    backend. *)
Definition summary_of (answer : Res string) : value :=
  match answer with
  | Ret text => if str_truthy text then VStr (strip text) else VNone
  | Raise _ => VNone
  end.

(** The state in which the generation backend is called. *)
Definition generation_state (st1 : State) (ai_api_key model_name : string)
  : State :=
  log (log st1 (EvGenaiConfigure ai_api_key)) (EvGenaiModel model_name).

Definition state_with_notes : State :=
  {| trace := []; environ := ∅;
     fs_files := {[ "in.md" := encode_utf8 "Discussed X." ]}; fs_dirs := ∅ |}.

Definition world_blank_answer : World :=
  Demo.world [Demo.meeting MIME_TEXT] (LastChunk (encode_utf8 "Discussed X."))
    true (Ret blank).

(** ** The stages of a run *)

(** [env_vars[key]] for a bundle whose values are strings. *)
Definition setting_of (env_vars : gmap string value) (key : string) : string :=
  match env_vars !! key with
  | Some (VStr s) => s
  | _ => EmptyString
  end.

(** The run of [main] from [st] has resolved the settings [env_vars] and
    passed the connection test, and is in [st2]. *)
Definition connected (w : World) (st : State) (env_vars : gmap string value)
    (st2 : State) : Prop :=
  exists st1,
    load_environment_variables w st = (Ret env_vars, st1)
    /\ test_slack_connection w (setting_of env_vars "slack_bot_token") st1
       = (Ret true, st2).

(** ... and has fetched the artifact [file_path] of the document at
    [google_doc_url], and is in [st3]. *)
Definition fetched (w : World) (st : State) (env_vars : gmap string value)
    (file_path google_doc_url : string) (st3 : State) : Prop :=
  exists st2,
    connected w st env_vars st2
    /\ download_latest_transcript_from_drive w
         (setting_of env_vars "google_drive_folder_id")
         (setting_of env_vars "google_credentials_path")
         (setting_of env_vars "target_directory") st2
       = (Ret (VStr file_path, VStr google_doc_url), st3)
    /\ file_path <> EmptyString /\ google_doc_url <> EmptyString.

(** ... and has the summary [summary_text] of it, and is in [st4]. *)
Definition summarized (w : World) (st : State) (env_vars : gmap string value)
    (google_doc_url summary_text : string) (st4 : State) : Prop :=
  exists file_path st3,
    fetched w st env_vars file_path google_doc_url st3
    /\ summarize_transcript_with_ai w file_path
         (setting_of env_vars "google_ai_api_key")
         (setting_of env_vars "ai_model_name") st3
       = (Ret (VStr summary_text), st4)
    /\ summary_text <> EmptyString.

Inductive Stage : Type :=
| Configuration | Connectivity | Fetch | Summary | Publication.

(** [run_of_main w st stopped st']: the stages run in order from [st]
    end in [st'], [stopped] being the first stage that failed, if any;
    no stage after it is started. *)
Inductive run_of_main (w : World) (st : State)
  : option Stage -> State -> Prop :=
| configuration_fails e st1 :
    load_environment_variables w st = (Raise e, st1) ->
    run_of_main w st (Some Configuration) st1
| connectivity_fails env_vars st1 st2 :
    load_environment_variables w st = (Ret env_vars, st1) ->
    test_slack_connection w (setting_of env_vars "slack_bot_token") st1
      = (Ret false, st2) ->
    run_of_main w st (Some Connectivity) st2
| fetch_fails env_vars st2 file_path google_doc_url st3 :
    connected w st env_vars st2 ->
    download_latest_transcript_from_drive w
      (setting_of env_vars "google_drive_folder_id")
      (setting_of env_vars "google_credentials_path")
      (setting_of env_vars "target_directory") st2
      = (Ret (file_path, google_doc_url), st3) ->
    truthy file_path && truthy google_doc_url = false ->
    run_of_main w st (Some Fetch) st3
| summary_fails env_vars file_path google_doc_url st3 summary_text st4 :
    fetched w st env_vars file_path google_doc_url st3 ->
    summarize_transcript_with_ai w file_path
      (setting_of env_vars "google_ai_api_key")
      (setting_of env_vars "ai_model_name") st3
      = (Ret summary_text, st4) ->
    truthy summary_text = false ->
    run_of_main w st (Some Summary) st4
| publication_fails env_vars google_doc_url summary_text st4 st5 :
    summarized w st env_vars google_doc_url summary_text st4 ->
    post_summary_to_slack w (setting_of env_vars "slack_bot_token")
      (setting_of env_vars "slack_channel_id") summary_text google_doc_url st4
      = (Ret false, st5) ->
    run_of_main w st (Some Publication) st5
| published env_vars google_doc_url summary_text st4 st5 :
    summarized w st env_vars google_doc_url summary_text st4 ->
    post_summary_to_slack w (setting_of env_vars "slack_bot_token")
      (setting_of env_vars "slack_channel_id") summary_text google_doc_url st4
      = (Ret true, st5) ->
    run_of_main w st None st5.

(** What [main] returns for the stage at which the run stopped. *)
Definition result_of (stopped : option Stage) : bool :=
  match stopped with
  | None => true
  | Some _ => false
  end.

(** The settings of the demo, resolved, and the states of a demo run
    after each stage. *)
Definition demo_bundle : gmap string value := config_bundle Demo.settings.

Definition after_connection (w : World) : State :=
  (test_slack_connection w "xoxb-1"
     (load_environment_variables w (Demo.start Demo.settings)).2).2.

Definition after_fetch (w : World) : State :=
  (download_latest_transcript_from_drive w "folder1" "key.json" "./downloads"
     (after_connection w)).2.

Definition after_summary (w : World) : State :=
  (summarize_transcript_with_ai w demo_path "k" "gemini-pro"
     (after_fetch w)).2.

(** An entry whose [webViewLink] is the empty string. *)
Definition world_empty_link : World :=
  Demo.world
    [ Demo.drive_file "f1" "meeting_2024" MIME_TEXT "2024-01-02T03:04:05.000Z"
        EmptyString ]
    (LastChunk (encode_utf8 "Discussed X.")) true (Ret "summary").

(** * Properties *)

(** ** Strings *)

Lemma str_app_cons (c : ascii) (s t : string) :
  String c s +:+ t = String c (s +:+ t).
Proof. reflexivity. Qed.

Lemma str_app_nil_l (s : string) : EmptyString +:+ s = s.
Proof. reflexivity. Qed.

Lemma str_app_nil_r (s : string) : s +:+ EmptyString = s.
Proof.
  induction s as [|c s IH]; [reflexivity|].
  rewrite str_app_cons. f_equal. exact IH.
Qed.

Lemma str_app_assoc (s t u : string) : (s +:+ t) +:+ u = s +:+ t +:+ u.
Proof.
  induction s as [|c s IH]; [reflexivity|].
  rewrite !str_app_cons. f_equal. exact IH.
Qed.

Lemma contains_refl (s : string) : contains s s.
Proof. exists EmptyString, EmptyString. cbn. now rewrite str_app_nil_r. Qed.

Lemma contains_app_l (s t needle : string) :
  contains s needle -> contains (s +:+ t) needle.
Proof.
  intros (pre & post & ->). exists pre, (post +:+ t).
  now rewrite !str_app_assoc.
Qed.

Lemma contains_app_r (s t needle : string) :
  contains t needle -> contains (s +:+ t) needle.
Proof.
  intros (pre & post & ->). exists (s +:+ pre), post.
  now rewrite !str_app_assoc.
Qed.

Lemma join_contains (sep : string) (parts : list string) (p : string) :
  p ∈ parts -> contains (join sep parts) p.
Proof.
  induction parts as [|q parts IH]; intros Hp.
  - apply elem_of_nil in Hp as [].
  - apply elem_of_cons in Hp as [->|Hp].
    + destruct parts as [|r parts]; [apply contains_refl|].
      cbn [join]. apply contains_app_l, contains_refl.
    + destruct parts as [|r parts]; [apply elem_of_nil in Hp as []|].
      cbn [join]. do 2 apply contains_app_r. apply IH, Hp.
Qed.

(** ** Configuration resolution *)

Lemma filter_ext_elem {A} (P Q : A -> Prop)
    `{!forall x, Decision (P x)} `{!forall x, Decision (Q x)} (l : list A) :
  (forall x, x ∈ l -> P x <-> Q x) -> filter P l = filter Q l.
Proof.
  induction l as [|x l IH]; intros HPQ; [reflexivity|].
  rewrite !filter_cons.
  rewrite IH by (intros y Hy; apply HPQ; apply elem_of_cons; now right).
  assert (HPx : P x <-> Q x) by (apply HPQ; apply elem_of_cons; now left).
  destruct (decide (P x)) as [HP|HP], (decide (Q x)) as [HQ|HQ];
    tauto.
Qed.

Lemma missing_in_filter (env_vars : gmap string value) (vars : list string)
    (st : State) :
  Forall (fun key => is_Some (env_vars !! key)) vars ->
  missing_in env_vars vars st =
  (Ret (filter (fun key => truthy (default VNone (env_vars !! key)) = false)
          vars), st).
Proof.
  induction 1 as [|key vars [v Hv] _ IH]; [reflexivity|].
  cbn [missing_in]. unfold bind, getitem. rewrite Hv. cbn. rewrite IH.
  rewrite Hv. cbn. unfold ret.
  destruct (truthy v); destruct (decide _) as [Hd|Hd]; try reflexivity;
    [discriminate Hd | now destruct Hd].
Qed.

Lemma config_bundle_required (env : gmap string string) (key : string) :
  key ∈ required_vars ->
  config_bundle env !! key = Some (required_value env key).
Proof.
  unfold required_vars. rewrite !elem_of_cons, elem_of_nil.
  intros [->|[->|[->|[->|[->|[]]]]]]; reflexivity.
Qed.

Lemma missing_settings_filter (env : gmap string string) :
  filter (fun key => truthy (default VNone (config_bundle env !! key)) = false)
         required_vars = missing_settings env.
Proof.
  unfold missing_settings. apply filter_ext_elem. intros key Hkey.
  rewrite (config_bundle_required env key Hkey). cbn.
  unfold required_value, setting_missing.
  destruct (env !! env_name key) as [[|c s]|]; cbn; split; congruence.
Qed.

(** [load_environment_variables] as one equation: the state after it,
    and the bundle or the error it produces. *)
Lemma load_environment_variables_eq (w : World) (st : State) :
  let env := environ st ∪ dotenv w in
  load_environment_variables w st =
  (match missing_settings env with
   | [] => Ret (config_bundle env)
   | missing => Raise (ValueError (missing_message missing))
   end,
   {| trace := trace st ++ [EvLoadDotenv]; environ := env;
      fs_files := fs_files st; fs_dirs := fs_dirs st |}).
Proof.
  intros env. unfold load_environment_variables.
  unfold bind at 1. cbn [load_dotenv].
  do 5 (unfold bind at 1; unfold getenv at 1; cbn [environ]).
  do 2 (unfold bind at 1; unfold getenv_default at 1; cbn [environ]).
  fold env. unfold bind.
  match goal with
  | |- context [missing_in ?m _] => change m with (config_bundle env)
  end.
  rewrite missing_in_filter.
  2:{ apply Forall_forall. intros key Hkey.
      rewrite (config_bundle_required env key Hkey). eauto. }
  rewrite missing_settings_filter.
  destruct (missing_settings env); reflexivity.
Qed.

(** C7: resolution fails exactly when a required setting is unset or
    empty, and then the [ValueError] message lists every such key (all
    of them, in the order of [required_vars], joined by a comma);
    otherwise it returns the bundle of all seven settings, the two
    optional ones falling back to [gemini-pro] and [./downloads]. *)
Theorem load_environment_variables_reports_every_missing_key
    (w : World) (st : State) :
  let env := environ st ∪ dotenv w in
  let missing := missing_settings env in
  (forall key,
      key ∈ missing <->
      key ∈ required_vars /\ setting_missing env key = true)
  /\ (load_environment_variables w st).1 =
     match missing with
     | [] => Ret (config_bundle env)
     | _ :: _ => Raise (ValueError (missing_message missing))
     end
  /\ (forall key, key ∈ missing -> contains (missing_message missing) key)
  /\ config_bundle env !! "ai_model_name" =
     Some (VStr (default "gemini-pro" (env !! "AI_MODEL_NAME")))
  /\ config_bundle env !! "target_directory" =
     Some (VStr (default "./downloads" (env !! "TARGET_DIRECTORY")))
  /\ (forall key, key ∈ required_vars ->
        config_bundle env !! key =
        Some (from_option VStr VNone (env !! env_name key))).
Proof.
  intros env missing. split; [|split; [|split; [|split; [|split]]]].
  - intros key. unfold missing, missing_settings.
    rewrite list_elem_of_filter. tauto.
  - rewrite load_environment_variables_eq. fold env. fold missing.
    destruct missing; reflexivity.
  - intros key Hkey. unfold missing_message.
    apply contains_app_r, join_contains, Hkey.
  - change (config_bundle env !! "ai_model_name")
      with (Some (optional_value env "ai_model_name" "gemini-pro")).
    unfold optional_value. change (env_name "ai_model_name") with "AI_MODEL_NAME".
    destruct (env !! "AI_MODEL_NAME"); reflexivity.
  - change (config_bundle env !! "target_directory")
      with (Some (optional_value env "target_directory" "./downloads")).
    unfold optional_value.
    change (env_name "target_directory") with "TARGET_DIRECTORY".
    destruct (env !! "TARGET_DIRECTORY"); reflexivity.
  - intros key Hkey. rewrite (config_bundle_required env key Hkey).
    unfold required_value. destruct (env !! env_name key); reflexivity.
Qed.

(** ** Reasoning about computations *)

Lemma bind_ret_eq {A B} (m : M A) (k : A -> M B) st a st' :
  m st = (Ret a, st') -> bind m k st = k a st'.
Proof. intros H. unfold bind. now rewrite H. Qed.

Lemma bind_raise_eq {A B} (m : M A) (k : A -> M B) st e st' :
  m st = (Raise e, st') -> bind m k st = (Raise e, st').
Proof. intros H. unfold bind. now rewrite H. Qed.

Lemma try_except_ret_eq {A} (m : M A) (h : Exn -> M A) st a st' :
  m st = (Ret a, st') -> try_except m h st = (Ret a, st').
Proof. intros H. unfold try_except. now rewrite H. Qed.

Lemma try_except_raise_eq {A} (m : M A) (h : Exn -> M A) st e st' :
  m st = (Raise e, st') -> try_except m h st = h e st'.
Proof. intros H. unfold try_except. now rewrite H. Qed.

Lemma returns_only_ret {A} (P : A -> Prop) (a : A) :
  P a -> returns_only P (ret a).
Proof. intros HP st b st' [= <- _]. exact HP. Qed.

Lemma returns_only_raise {A} (P : A -> Prop) (e : Exn) :
  returns_only P (raise e).
Proof. intros st b st' [=]. Qed.

Lemma returns_only_bind {A B} (P : B -> Prop) (m : M A) (k : A -> M B) :
  (forall a, returns_only P (k a)) -> returns_only P (bind m k).
Proof.
  intros Hk st b st'. unfold bind.
  destruct (m st) as [[a|e] st1]; [apply Hk | intros [=]].
Qed.

Lemma returns_only_try_except {A} (P : A -> Prop) (m : M A)
    (h : Exn -> M A) :
  returns_only P m -> (forall e, returns_only P (h e)) ->
  returns_only P (try_except m h).
Proof.
  intros Hm Hh st a st'. unfold try_except.
  destruct (m st) as [[b|e] st1] eqn:E.
  - intros [= <- _]. eapply Hm, E.
  - apply Hh.
Qed.

(** A handler that returns makes the whole [try] return. *)
Lemma try_except_returns {A} (m : M A) (fallback : A) (st : State) :
  exists a st', try_except m (fun _ => ret fallback) st = (Ret a, st').
Proof.
  unfold try_except. destruct (m st) as [[a|e] st1]; eauto.
Qed.

(** ** The fetch returns a full pair or an empty one *)

Lemma save_transcript_full_or_empty (w : World) latest_file target_directory :
  returns_only full_or_empty (save_transcript w latest_file target_directory).
Proof.
  unfold save_transcript.
  do 6 (apply returns_only_bind; intros ?).
  destruct a4 as [|content].
  - apply returns_only_ret. now left.
  - do 2 (apply returns_only_bind; intros ?).
    apply returns_only_ret. right. eauto.
Qed.

Lemma download_full_or_empty (w : World)
    (folder_id credentials_path target_directory : string) :
  returns_only full_or_empty
    (download_latest_transcript_from_drive w folder_id credentials_path
       target_directory).
Proof.
  unfold download_latest_transcript_from_drive.
  apply returns_only_try_except.
  - apply returns_only_bind. intros [|f files].
    + apply returns_only_ret. now left.
    + apply returns_only_bind. intros latest.
      apply save_transcript_full_or_empty.
  - intros e. apply returns_only_ret. now left.
Qed.

(** C10: the pair returned by [download_latest_transcript_from_drive]
    is [(None, None)] or a pair of two strings, on every path, the
    exceptions included; the call itself never raises. *)
Theorem download_returns_full_or_empty_pair
    (w : World) (folder_id credentials_path target_directory : string)
    (st : State) :
  exists pair st',
    download_latest_transcript_from_drive w folder_id credentials_path
      target_directory st = (Ret pair, st')
    /\ (pair = (VNone, VNone)
        \/ exists path url, pair = (VStr path, VStr url)).
Proof.
  destruct (try_except_returns
              (files <- list_transcript_files w folder_id credentials_path ;;
               match files with
               | [] => ret (VNone, VNone)
               | _ :: _ =>
                   latest_file <- first_item files ;;
                   save_transcript w latest_file target_directory
               end) (VNone, VNone) st) as (pair & st' & Hrun).
  exists pair, st'. split; [exact Hrun|].
  exact (download_full_or_empty w _ _ _ _ _ _ Hrun).
Qed.

(** ** Listing the folder *)

(** The listing phase touches neither the files nor the environment,
    and when it returns, it has made exactly its three calls. *)
Lemma list_transcript_files_inv (w : World)
    (folder_id credentials_path : string) (st st1 : State)
    (r : Res (list DriveFile)) :
  list_transcript_files w folder_id credentials_path st = (r, st1) ->
  fs_files st1 = fs_files st /\ fs_dirs st1 = fs_dirs st
  /\ environ st1 = environ st
  /\ (forall files, r = Ret files ->
        trace st1 = trace st ++ listing_events folder_id credentials_path).
Proof.
  unfold list_transcript_files, bind, call_check, call, ret.
  destruct (from_service_account_file w (trace st) credentials_path SCOPES).
  { intros [= <- <-]. cbn. repeat split; intros ? [=]. }
  cbn [log trace].
  destruct (build w _).
  { intros [= <- <-]. cbn. repeat split; intros ? [=]. }
  cbn [log trace].
  destruct (files_list w _ _ _ _) as [results|e].
  - intros [= <- <-]. cbn. repeat split.
    intros _ _. now rewrite <- !app_assoc.
  - intros [= <- <-]. cbn. repeat split; intros ? [=].
Qed.

(** C6: when the listing of the folder is empty, the fetch returns
    [(None, None)]; no directory and no file is created: the files and
    directories are those from before the call, and the only calls made
    are the three of the listing. *)
Theorem empty_listing_returns_none_and_writes_nothing
    (w : World) (folder_id credentials_path target_directory : string)
    (st st1 : State) :
  list_transcript_files w folder_id credentials_path st = (Ret [], st1) ->
  download_latest_transcript_from_drive w folder_id credentials_path
    target_directory st = (Ret (VNone, VNone), st1)
  /\ fs_files st1 = fs_files st
  /\ fs_dirs st1 = fs_dirs st
  /\ trace st1 = trace st ++ listing_events folder_id credentials_path
  /\ Forall (fun e => is_file_write e = false)
       (listing_events folder_id credentials_path).
Proof.
  intros Hlist.
  destruct (list_transcript_files_inv _ _ _ _ _ _ Hlist)
    as (Hfiles & Hdirs & _ & Htrace).
  split; [|split; [exact Hfiles|split; [exact Hdirs|split]]].
  - unfold download_latest_transcript_from_drive.
    erewrite try_except_ret_eq; [reflexivity|].
    erewrite bind_ret_eq by exact Hlist. reflexivity.
  - now apply (Htrace []).
  - repeat constructor.
Qed.

Lemma empty_listing_witness :
  download_latest_transcript_from_drive world_empty_folder "folder1"
    "key.json" "./downloads" (Demo.start ∅) =
  (Ret (VNone, VNone),
   log (log (log (Demo.start ∅) (EvCredentials "key.json" SCOPES))
          EvDriveBuild)
     (EvDriveList (transcript_query "folder1") LIST_ORDER LIST_FIELDS)).
Proof.
  apply (empty_listing_returns_none_and_writes_nothing world_empty_folder
           "folder1" "key.json" "./downloads" (Demo.start ∅)).
  reflexivity.
Defined.

(** ** Slack *)

(** What [post_summary_to_slack] does, on every invocation: it reads the
    clock for the footer, builds the blocks and calls [chat.postMessage]
    once; it returns [True] exactly when that call answers [ok]. *)
Lemma post_summary_to_slack_eq (w : World)
    (slack_token channel_id summary_text google_doc_url : string)
    (st : State) :
  let payload :=
    Some (message_blocks summary_text google_doc_url
            (time_time w (trace st))) in
  post_summary_to_slack w slack_token channel_id summary_text
    google_doc_url st =
  (Ret (match chat_postMessage w (trace (log st EvTime)) slack_token
                channel_id NOTIFICATION_TEXT payload with
        | Ret response => ok response
        | Raise _ => false
        end),
   log (log st EvTime)
     (EvSlackPost slack_token channel_id NOTIFICATION_TEXT payload)).
Proof.
  intros payload.
  cbv beta iota delta [post_summary_to_slack try_except bind
    _create_slack_message call ret blocks].
  fold payload.
  destruct (chat_postMessage w _ _ _ _ _) as [[[|]]|e]; reflexivity.
Qed.

Lemma test_slack_connection_eq (w : World) (slack_token : string)
    (st : State) :
  test_slack_connection w slack_token st =
  (Ret (match auth_test w (trace st) slack_token with
        | Ret response => ok response
        | Raise _ => false
        end),
   log st (EvSlackAuthTest slack_token)).
Proof.
  cbv beta iota delta [test_slack_connection try_except bind call ret].
  destruct (auth_test w (trace st) slack_token) as [[[|]]|e]; reflexivity.
Qed.

(** ** The orchestrator stops at a failed connection test *)

Lemma setting_eq (env_vars : gmap string value) (key s : string) (st : State) :
  env_vars !! key = Some (VStr s) -> setting env_vars key st = (Ret s, st).
Proof.
  intros H. cbv beta iota delta [setting bind getitem]. rewrite H.
  reflexivity.
Qed.

Lemma main_stops_on_auth_failure (w : World) (st st1 : State)
    (env_vars : gmap string value) (slack_bot_token : string) :
  load_environment_variables w st = (Ret env_vars, st1) ->
  env_vars !! "slack_bot_token" = Some (VStr slack_bot_token) ->
  (test_slack_connection w slack_bot_token st1).1 = Ret false ->
  main w st = (Ret false, log st1 (EvSlackAuthTest slack_bot_token))
  /\ trace (log st1 (EvSlackAuthTest slack_bot_token)) =
     trace st ++ [EvLoadDotenv; EvSlackAuthTest slack_bot_token]
  /\ fs_files st1 = fs_files st /\ fs_dirs st1 = fs_dirs st.
Proof.
  intros Hload Htoken Hauth.
  pose proof (load_environment_variables_eq w st) as Heq. cbv zeta in Heq.
  rewrite Hload in Heq.
  assert (Hst1 : st1 = {| trace := trace st ++ [EvLoadDotenv];
                          environ := environ st ∪ dotenv w;
                          fs_files := fs_files st; fs_dirs := fs_dirs st |})
    by (now inversion Heq).
  split; [|split].
  - unfold main.
    erewrite try_except_ret_eq; [reflexivity|].
    erewrite bind_ret_eq by exact Hload.
    erewrite bind_ret_eq by (apply setting_eq, Htoken).
    rewrite test_slack_connection_eq in Hauth. cbn [fst] in Hauth.
    erewrite bind_ret_eq by apply test_slack_connection_eq.
    injection Hauth as ->. reflexivity.
  - rewrite Hst1. cbn. now rewrite <- app_assoc.
  - rewrite Hst1. split; reflexivity.
Qed.

(** C3: in a run of [main] whose Slack connection test answers
    failure, the result is [False] and the calls of the run are the
    loading of the settings and the [auth.test] call, nothing else: no
    call to Drive and no call to the generation backend. *)
Theorem auth_failure_stops_before_fetch_and_generation
    (w : World) (st st1 : State) (env_vars : gmap string value)
    (slack_bot_token : string) :
  load_environment_variables w st = (Ret env_vars, st1) ->
  env_vars !! "slack_bot_token" = Some (VStr slack_bot_token) ->
  (test_slack_connection w slack_bot_token st1).1 = Ret false ->
  exists st2 run_events,
    main w st = (Ret false, st2)
    /\ trace st2 = trace st ++ run_events
    /\ run_events = [EvLoadDotenv; EvSlackAuthTest slack_bot_token]
    /\ Forall (fun e => is_drive_call e = false /\ is_genai_call e = false)
         run_events.
Proof.
  intros Hload Htoken Hauth.
  destruct (main_stops_on_auth_failure w st st1 env_vars slack_bot_token
              Hload Htoken Hauth) as (Hmain & Htrace & _).
  eexists _, _. split; [exact Hmain|]. split; [exact Htrace|].
  split; [reflexivity|]. repeat constructor.
Qed.

Lemma auth_failure_witness :
  exists st2 run_events,
    main world_auth_rejected (Demo.start Demo.settings) = (Ret false, st2)
    /\ trace st2 = trace (Demo.start Demo.settings) ++ run_events
    /\ run_events = [EvLoadDotenv; EvSlackAuthTest "xoxb-1"]
    /\ Forall (fun e => is_drive_call e = false /\ is_genai_call e = false)
         run_events.
Proof.
  apply (auth_failure_stops_before_fetch_and_generation world_auth_rejected
           (Demo.start Demo.settings)
           (log (Demo.start Demo.settings) EvLoadDotenv)
           (config_bundle Demo.settings) "xoxb-1").
  - vm_compute. reflexivity.
  - vm_compute. reflexivity.
  - vm_compute. reflexivity.
Defined.

(** C2, as the code has it: [post_summary_to_slack] makes no
    authentication check.  On every invocation it builds the message
    and posts it once, and its answer is the [ok] of that one call.
    The check is [test_slack_connection], one [auth.test] call; [main]
    runs it before everything else that touches a backend, and when it
    answers failure, [main] returns [False] with no message built (no
    clock read) and none posted. *)
Theorem post_summary_posts_without_auth_check
    (w : World)
    (slack_token channel_id summary_text google_doc_url : string)
    (st : State) :
  (exists payload posted,
      payload = Some (message_blocks summary_text google_doc_url
                        (time_time w (trace st)))
      /\ posted = EvSlackPost slack_token channel_id NOTIFICATION_TEXT payload
      /\ post_summary_to_slack w slack_token channel_id summary_text
           google_doc_url st =
         (Ret (match chat_postMessage w (trace (log st EvTime)) slack_token
                       channel_id NOTIFICATION_TEXT payload with
               | Ret response => ok response
               | Raise _ => false
               end),
          log (log st EvTime) posted)
      /\ Forall (fun e => is_slack_auth_test e = false) [EvTime; posted])
  /\ test_slack_connection w slack_token st =
     (Ret (match auth_test w (trace st) slack_token with
           | Ret response => ok response
           | Raise _ => false
           end),
      log st (EvSlackAuthTest slack_token))
  /\ (forall env_vars st1,
        load_environment_variables w st = (Ret env_vars, st1) ->
        env_vars !! "slack_bot_token" = Some (VStr slack_token) ->
        (test_slack_connection w slack_token st1).1 = Ret false ->
        main w st = (Ret false, log st1 (EvSlackAuthTest slack_token))
        /\ trace (log st1 (EvSlackAuthTest slack_token)) =
           trace st ++ [EvLoadDotenv; EvSlackAuthTest slack_token]).
Proof.
  split; [|split].
  - eexists _, _. split; [reflexivity|]. split; [reflexivity|].
    split; [apply post_summary_to_slack_eq|]. repeat constructor.
  - apply test_slack_connection_eq.
  - intros env_vars st1 Hload Htoken Hauth.
    destruct (main_stops_on_auth_failure w st st1 env_vars slack_token
                Hload Htoken Hauth) as (Hmain & Htrace & _).
    split; assumption.
Qed.

(** Against C2 as stated: on a backend that rejects [auth.test] and
    accepts the post, [post_summary_to_slack] never asks, builds the
    message, posts it and returns [True]. *)
Lemma post_summary_ignores_rejected_auth :
  auth_test world_auth_rejected [] "xoxb-1"
    = Raise (SlackApiError "invalid_auth")
  /\ (post_summary_to_slack world_auth_rejected "xoxb-1" "C01" "summary"
        "https://docs.google.com/document/d/f1" (Demo.start ∅)).1 = Ret true
  /\ trace (post_summary_to_slack world_auth_rejected "xoxb-1" "C01" "summary"
              "https://docs.google.com/document/d/f1" (Demo.start ∅)).2 =
     [ EvTime;
       EvSlackPost "xoxb-1" "C01" NOTIFICATION_TEXT
         (Some (message_blocks "summary"
                  "https://docs.google.com/document/d/f1" 1700000000)) ].
Proof. repeat split. Qed.

(** ** Extraction of the text *)

Lemma split_on_app_sep (sep : ascii) (p rest : string) :
  has_char sep p = false ->
  split_on sep (p +:+ String sep rest) = p :: split_on sep rest.
Proof.
  induction p as [|c p IH]; intros Hp.
  - rewrite str_app_nil_l. cbn [split_on]. now rewrite Ascii.eqb_refl.
  - cbn in Hp. apply orb_false_elim in Hp as [Hc Hp].
    rewrite str_app_cons. cbn [split_on]. rewrite Hc, IH by exact Hp.
    reflexivity.
Qed.

Lemma split_on_no_sep (sep : ascii) (p : string) :
  has_char sep p = false -> split_on sep p = [p].
Proof.
  induction p as [|c p IH]; intros Hp; [reflexivity|].
  cbn in Hp. apply orb_false_elim in Hp as [Hc Hp].
  cbn [split_on]. now rewrite Hc, IH.
Qed.

(** Joining with line feeds loses nothing: order, number and content of
    the paragraphs, the empty ones included, come back by splitting. *)
Lemma split_join (paragraphs : list string) :
  paragraphs <> [] ->
  Forall (fun p => has_char LF p = false) paragraphs ->
  split_on LF (join NL paragraphs) = paragraphs.
Proof.
  induction paragraphs as [|p ps IH]; intros Hne Hall; [congruence|].
  apply Forall_cons in Hall as [Hp Hps].
  destruct ps as [|q ps].
  - cbn [join]. now apply split_on_no_sep.
  - cbn [join]. unfold NL at 1. rewrite str_app_cons, str_app_nil_l.
    rewrite split_on_app_sep by exact Hp.
    f_equal. now apply IH.
Qed.

Lemma docx_content_eq (w : World) (file_id : string) (st st1 : State)
    (file_io : list Byte.byte) :
  next_chunks (get_media w (trace st) file_id) []
    (log st (EvDriveGetMedia file_id)) = (Ret file_io, st1) ->
  _download_file_content w file_id MIME_DOCX st =
  (match docx_paragraphs w (trace st1) file_io with
   | Ret paragraphs => Ret (VStr (join NL paragraphs))
   | Raise _ => Ret VNone
   end, log st1 EvDocx).
Proof.
  intros Hchunks.
  cbv beta iota delta [_download_file_content try_except bind media_request
    extract_text call ret].
  change (String.eqb MIME_DOCX MIME_GOOGLE_DOC) with false.
  change (String.eqb MIME_DOCX MIME_DOCX) with true.
  cbv beta iota. rewrite Hchunks.
  destruct (docx_paragraphs w (trace st1) file_io); reflexivity.
Qed.

(** C9: for a word-processor document whose download completes and
    whose paragraphs python-docx reads, the extracted text is the
    paragraph texts joined by one line feed each, in document order,
    empty paragraphs kept; for [Hello], the empty paragraph and [World]
    it is Hello, two line feeds, World. *)
Theorem docx_extraction_joins_paragraphs_with_newlines
    (w : World) (file_id : string) (st st1 : State)
    (file_io : list Byte.byte) (paragraphs : list string) :
  next_chunks (get_media w (trace st) file_id) []
    (log st (EvDriveGetMedia file_id)) = (Ret file_io, st1) ->
  docx_paragraphs w (trace st1) file_io = Ret paragraphs ->
  _download_file_content w file_id MIME_DOCX st =
    (Ret (VStr (join NL paragraphs)), log st1 EvDocx)
  /\ (paragraphs <> [] ->
      Forall (fun p => has_char LF p = false) paragraphs ->
      split_on LF (join NL paragraphs) = paragraphs)
  /\ join NL [ "Hello"; EmptyString; "World" ] =
     "Hello" +:+ NL +:+ NL +:+ "World".
Proof.
  intros Hchunks Hdocx. split; [|split].
  - rewrite (docx_content_eq w file_id st st1 file_io Hchunks), Hdocx.
    reflexivity.
  - apply split_join.
  - reflexivity.
Qed.

Lemma docx_extraction_witness :
  _download_file_content world_docx "f1" MIME_DOCX (Demo.start ∅) =
    (Ret (VStr ("Hello" +:+ NL +:+ NL +:+ "World")),
     log (log (log (log (Demo.start ∅) (EvDriveGetMedia "f1")) EvNextChunk)
            EvNextChunk) EvDocx).
Proof.
  apply (docx_extraction_joins_paragraphs_with_newlines world_docx "f1"
           (Demo.start ∅)
           (log (log (log (Demo.start ∅) (EvDriveGetMedia "f1")) EvNextChunk)
              EvNextChunk)
           [] [ "Hello"; EmptyString; "World" ]).
  - reflexivity.
  - reflexivity.
Defined.

(** ** The artifact *)

Lemma strip_prefix_app (prefix s : string) :
  strip_prefix prefix (prefix +:+ s) = Some s.
Proof.
  induction prefix as [|c p IH]; [reflexivity|].
  rewrite str_app_cons. cbn [strip_prefix]. now rewrite Ascii.eqb_refl.
Qed.

Lemma encode_utf8_app (s t : string) :
  encode_utf8 (s +:+ t) = encode_utf8 s ++ encode_utf8 t.
Proof.
  unfold encode_utf8, list_byte_of_string.
  induction s as [|c s IH]; [reflexivity|].
  rewrite str_app_cons. cbn [list_ascii_of_string List.map app].
  f_equal. exact IH.
Qed.

Lemma set_file_set_file (st : State) (path : string)
    (d d' : list Byte.byte) :
  set_file (set_file st path d) path d' = set_file st path d'.
Proof. unfold set_file. cbn. now rewrite insert_insert_eq. Qed.

Lemma f_write_set_file (path text : string) (st : State)
    (d : list Byte.byte) :
  f_write path text (set_file st path d) =
  if wf_str text
  then (Ret tt, set_file st path (d ++ encode_utf8 text))
  else (Raise UnicodeEncodeError, set_file st path d).
Proof.
  unfold f_write. destruct (wf_str text); [|reflexivity].
  cbn [set_file fs_files].
  rewrite lookup_insert_eq. cbn [default].
  now rewrite set_file_set_file.
Qed.

Lemma f_write_encodable (path text : string) (st : State)
    (d : list Byte.byte) :
  wf_str text = true ->
  f_write path text (set_file st path d) =
  (Ret tt, set_file st path (d ++ encode_utf8 text)).
Proof. intros H. now rewrite f_write_set_file, H. Qed.

(** *** Well-formed strings and carriage returns under concatenation *)

Lemma utf8_chars_cons (c : ascii) (t : string) :
  exists r cs, utf8_chars (String c t) = String c r :: cs.
Proof.
  cbn [utf8_chars].
  destruct (utf8_chars t) as [|[|c' r'] cs']; [eauto..|].
  destruct (is_continuation c'); eauto.
Qed.

Lemma utf8_chars_app (a b : string) :
  match b with
  | EmptyString => True
  | String c _ => is_continuation c = false
  end ->
  utf8_chars (a +:+ b) = utf8_chars a ++ utf8_chars b.
Proof.
  intros Hb. induction a as [|x a IH]; [reflexivity|].
  rewrite str_app_cons. cbn [utf8_chars]. rewrite IH.
  destruct a as [|y a].
  - cbn [utf8_chars app]. destruct b as [|c t]; [reflexivity|].
    destruct (utf8_chars_cons c t) as (r & cs & ->). now rewrite Hb.
  - destruct (utf8_chars_cons y a) as (r & cs & ->). cbn [app].
    destruct (is_continuation y); reflexivity.
Qed.

Ltac bool_to_prop :=
  unfold in_range in *;
  repeat match goal with
         | H : _ && _ = true |- _ => apply andb_true_iff in H as [? ?]
         | H : _ || _ = true |- _ => apply orb_true_iff in H as [?|?]
         | H : (_ <=? _)%N = true |- _ => apply N.leb_le in H
         | H : (_ =? _)%N = true |- _ => apply N.eqb_eq in H
         end.

Lemma wf_scalar_lead (c : ascii) (r : string) :
  wf_scalar (String c r) = true -> is_continuation c = false.
Proof.
  unfold wf_scalar, code_units, is_continuation.
  cbn [list_ascii_of_string List.map].
  set (n := N_of_ascii c).
  intros H.
  assert (Hn : (n < 128 \/ 191 < n)%N).
  { destruct (List.map N_of_ascii (list_ascii_of_string r))
      as [|b2 [|b3 [|b4 [|b5 l]]]]; try discriminate H;
      bool_to_prop; lia. }
  apply andb_false_iff. rewrite !N.leb_gt. lia.
Qed.

Lemma wf_str_app (a b : string) :
  wf_str a = true -> wf_str b = true -> wf_str (a +:+ b) = true.
Proof.
  intros Ha Hb. unfold wf_str in *.
  rewrite utf8_chars_app.
  - rewrite forallb_app. now rewrite Ha, Hb.
  - destruct b as [|c t]; [exact I|].
    destruct (utf8_chars_cons c t) as (r & cs & Hcs).
    rewrite Hcs in Hb. cbn [forallb] in Hb.
    apply andb_true_iff in Hb as [Hc _].
    eapply wf_scalar_lead, Hc.
Qed.

Lemma has_cr_app (a b : string) :
  has_cr (a +:+ b) = has_cr a || has_cr b.
Proof.
  induction a as [|c a IH]; [reflexivity|].
  rewrite str_app_cons. cbn [has_cr]. now rewrite IH, orb_assoc.
Qed.

Lemma universal_newlines_no_cr (s : string) :
  has_cr s = false -> universal_newlines s = s.
Proof.
  induction s as [|c s IH]; [reflexivity|].
  cbn [has_cr universal_newlines]. intros H.
  apply orb_false_elim in H as [Hc Hs]. now rewrite Hc, IH.
Qed.

Lemma decode_encode_utf8 (s : string) :
  wf_str s = true -> decode_utf8 (encode_utf8 s) = Some s.
Proof.
  intros H. unfold decode_utf8, encode_utf8.
  rewrite string_of_list_byte_of_string. now rewrite H.
Qed.

Lemma wf_artifact_text (file_name modified_time web_view_link content : string) :
  wf_str file_name = true -> wf_str modified_time = true ->
  wf_str web_view_link = true -> wf_str content = true ->
  wf_str (artifact_text file_name modified_time web_view_link content) = true.
Proof.
  intros Hn Hm Hu Hc. unfold artifact_text, artifact_header.
  repeat (apply wf_str_app); try assumption; reflexivity.
Qed.

Lemma has_cr_artifact_text
    (file_name modified_time web_view_link content : string) :
  has_cr file_name = false -> has_cr modified_time = false ->
  has_cr web_view_link = false -> has_cr content = false ->
  has_cr (artifact_text file_name modified_time web_view_link content) = false.
Proof.
  intros Hn Hm Hu Hc. unfold artifact_text, artifact_header.
  rewrite !has_cr_app, Hn, Hm, Hu, Hc. reflexivity.
Qed.

Lemma artifact_header_contains
    (file_name modified_time web_view_link : string) :
  contains (artifact_header file_name modified_time web_view_link)
    ("**元ファイル名:** " +:+ file_name +:+ NL)
  /\ contains (artifact_header file_name modified_time web_view_link)
       ("**更新日時:** " +:+ modified_time +:+ NL)
  /\ contains (artifact_header file_name modified_time web_view_link)
       ("**元のURL:** " +:+ web_view_link +:+ NL).
Proof.
  unfold artifact_header. split; [|split].
  - apply contains_app_r, contains_app_l, contains_refl.
  - do 2 apply contains_app_r. apply contains_app_l, contains_refl.
  - do 3 apply contains_app_r. apply contains_app_l.
    exists EmptyString, NL. rewrite str_app_nil_l.
    now rewrite !str_app_assoc.
Qed.

(** The [with open(...)] block when everything can be written. *)
Lemma write_artifact_eq (w : World) (md_filepath : string)
    (latest_file : DriveFile)
    (file_name modified_time web_view_link content : string) (st : State) :
  open_write_error w (trace st) md_filepath = None ->
  latest_file !! "modifiedTime" = Some modified_time ->
  wf_str file_name = true -> wf_str modified_time = true ->
  wf_str web_view_link = true -> wf_str content = true ->
  write_artifact w md_filepath latest_file file_name web_view_link content st
  = (Ret tt,
     set_file (log st (EvOpenWrite md_filepath)) md_filepath
       (encode_utf8
          (artifact_text file_name modified_time web_view_link content))).
Proof.
  intros Hopen Hmtime Hn Hm Hu Hc. unfold write_artifact.
  erewrite bind_ret_eq.
  2:{ cbv beta iota delta [open_write bind call_check call].
      rewrite Hopen. reflexivity. }
  erewrite bind_ret_eq by (now apply f_write_encodable).
  erewrite bind_ret_eq
    by (apply f_write_encodable; repeat apply wf_str_app;
        try assumption; reflexivity).
  erewrite bind_ret_eq by (unfold getitem; rewrite Hmtime; reflexivity).
  do 2 (erewrite bind_ret_eq
          by (apply f_write_encodable; repeat apply wf_str_app;
              try assumption; reflexivity)).
  erewrite bind_ret_eq by (now apply f_write_encodable).
  rewrite (f_write_encodable _ _ _ _ Hc). do 2 f_equal.
  unfold artifact_text, artifact_header.
  rewrite !encode_utf8_app. cbn [app]. now rewrite <- !app_assoc.
Qed.

(** *** The download leaves the file system alone *)

Lemma same_files_refl (st : State) : same_files st st.
Proof. repeat split. Qed.

Lemma same_files_trans (st1 st2 st3 : State) :
  same_files st1 st2 -> same_files st2 st3 -> same_files st1 st3.
Proof. unfold same_files. intros (-> & -> & ->) (-> & -> & ->). auto. Qed.

Lemma same_files_log (st : State) (e : Event) : same_files st (log st e).
Proof. repeat split. Qed.

Lemma keeps_files_ret {A} (a : A) : keeps_files (ret a).
Proof. intros st r st' [= _ <-]. apply same_files_refl. Qed.

Lemma keeps_files_raise {A} (e : Exn) : keeps_files (@raise A e).
Proof. intros st r st' [= _ <-]. apply same_files_refl. Qed.

Lemma keeps_files_emit (e : Event) : keeps_files (emit e).
Proof. intros st r st' [= _ <-]. apply same_files_log. Qed.

Lemma keeps_files_call {A} (e : Event) (answer : list Event -> Res A) :
  keeps_files (call e answer).
Proof. intros st r st' [= _ <-]. apply same_files_log. Qed.

Lemma keeps_files_bind {A B} (m : M A) (k : A -> M B) :
  keeps_files m -> (forall a, keeps_files (k a)) -> keeps_files (bind m k).
Proof.
  intros Hm Hk st r st'. unfold bind.
  destruct (m st) as [[a|e] st1] eqn:E.
  - intros H. eapply same_files_trans; [eapply Hm, E|eapply Hk, H].
  - intros [= _ <-]. eapply Hm, E.
Qed.

Lemma keeps_files_try_except {A} (m : M A) (h : Exn -> M A) :
  keeps_files m -> (forall e, keeps_files (h e)) ->
  keeps_files (try_except m h).
Proof.
  intros Hm Hh st r st'. unfold try_except.
  destruct (m st) as [[a|e] st1] eqn:E.
  - intros [= _ <-]. eapply Hm, E.
  - intros H. eapply same_files_trans; [eapply Hm, E|eapply Hh, H].
Qed.

Create HintDb effects discriminated.
#[local] Hint Resolve keeps_files_ret keeps_files_raise keeps_files_emit
  keeps_files_call : effects.

Lemma keeps_files_next_chunks (d : Download) (file_io : list Byte.byte) :
  keeps_files (next_chunks d file_io).
Proof.
  revert file_io.
  induction d as [data|data rest IH|e]; intros file_io; cbn [next_chunks];
    apply keeps_files_bind; intros; auto with effects.
Qed.

#[local] Hint Resolve keeps_files_next_chunks : effects.

Lemma keeps_files_download_file_content (w : World)
    (file_id mime_type : string) :
  keeps_files (_download_file_content w file_id mime_type).
Proof.
  unfold _download_file_content.
  apply keeps_files_try_except; [|auto with effects].
  apply keeps_files_bind.
  - unfold media_request.
    repeat match goal with
           | |- keeps_files (if ?b then _ else _) => destruct b
           end;
      auto with effects.
  - intros [request|]; [|auto with effects].
    apply keeps_files_bind; [auto with effects|].
    intros file_io. apply keeps_files_bind; [|auto with effects].
    unfold extract_text. destruct (String.eqb mime_type MIME_DOCX).
    + apply keeps_files_bind; auto with effects.
    + destruct (decode_utf8 file_io); auto with effects.
Qed.

Lemma download_file_content_same_files (w : World)
    (file_id mime_type : string) (st st' : State) (r : Res value) :
  _download_file_content w file_id mime_type st = (r, st') ->
  same_files st st'.
Proof. apply keeps_files_download_file_content. Qed.

(** *** Making the target directory *)

Lemma str_length_app (a b : string) :
  String.length (a +:+ b) = (String.length a + String.length b)%nat.
Proof.
  induction a as [|c a IH]; [reflexivity|].
  rewrite str_app_cons. cbn [String.length]. now rewrite IH.
Qed.

Lemma rsplit_slash_app (p head tail : string) :
  rsplit_slash p = Some (head, tail) -> p = head +:+ tail.
Proof.
  revert head tail. induction p as [|c p IH]; intros head tail; [intros [=]|].
  cbn [rsplit_slash].
  destruct (rsplit_slash p) as [[h t]|].
  - intros [= <- <-]. rewrite str_app_cons. f_equal. now apply IH.
  - destruct (Ascii.eqb c "/") eqn:Hc; [|intros [=]].
    intros [= <- <-]. apply Ascii.eqb_eq in Hc as ->. reflexivity.
Qed.

Lemma rstrip_slashes_prefix (s : string) :
  exists rest, s = rstrip_slashes s +:+ rest.
Proof.
  induction s as [|c s (rest & IH)]; [now exists EmptyString|].
  cbn [rstrip_slashes].
  destruct (rstrip_slashes s) as [|c' r].
  - destruct (Ascii.eqb c "/").
    + now exists (String c s).
    + exists s. reflexivity.
  - exists rest. rewrite str_app_cons. now rewrite <- IH.
Qed.

Lemma path_split_parts (p head tail : string) :
  path_split p = (head, tail) -> exists mid, p = head +:+ mid +:+ tail.
Proof.
  unfold path_split.
  destruct (rsplit_slash p) as [[h t]|] eqn:Hsplit.
  - apply rsplit_slash_app in Hsplit as ->.
    destruct (rstrip_slashes_prefix h) as (rest & Hrest).
    destruct (rstrip_slashes h) as [|c r].
    + intros [= <- <-]. exists EmptyString. reflexivity.
    + intros [= <- <-]. exists rest. rewrite Hrest at 1.
      now rewrite str_app_assoc.
  - intros [= <- <-]. exists EmptyString. reflexivity.
Qed.

(** The path that [os.makedirs] recurses on is a prefix of its
    argument, and shorter than it by at least the last component. *)
Lemma makedirs_split_prefix (name head tail : string) :
  makedirs_split name = (head, tail) ->
  exists rest,
    name = head +:+ rest /\ (String.length tail <= String.length rest)%nat.
Proof.
  unfold makedirs_split.
  destruct (path_split name) as [h t] eqn:Hsplit.
  destruct (path_split_parts _ _ _ Hsplit) as (mid & Hname).
  destruct t as [|c t]; cbn [str_truthy truthy].
  - intros Hagain.
    destruct (path_split_parts _ _ _ Hagain) as (mid' & Hh).
    exists (mid' +:+ tail +:+ mid). split.
    + rewrite Hname, Hh, str_app_nil_r. now rewrite !str_app_assoc.
    + rewrite !str_length_app. lia.
  - intros [= <- <-]. exists (mid +:+ String c t). split; [exact Hname|].
    rewrite str_length_app. lia.
Qed.

Lemma path_prefix_refl (name : string) : path_prefix name name.
Proof. exists EmptyString. now rewrite str_app_nil_r. Qed.

Lemma path_prefix_trans (a b c : string) :
  path_prefix a b -> path_prefix b c -> path_prefix a c.
Proof.
  intros (r1 & ->) (r2 & ->). exists (r1 +:+ r2). now rewrite str_app_assoc.
Qed.

Lemma made_for_refl (name : string) (st : State) : made_for name st st.
Proof. repeat split; auto. Qed.

Lemma made_for_trans (name : string) (a b c : State) :
  made_for name a b -> made_for name b c -> made_for name a c.
Proof.
  intros (Ht & Hf & He & Hsub & Hnew) (Ht' & Hf' & He' & Hsub' & Hnew').
  repeat split; try congruence.
  - set_solver.
  - intros d Hd. destruct (Hnew' d Hd) as [Hb|Hp]; auto.
Qed.

Lemma made_for_prefix (head name : string) (st st' : State) :
  path_prefix head name -> made_for head st st' -> made_for name st st'.
Proof.
  intros Hprefix (Ht & Hf & He & Hsub & Hnew).
  repeat split; try assumption.
  intros d Hd. destruct (Hnew d Hd) as [Hb|Hp]; [now left|right].
  eapply path_prefix_trans; eassumption.
Qed.

Lemma mkdir_made_for (w : World) (h : list Event) (p : string)
    (st st' : State) (r : Res unit) :
  mkdir w h p st = (r, st') -> made_for p st st'.
Proof.
  unfold mkdir. destruct (exists_in st p).
  { intros [= _ <-]. apply made_for_refl. }
  destruct (mkdir_error w h p).
  { intros [= _ <-]. apply made_for_refl. }
  intros [= _ <-]. repeat split; cbn; [set_solver|].
  intros d Hd. apply elem_of_union in Hd as [Hd|Hd]; [now left|right].
  apply elem_of_singleton in Hd as ->. apply path_prefix_refl.
Qed.

Lemma mkdir_exist_ok_made_for (w : World) (h : list Event) (name : string)
    (st st' : State) (r : Res unit) :
  mkdir_exist_ok w h name st = (r, st') -> made_for name st st'.
Proof.
  unfold mkdir_exist_ok.
  destruct (mkdir w h name st) as [[[]|e] st1] eqn:Hmk.
  - intros [= _ <-]. eapply mkdir_made_for, Hmk.
  - destruct (is_os_error e && bool_decide (name ∈ fs_dirs st1));
      intros [= _ <-]; eapply mkdir_made_for, Hmk.
Qed.

Lemma makedirs_from_made_for (w : World) (h : list Event) (fuel : nat)
    (name : string) (st st' : State) (r : Res unit) :
  makedirs_from w fuel h name st = (r, st') -> made_for name st st'.
Proof.
  revert name st st' r.
  induction fuel as [|fuel IH]; intros name st st' r; cbn [makedirs_from].
  { apply mkdir_exist_ok_made_for. }
  destruct (makedirs_split name) as [head tail] eqn:Hsplit.
  destruct (makedirs_split_prefix _ _ _ Hsplit) as (rest & Hname & _).
  assert (Hprefix : path_prefix head name) by (now exists rest).
  destruct (str_truthy head && str_truthy tail && negb (exists_in st head));
    [|apply mkdir_exist_ok_made_for].
  destruct (makedirs_from w fuel h head st) as [rh st1] eqn:Hhead.
  apply IH in Hhead. apply (made_for_prefix _ _ _ _ Hprefix) in Hhead.
  assert (Hafter : forall r st',
             (if String.eqb tail "." then (Ret tt, st1)
              else mkdir_exist_ok w h name st1) = (r, st') ->
             made_for name st st').
  { intros r0 st0. destruct (String.eqb tail ".").
    - now intros [= _ <-].
    - intros Hlast. eapply made_for_trans; [exact Hhead|].
      eapply mkdir_exist_ok_made_for, Hlast. }
  destruct rh as [[]|e]; [apply Hafter|].
  destruct e; try (now intros [= _ <-]). apply Hafter.
Qed.

(** [os.makedirs] changes no file and makes no directory other than
    its argument and prefixes of it; it is one call of the fetch. *)
Lemma makedirs_made_for (w : World) (dir : string) (st st' : State)
    (r : Res unit) :
  makedirs w dir st = (r, st') ->
  made_for dir (log st (EvMakedirs dir)) st'.
Proof. unfold makedirs. apply makedirs_from_made_for. Qed.

Lemma makedirs_trace (w : World) (dir : string) (st st' : State)
    (r : Res unit) :
  makedirs w dir st = (r, st') -> trace st' = trace st ++ [EvMakedirs dir].
Proof. intros H. now apply makedirs_made_for in H as (-> & _). Qed.

Lemma makedirs_files (w : World) (dir : string) (st st' : State)
    (r : Res unit) :
  makedirs w dir st = (r, st') ->
  fs_files st' = fs_files st /\ environ st' = environ st
  /\ fs_dirs st ⊆ fs_dirs st'.
Proof.
  intros H. apply makedirs_made_for in H as (_ & Hf & He & Hsub & _).
  auto.
Qed.

(** More fuel than the length of the path changes nothing. *)
Lemma makedirs_from_fuel (w : World) (h : list Event) (fuel : nat)
    (name : string) (st : State) :
  (String.length name <= fuel)%nat ->
  makedirs_from w (S fuel) h name st = makedirs_from w fuel h name st.
Proof.
  revert name st. induction fuel as [|fuel IH]; intros name st Hlen.
  - destruct name as [|c name]; [reflexivity|cbn in Hlen; lia].
  - cbn [makedirs_from].
    destruct (makedirs_split name) as [head tail] eqn:Hsplit.
    destruct (makedirs_split_prefix _ _ _ Hsplit) as (rest & Hname & Htail).
    destruct (str_truthy head && str_truthy tail && negb (exists_in st head))
      eqn:Hrec; [|reflexivity].
    assert (Hhead : (String.length head <= fuel)%nat).
    { apply andb_true_iff in Hrec as [Hrec _].
      apply andb_true_iff in Hrec as [_ Htruthy].
      destruct tail as [|c tail]; [discriminate Htruthy|].
      rewrite Hname, str_length_app in Hlen. cbn in Htail. lia. }
    pose proof (IH head st Hhead) as Heq.
    cbn [makedirs_from] in Heq. rewrite Heq. reflexivity.
Qed.

(** *** The fetch, once an entry is selected *)

Lemma save_transcript_until_content (w : World) (latest_file : DriveFile)
    (target_directory : string) (st stm : State)
    (file_id file_name mime_type web_view_link : string) :
  latest_file !! "id" = Some file_id ->
  latest_file !! "name" = Some file_name ->
  latest_file !! "mimeType" = Some mime_type ->
  latest_file !! "webViewLink" = Some web_view_link ->
  makedirs w target_directory st = (Ret tt, stm) ->
  save_transcript w latest_file target_directory st =
  (content <- _download_file_content w file_id mime_type ;;
   match content with
   | VNone => ret (VNone, VNone)
   | VStr content =>
       timestamp <- call EvNow (fun h => Ret (now_strftime w h)) ;;
       let md_filename := "transcript_" +:+ timestamp +:+ ".md" in
       let md_filepath := path_join target_directory md_filename in
       write_artifact w md_filepath latest_file file_name web_view_link
         content ;;
       ret (VStr md_filepath, VStr web_view_link)
   end) stm.
Proof.
  intros Hid Hname Hmime Hurl Hmk. unfold save_transcript.
  do 4 (erewrite bind_ret_eq
          by (unfold getitem;
              first [rewrite Hid|rewrite Hname|rewrite Hmime|rewrite Hurl];
              reflexivity)).
  erewrite bind_ret_eq by exact Hmk. reflexivity.
Qed.

Lemma save_transcript_success (w : World) (latest_file : DriveFile)
    (target_directory : string) (st stm st2 : State)
    (file_id file_name mime_type modified_time web_view_link content : string) :
  entry_fields latest_file file_id file_name mime_type modified_time
    web_view_link ->
  makedirs w target_directory st = (Ret tt, stm) ->
  _download_file_content w file_id mime_type stm = (Ret (VStr content), st2) ->
  open_write_error w (trace (log st2 EvNow))
    (artifact_path w target_directory st2) = None ->
  wf_str file_name = true -> wf_str modified_time = true ->
  wf_str web_view_link = true -> wf_str content = true ->
  save_transcript w latest_file target_directory st =
  (Ret (VStr (artifact_path w target_directory st2), VStr web_view_link),
   set_file
     (log (log st2 EvNow) (EvOpenWrite (artifact_path w target_directory st2)))
     (artifact_path w target_directory st2)
     (encode_utf8
        (artifact_text file_name modified_time web_view_link content))).
Proof.
  intros [Hid Hname Hmime Htime Hurl] Hmk Hcontent Hopen Hn Hm Hu Hc.
  rewrite (save_transcript_until_content w latest_file target_directory st
             stm _ _ _ _ Hid Hname Hmime Hurl Hmk).
  erewrite bind_ret_eq by exact Hcontent. cbv beta iota.
  erewrite bind_ret_eq by reflexivity.
  cbv zeta. fold (artifact_path w target_directory st2).
  erewrite bind_ret_eq; [reflexivity|].
  now apply write_artifact_eq.
Qed.

Lemma save_transcript_no_content (w : World) (latest_file : DriveFile)
    (target_directory : string) (st stm st2 : State)
    (file_id file_name mime_type web_view_link : string) :
  latest_file !! "id" = Some file_id ->
  latest_file !! "name" = Some file_name ->
  latest_file !! "mimeType" = Some mime_type ->
  latest_file !! "webViewLink" = Some web_view_link ->
  makedirs w target_directory st = (Ret tt, stm) ->
  _download_file_content w file_id mime_type stm = (Ret VNone, st2) ->
  save_transcript w latest_file target_directory st
    = (Ret (VNone, VNone), st2)
  /\ same_files stm st2.
Proof.
  intros Hid Hname Hmime Hurl Hmk Hcontent.
  rewrite (save_transcript_until_content w latest_file target_directory st
             stm _ _ _ _ Hid Hname Hmime Hurl Hmk).
  erewrite bind_ret_eq by exact Hcontent. split; [reflexivity|].
  eapply download_file_content_same_files, Hcontent.
Qed.

Lemma download_selects_first (w : World)
    (folder_id credentials_path target_directory : string)
    (st st1 : State) (latest_file : DriveFile) (others : list DriveFile) :
  list_transcript_files w folder_id credentials_path st
    = (Ret (latest_file :: others), st1) ->
  download_latest_transcript_from_drive w folder_id credentials_path
    target_directory st =
  try_except (save_transcript w latest_file target_directory)
    (fun _ => ret (VNone, VNone)) st1.
Proof.
  intros Hlist.
  cbv beta iota delta [download_latest_transcript_from_drive try_except bind].
  rewrite Hlist. reflexivity.
Qed.

(** ** The artifact read back *)

Lemma read_text_eq (w : World) (path : string) (st : State) (text : string) :
  fs_files st !! path = Some (encode_utf8 text) ->
  wf_str text = true ->
  open_read_error w (trace st) path = None ->
  read_text w path st =
  (Ret (universal_newlines text), log st (EvOpenRead path)).
Proof.
  intros Hfile Hwf Hopen.
  cbv beta iota delta [read_text bind call_check call].
  rewrite Hopen. cbn [log fs_files]. rewrite Hfile.
  now rewrite (decode_encode_utf8 text Hwf).
Qed.

Lemma universal_newlines_cons (c : ascii) (t : string) :
  Ascii.eqb c CR = false ->
  universal_newlines (String c t) = String c (universal_newlines t).
Proof. intros Hc. cbn [universal_newlines]. now rewrite Hc. Qed.

Lemma universal_newlines_app_no_cr (c s : string) :
  has_cr c = false ->
  universal_newlines (c +:+ s) = c +:+ universal_newlines s.
Proof.
  induction c as [|x c IH]; [reflexivity|].
  cbn [has_cr]. intros H. apply orb_false_elim in H as [Hx Hc].
  rewrite !str_app_cons. cbn [universal_newlines]. now rewrite Hx, IH.
Qed.

Lemma universal_newlines_cr_lf (t : string) :
  universal_newlines (String CR (String LF t))
  = String LF (universal_newlines t).
Proof. reflexivity. Qed.

Lemma universal_newlines_cr (c : ascii) (t : string) :
  Ascii.eqb c LF = false ->
  universal_newlines (String CR (String c t))
  = String LF (universal_newlines (String c t)).
Proof.
  intros Hc.
  change (universal_newlines (String CR (String c t)))
    with (if Ascii.eqb c LF then String LF (universal_newlines t)
          else String LF (universal_newlines (String c t))).
  now rewrite Hc.
Qed.

Lemma universal_newlines_app (a b : string) :
  match b with
  | EmptyString => True
  | String c _ => Ascii.eqb c LF = false
  end ->
  universal_newlines (a +:+ b) = universal_newlines a +:+ universal_newlines b.
Proof.
  intros Hb.
  assert (H : forall n a, (String.length a <= n)%nat ->
            universal_newlines (a +:+ b)
            = universal_newlines a +:+ universal_newlines b).
  { clear a. induction n as [|n IH]; intros a Hlen.
    - destruct a; [reflexivity|cbn in Hlen; lia].
    - destruct a as [|c a]; [reflexivity|]. cbn [String.length] in Hlen.
      destruct (Ascii.eqb c CR) eqn:Hc.
      + apply Ascii.eqb_eq in Hc as ->.
        destruct a as [|c' t'].
        * rewrite str_app_cons, str_app_nil_l.
          destruct b as [|d b']; [reflexivity|].
          now rewrite (universal_newlines_cr d b' Hb).
        * rewrite !str_app_cons. cbn [String.length] in Hlen.
          destruct (Ascii.eqb c' LF) eqn:Hc'.
          -- apply Ascii.eqb_eq in Hc' as ->.
             rewrite !universal_newlines_cr_lf, str_app_cons. f_equal.
             apply IH. lia.
          -- rewrite !(universal_newlines_cr c' _ Hc'), str_app_cons.
             f_equal. rewrite <- str_app_cons. apply IH.
             cbn [String.length]. lia.
      + rewrite str_app_cons, !(universal_newlines_cons c _ Hc), str_app_cons.
        f_equal. apply IH. lia. }
  now apply (H (String.length a)).
Qed.

Lemma has_cr_universal_newlines (s : string) :
  has_cr (universal_newlines s) = false.
Proof.
  assert (H : forall n s, (String.length s <= n)%nat ->
            has_cr (universal_newlines s) = false).
  { clear s. induction n as [|n IH]; intros s Hlen.
    - destruct s; [reflexivity|cbn in Hlen; lia].
    - destruct s as [|c s]; [reflexivity|]. cbn [String.length] in Hlen.
      destruct (Ascii.eqb c CR) eqn:Hc.
      + apply Ascii.eqb_eq in Hc as ->.
        destruct s as [|c' t']; [reflexivity|].
        cbn [String.length] in Hlen.
        destruct (Ascii.eqb c' LF) eqn:Hc'.
        * apply Ascii.eqb_eq in Hc' as ->.
          rewrite universal_newlines_cr_lf. cbn [has_cr].
          change (Ascii.eqb LF CR) with false. cbn [orb]. apply IH. lia.
        * rewrite (universal_newlines_cr c' _ Hc'). cbn [has_cr].
          change (Ascii.eqb LF CR) with false. cbn [orb]. apply IH.
          cbn [String.length]. lia.
      + rewrite (universal_newlines_cons c _ Hc). cbn [has_cr].
        rewrite Hc. cbn [orb]. apply IH. lia. }
  now apply (H (String.length s)).
Qed.

(** A text comes back as it is exactly when it holds no carriage
    return. *)
Lemma universal_newlines_fixed (s : string) :
  universal_newlines s = s <-> has_cr s = false.
Proof.
  split; [|apply universal_newlines_no_cr].
  intros H. rewrite <- H. apply has_cr_universal_newlines.
Qed.

(** The header and the body are read back separately. *)
Lemma universal_newlines_artifact_text
    (file_name modified_time web_view_link content : string) :
  universal_newlines
    (artifact_text file_name modified_time web_view_link content)
  = universal_newlines
      (artifact_header file_name modified_time web_view_link)
    +:+ universal_newlines content.
Proof.
  unfold artifact_text.
  assert (Hheader :
    artifact_header file_name modified_time web_view_link
    = (ARTIFACT_TITLE +:+
       ("**元ファイル名:** " +:+ file_name +:+ NL) +:+
       ("**更新日時:** " +:+ modified_time +:+ NL) +:+
       ("**元のURL:** " +:+ web_view_link +:+ NL +:+ NL))
      +:+ ARTIFACT_BODY_HEADING)
    by (unfold artifact_header; now rewrite !str_app_assoc).
  rewrite Hheader.
  generalize (ARTIFACT_TITLE +:+
              ("**元ファイル名:** " +:+ file_name +:+ NL) +:+
              ("**更新日時:** " +:+ modified_time +:+ NL) +:+
              ("**元のURL:** " +:+ web_view_link +:+ NL +:+ NL)).
  intros lines. rewrite str_app_assoc.
  rewrite (universal_newlines_app lines (ARTIFACT_BODY_HEADING +:+ content))
    by reflexivity.
  rewrite (universal_newlines_app lines ARTIFACT_BODY_HEADING) by reflexivity.
  rewrite (universal_newlines_app_no_cr ARTIFACT_BODY_HEADING)
    by reflexivity.
  change (universal_newlines ARTIFACT_BODY_HEADING)
    with ARTIFACT_BODY_HEADING.
  now rewrite str_app_assoc.
Qed.

(** C5, as the code has it: after a successful fetch the file holds
    the header followed by the extracted text and nothing else: the
    header has the lines of the file name, the modification time and the
    URL, each value verbatim, and the body section, the text after the
    header, is the extracted text.  Reading the file back in text mode
    gives the header and the body, each with every carriage return,
    alone or before a line feed, turned into a line feed: the body read
    back is the extracted text exactly when the extracted text holds no
    carriage return, and the header read back is the header written
    when name, time and URL hold none. *)
Theorem artifact_holds_header_and_body_and_reads_back_without_cr
    (w : World) (folder_id credentials_path target_directory : string)
    (st st1 stm st2 : State) (latest_file : DriveFile)
    (others : list DriveFile)
    (file_id file_name mime_type modified_time web_view_link content : string) :
  list_transcript_files w folder_id credentials_path st
    = (Ret (latest_file :: others), st1) ->
  entry_fields latest_file file_id file_name mime_type modified_time
    web_view_link ->
  makedirs w target_directory st1 = (Ret tt, stm) ->
  _download_file_content w file_id mime_type stm
    = (Ret (VStr content), st2) ->
  open_write_error w (trace (log st2 EvNow))
    (artifact_path w target_directory st2) = None ->
  wf_str file_name = true -> wf_str modified_time = true ->
  wf_str web_view_link = true -> wf_str content = true ->
  let path := artifact_path w target_directory st2 in
  let header := artifact_header file_name modified_time web_view_link in
  exists st3,
    download_latest_transcript_from_drive w folder_id credentials_path
      target_directory st = (Ret (VStr path, VStr web_view_link), st3)
    /\ fs_files st3 !! path = Some (encode_utf8 (header +:+ content))
    /\ contains header ("**元ファイル名:** " +:+ file_name +:+ NL)
    /\ contains header ("**更新日時:** " +:+ modified_time +:+ NL)
    /\ contains header ("**元のURL:** " +:+ web_view_link +:+ NL)
    /\ artifact_body file_name modified_time web_view_link
         (header +:+ content) = Some content
    /\ (open_read_error w (trace st3) path = None ->
        read_text w path st3 =
          (Ret (universal_newlines header +:+ universal_newlines content),
           log st3 (EvOpenRead path)))
    /\ (universal_newlines content = content <-> has_cr content = false)
    /\ (has_cr file_name = false -> has_cr modified_time = false ->
        has_cr web_view_link = false ->
        universal_newlines header = header
        /\ artifact_body file_name modified_time web_view_link
             (universal_newlines header +:+ universal_newlines content)
           = Some (universal_newlines content)).
Proof.
  intros Hlist Hfields Hmk Hcontent Hopen Hn Hm Hu Hc path header.
  eexists.
  split; [|split; [|split; [|split; [|split; [|split; [|split; [|split]]]]]]].
  - rewrite (download_selects_first w _ _ _ _ _ _ _ Hlist).
    erewrite try_except_ret_eq; [reflexivity|].
    eapply save_transcript_success; eassumption.
  - cbn [set_file fs_files]. apply lookup_insert_eq.
  - apply artifact_header_contains.
  - apply artifact_header_contains.
  - apply artifact_header_contains.
  - apply strip_prefix_app.
  - intros Hread.
    unfold header.
    rewrite <- universal_newlines_artifact_text.
    apply read_text_eq.
    + cbn [set_file fs_files]. apply lookup_insert_eq.
    + now apply wf_artifact_text.
    + exact Hread.
  - apply universal_newlines_fixed.
  - intros Hn' Hm' Hu'.
    assert (Hsame : universal_newlines header = header).
    { apply universal_newlines_no_cr. unfold header, artifact_header.
      rewrite !has_cr_app, Hn', Hm', Hu'. reflexivity. }
    split; [exact Hsame|].
    rewrite Hsame. apply strip_prefix_app.
Qed.

Lemma artifact_round_trip_witness :
  exists st3,
    plain_run = (Ret (VStr demo_path, VStr demo_url), st3)
    /\ fs_files st3 !! demo_path =
       Some (encode_utf8
               (artifact_header "meeting_2024" "2024-01-02T03:04:05.000Z"
                  demo_url +:+ "Discussed X. Decided Y.")).
Proof.
  destruct (artifact_holds_header_and_body_and_reads_back_without_cr
              world_plain "folder1" "key.json" "./downloads" (Demo.start ∅)
              plain_listed plain_made plain_extracted
              (Demo.meeting MIME_TEXT) []
              "f1" "meeting_2024" MIME_TEXT "2024-01-02T03:04:05.000Z"
              demo_url "Discussed X. Decided Y.")
    as (st3 & Hrun & Hfile & _);
    [reflexivity | split; reflexivity | reflexivity | reflexivity
    | reflexivity | reflexivity | reflexivity | reflexivity | reflexivity |].
  exists st3. split; [exact Hrun|exact Hfile].
Defined.

Example plain_text_reads_back_unchanged :
  (read_text world_plain demo_path plain_run.2).1 =
  Ret (artifact_header "meeting_2024" "2024-01-02T03:04:05.000Z" demo_url
       +:+ "Discussed X. Decided Y.").
Proof. vm_compute. reflexivity. Qed.

(** Against C5 as stated: for an extracted text with a carriage return
    before a line feed, the file holds the text as it is, and the body
    read back has a lone line feed where the extracted text had the
    pair. *)
Lemma crlf_body_differs_after_read_back :
  (_download_file_content world_crlf "f1" MIME_GOOGLE_DOC (Demo.start ∅)).1
    = Ret (VStr crlf_text)
  /\ crlf_run.1 = Ret (VStr demo_path, VStr demo_url)
  /\ fs_files crlf_run.2 !! demo_path =
     Some (encode_utf8
             (artifact_header "meeting_2024" "2024-01-02T03:04:05.000Z"
                demo_url +:+ crlf_text))
  /\ (exists text,
        (read_text world_crlf demo_path crlf_run.2).1 = Ret text
        /\ artifact_body "meeting_2024" "2024-01-02T03:04:05.000Z" demo_url
             text = Some ("a" +:+ NL +:+ "b")
        /\ artifact_body "meeting_2024" "2024-01-02T03:04:05.000Z" demo_url
             text <> Some crlf_text).
Proof.
  split; [vm_compute; reflexivity|].
  split; [vm_compute; reflexivity|].
  split; [vm_compute; reflexivity|].
  eexists. split; [vm_compute; reflexivity|].
  split; [vm_compute; reflexivity|].
  vm_compute. discriminate.
Qed.

(** ** Summarization of blank input *)

Lemma lstrip_chars_all_space (chars : list string) :
  forallb isspace chars = true -> lstrip_chars chars = [].
Proof.
  induction chars as [|c chars IH]; [reflexivity|].
  cbn [forallb lstrip_chars]. intros H.
  apply andb_true_iff in H as [-> H]. now apply IH.
Qed.

Lemma strip_all_whitespace (s : string) :
  all_whitespace s = true -> strip s = EmptyString.
Proof.
  intros H. unfold strip. now rewrite (lstrip_chars_all_space _ H).
Qed.

(** *** Whitespace-only text stays whitespace-only when read *)

Lemma flatten_utf8_chars (s : string) : flatten (utf8_chars s) = s.
Proof.
  induction s as [|b t IH]; [reflexivity|].
  cbn [utf8_chars].
  destruct (utf8_chars t) as [|[|c r] cs]; cbn [flatten] in *.
  - now rewrite <- IH.
  - now rewrite str_app_cons, str_app_nil_l, IH.
  - destruct (is_continuation c); cbn [flatten];
      now rewrite !str_app_cons, ?str_app_nil_l, <- IH.
Qed.

Ltac space_cases c H :=
  destruct c as [|?x [|?y [|?z [|?u ?r]]]];
  unfold isspace, code_units in H;
  cbn [list_ascii_of_string List.map] in H;
  try discriminate H.

Lemma isspace_lead (c : string) :
  isspace c = true ->
  exists x r, c = String x r /\ is_continuation x = false.
Proof.
  intros H. space_cases c H; eexists _, _; (split; [reflexivity|]);
    unfold is_continuation; apply andb_false_iff; rewrite !N.leb_gt;
    bool_to_prop; lia.
Qed.

Lemma isspace_one_char (c : string) :
  isspace c = true -> utf8_chars c = [c].
Proof.
  intros H. space_cases c H; cbn [utf8_chars].
  - reflexivity.
  - assert (Hy : is_continuation y = true)
      by (unfold is_continuation; bool_to_prop; subst;
          match goal with E : N_of_ascii _ = _ |- _ => now rewrite E end).
    now rewrite Hy.
  - assert (Hz : is_continuation z = true)
      by (unfold is_continuation; apply andb_true_iff;
          rewrite !N.leb_le; bool_to_prop; lia).
    assert (Hy : is_continuation y = true)
      by (unfold is_continuation; apply andb_true_iff;
          rewrite !N.leb_le; bool_to_prop; lia).
    now rewrite Hz, Hy.
Qed.

Lemma ascii_eqb_CR (x : ascii) :
  N_of_ascii x <> 13%N -> Ascii.eqb x CR = false.
Proof.
  intros H. apply Ascii.eqb_neq. intros ->. now apply H.
Qed.

Lemma isspace_cr (c : string) :
  isspace c = true -> has_cr c = false \/ c = String CR EmptyString.
Proof.
  intros H. space_cases c H.
  - destruct (Ascii.eqb_spec x CR) as [->|Hx]; [now right|left].
    cbn [has_cr]. apply Ascii.eqb_neq in Hx. now rewrite Hx.
  - left. cbn [has_cr].
    rewrite !ascii_eqb_CR; [reflexivity|bool_to_prop; lia..].
  - left. cbn [has_cr].
    rewrite !ascii_eqb_CR; [reflexivity|bool_to_prop; lia..].
Qed.

Ltac bool_goal :=
  unfold in_range;
  repeat first [ rewrite andb_true_iff | rewrite orb_true_iff
               | rewrite N.leb_le | rewrite N.eqb_eq ];
  lia.

Lemma isspace_wf_scalar (c : string) :
  isspace c = true -> wf_scalar c = true.
Proof.
  intros H. space_cases c H; unfold wf_scalar, code_units;
    cbn [list_ascii_of_string List.map]; bool_to_prop; bool_goal.
Qed.

Lemma all_whitespace_wf (s : string) :
  all_whitespace s = true -> wf_str s = true.
Proof.
  unfold all_whitespace, wf_str.
  induction (utf8_chars s) as [|c cs IH]; [reflexivity|].
  cbn [forallb]. intros H. apply andb_true_iff in H as [Hc Hcs].
  now rewrite (isspace_wf_scalar c Hc), IH.
Qed.

Lemma ws_string_flatten (chars : list string) :
  forallb isspace chars = true -> ws_string (flatten chars).
Proof.
  induction chars as [|c cs IH]; [constructor|].
  cbn [forallb flatten]. intros H. apply andb_true_iff in H as [Hc Hcs].
  constructor; auto.
Qed.

Lemma all_whitespace_ws_string (s : string) :
  all_whitespace s = true -> ws_string s.
Proof.
  intros H. rewrite <- (flatten_utf8_chars s). now apply ws_string_flatten.
Qed.

Lemma ws_string_head (s : string) :
  ws_string s ->
  match s with
  | EmptyString => True
  | String x _ => is_continuation x = false
  end.
Proof.
  induction 1 as [|c s Hc Hs IH]; [exact I|].
  destruct (isspace_lead c Hc) as (x & r & -> & Hx).
  now rewrite str_app_cons.
Qed.

Lemma ws_string_all_whitespace (s : string) :
  ws_string s -> all_whitespace s = true.
Proof.
  induction 1 as [|c s Hc Hs IH]; [reflexivity|].
  unfold all_whitespace in *.
  rewrite utf8_chars_app by now apply ws_string_head.
  rewrite (isspace_one_char c Hc). cbn [app forallb].
  now rewrite Hc, IH.
Qed.

Lemma isspace_LF : isspace NL = true.
Proof. reflexivity. Qed.

Lemma ws_string_universal_newlines (s : string) :
  ws_string s -> ws_string (universal_newlines s).
Proof.
  induction 1 as [|c s Hc Hs IH]; [constructor|].
  destruct (isspace_cr c Hc) as [Hno| ->].
  - rewrite universal_newlines_app_no_cr by exact Hno. now constructor.
  - rewrite str_app_cons, str_app_nil_l.
    change (universal_newlines (String CR s))
      with (match s with
            | String c' t' =>
                if Ascii.eqb c' LF then String LF (universal_newlines t')
                else String LF (universal_newlines s)
            | EmptyString => String LF EmptyString
            end).
    destruct s as [|c' t'].
    + apply (ws_cons NL EmptyString isspace_LF ws_nil).
    + destruct (Ascii.eqb_spec c' LF) as [->|Hc'].
      * exact IH.
      * apply (ws_cons NL _ isspace_LF IH).
Qed.

Lemma all_whitespace_universal_newlines (s : string) :
  all_whitespace s = true -> all_whitespace (universal_newlines s) = true.
Proof.
  intros H.
  now apply ws_string_all_whitespace, ws_string_universal_newlines,
    all_whitespace_ws_string.
Qed.

(** What the summarizer reads from a file of whitespace. *)
Lemma read_text_blank (w : World) (path : string) (st : State)
    (data : list Byte.byte) :
  fs_files st !! path = Some data ->
  all_whitespace (string_of_list_byte data) = true ->
  exists r,
    read_text w path st = (r, log st (EvOpenRead path))
    /\ match r with
       | Ret content => strip content = EmptyString
       | Raise _ => True
       end.
Proof.
  intros Hdata Hblank.
  cbv beta iota delta [read_text bind call_check call].
  destruct (open_read_error w (trace st) path) as [e|].
  { eexists. split; [reflexivity|exact I]. }
  cbn [log fs_files]. rewrite Hdata. unfold decode_utf8.
  rewrite (all_whitespace_wf _ Hblank).
  eexists. split; [reflexivity|].
  now apply strip_all_whitespace, all_whitespace_universal_newlines.
Qed.

(** C8: when the input file exists and holds nothing but whitespace
    characters (or nothing at all), the summarizer returns [None], and
    all it has done is to test for the file and to open it for reading:
    no call goes to the generation backend. *)
Theorem blank_input_fails_before_any_backend_call
    (w : World) (file_path ai_api_key model_name : string)
    (st : State) (data : list Byte.byte) :
  fs_files st !! file_path = Some data ->
  all_whitespace (string_of_list_byte data) = true ->
  exists st1,
    summarize_transcript_with_ai w file_path ai_api_key model_name st
      = (Ret VNone, st1)
    /\ trace st1 = trace st ++ [EvExists file_path; EvOpenRead file_path]
    /\ Forall (fun e => is_genai_call e = false)
         [EvExists file_path; EvOpenRead file_path].
Proof.
  intros Hdata Hblank.
  destruct (read_text_blank w file_path (log st (EvExists file_path)) data
              Hdata Hblank) as (r & Hread & Hr).
  exists (log (log st (EvExists file_path)) (EvOpenRead file_path)).
  split; [|split].
  - cbv beta iota delta [summarize_transcript_with_ai try_except].
    erewrite bind_ret_eq.
    2:{ cbv beta iota delta [path_exists bind emit]. reflexivity. }
    cbn [log fs_files fs_dirs]. rewrite Hdata.
    rewrite bool_decide_eq_true_2 by eauto. cbn [orb negb].
    unfold bind at 1. rewrite Hread.
    destruct r as [content|e]; [|reflexivity].
    now rewrite Hr.
  - cbn. now rewrite <- app_assoc.
  - repeat constructor.
Qed.

Lemma blank_input_witness :
  exists st1,
    summarize_transcript_with_ai world_plain "in.md" "k" "gemini-pro"
      state_with_blank_file = (Ret VNone, st1)
    /\ trace st1 = trace state_with_blank_file
                     ++ [EvExists "in.md"; EvOpenRead "in.md"]
    /\ Forall (fun e => is_genai_call e = false)
         [EvExists "in.md"; EvOpenRead "in.md"].
Proof.
  apply (blank_input_fails_before_any_backend_call world_plain "in.md" "k"
           "gemini-pro" state_with_blank_file (encode_utf8 blank_file)).
  - reflexivity.
  - vm_compute. reflexivity.
Defined.

(** ** Blank content *)

(** C1, as the code has it: the fetch does not look at the extracted
    text.  Whatever string the extraction of the selected entry
    returns, the empty string and strings of whitespace included, the
    artifact is written and the pair of path and URL is returned,
    given that the entry has its modification time, that name, time,
    URL and text can be encoded as UTF-8 (a text of whitespace always
    can) and that the file can be opened; when the extraction returns
    [None], the fetch returns [(None, None)] and the files are those
    from before the call. *)
Theorem blank_content_is_saved_and_only_none_fails
    (w : World) (folder_id credentials_path target_directory : string)
    (st st1 stm : State) (latest_file : DriveFile) (others : list DriveFile)
    (file_id file_name mime_type web_view_link : string) :
  list_transcript_files w folder_id credentials_path st
    = (Ret (latest_file :: others), st1) ->
  entry_head latest_file file_id file_name mime_type web_view_link ->
  makedirs w target_directory st1 = (Ret tt, stm) ->
  (forall content st2 modified_time,
      _download_file_content w file_id mime_type stm
        = (Ret (VStr content), st2) ->
      latest_file !! "modifiedTime" = Some modified_time ->
      wf_str file_name = true -> wf_str modified_time = true ->
      wf_str web_view_link = true ->
      wf_str content = true \/ all_whitespace content = true ->
      open_write_error w (trace (log st2 EvNow))
        (artifact_path w target_directory st2) = None ->
      exists st3,
        download_latest_transcript_from_drive w folder_id credentials_path
          target_directory st =
        (Ret (VStr (artifact_path w target_directory st2),
              VStr web_view_link), st3)
        /\ fs_files st3 !! artifact_path w target_directory st2 =
           Some (encode_utf8
                   (artifact_text file_name modified_time web_view_link
                      content)))
  /\ (forall st2,
        _download_file_content w file_id mime_type stm = (Ret VNone, st2) ->
        download_latest_transcript_from_drive w folder_id credentials_path
          target_directory st = (Ret (VNone, VNone), st2)
        /\ fs_files st2 = fs_files st).
Proof.
  intros Hlist [Hid Hname Hmime Hurl] Hmk. split.
  - intros content st2 modified_time Hcontent Htime Hn Hm Hu Hc Hopen.
    assert (Hwf : wf_str content = true)
      by (destruct Hc as [Hc|Hc]; [exact Hc|now apply all_whitespace_wf]).
    assert (Hfields : entry_fields latest_file file_id file_name mime_type
                        modified_time web_view_link) by (now split).
    eexists. split.
    + rewrite (download_selects_first w _ _ _ _ _ _ _ Hlist).
      erewrite try_except_ret_eq; [reflexivity|].
      eapply save_transcript_success; eassumption.
    + cbn [set_file fs_files]. apply lookup_insert_eq.
  - intros st2 Hcontent.
    destruct (save_transcript_no_content w latest_file target_directory
                st1 stm st2 _ _ _ _ Hid Hname Hmime Hurl Hmk Hcontent)
      as [Hsave (Hfiles & _)].
    split.
    + rewrite (download_selects_first w _ _ _ _ _ _ _ Hlist).
      erewrite try_except_ret_eq; [reflexivity|exact Hsave].
    + rewrite Hfiles.
      destruct (makedirs_files _ _ _ _ _ Hmk) as (-> & _).
      now destruct (list_transcript_files_inv _ _ _ _ _ _ Hlist) as (-> & _).
Qed.

Lemma blank_content_witness :
  exists st3,
    download_latest_transcript_from_drive world_blank "folder1" "key.json"
      "./downloads" (Demo.start ∅) =
    (Ret (VStr demo_path, VStr demo_url), st3)
    /\ fs_files st3 !! demo_path =
       Some (encode_utf8
               (artifact_text "meeting_2024" "2024-01-02T03:04:05.000Z"
                  demo_url blank)).
Proof.
  refine (proj1 (blank_content_is_saved_and_only_none_fails world_blank
           "folder1" "key.json" "./downloads" (Demo.start ∅) blank_listed
           blank_made (Demo.meeting MIME_TEXT) [] "f1" "meeting_2024"
           MIME_TEXT demo_url _ _ _)
           blank blank_extracted "2024-01-02T03:04:05.000Z" _ _ _ _ _ _ _).
  - reflexivity.
  - split; reflexivity.
  - reflexivity.
  - reflexivity.
  - reflexivity.
  - reflexivity.
  - reflexivity.
  - reflexivity.
  - right. reflexivity.
  - reflexivity.
Defined.

(** Against C1 as stated: for a text file that holds one space and one
    line feed, the extraction returns that string, the fetch writes the
    artifact and returns path and URL, and [main] goes on to call the
    generation backend and to post. *)
Lemma blank_transcript_is_saved_and_summarized :
  strip blank = EmptyString
  /\ (_download_file_content world_blank "f1" MIME_TEXT (Demo.start ∅)).1
     = Ret (VStr blank)
  /\ (download_latest_transcript_from_drive world_blank "folder1" "key.json"
        "./downloads" (Demo.start ∅)).1
     = Ret (VStr demo_path, VStr demo_url)
  /\ fs_files
       (download_latest_transcript_from_drive world_blank "folder1" "key.json"
          "./downloads" (Demo.start ∅)).2 !! demo_path
     = Some (encode_utf8
               (artifact_text "meeting_2024" "2024-01-02T03:04:05.000Z"
                  demo_url blank))
  /\ (main world_blank (Demo.start Demo.settings)).1 = Ret true
  /\ existsb is_genai_call (trace (main world_blank (Demo.start Demo.settings)).2)
     = true.
Proof. repeat split; vm_compute; reflexivity. Qed.

(** ** Selection of the latest entry *)

Lemma not_older_trans (f g h : DriveFile) :
  not_older f g -> not_older g h -> not_older f h.
Proof.
  unfold not_older. intros Hfg Hgh.
  exact (transitivity (R := String.le) Hgh Hfg).
Qed.

Lemma newest_first_head (latest : DriveFile) (others : list DriveFile) :
  newest_first (latest :: others) ->
  forall f, f ∈ latest :: others -> not_older latest f.
Proof.
  intros Hsorted f Hf.
  apply Sorted_StronglySorted in Hsorted;
    [|intros x y z; apply not_older_trans].
  apply StronglySorted_inv in Hsorted as [_ Hall].
  apply elem_of_cons in Hf as [->|Hf].
  - unfold not_older. reflexivity.
  - rewrite List.Forall_forall in Hall. apply Hall.
    now apply list_elem_of_In.
Qed.

Lemma list_transcript_files_asks_newest_first (w : World)
    (folder_id credentials_path : string) (st st1 : State)
    (files : list DriveFile) :
  list_transcript_files w folder_id credentials_path st = (Ret files, st1) ->
  EvDriveList (transcript_query folder_id) "modifiedTime desc" LIST_FIELDS
    ∈ trace st1.
Proof.
  intros Hlist.
  destruct (list_transcript_files_inv _ _ _ _ _ _ Hlist) as (_ & _ & _ & Ht).
  rewrite (Ht files eq_refl). unfold listing_events.
  apply elem_of_app. right. rewrite !elem_of_cons. auto.
Qed.

(** C4: the folder is listed with the request to sort by modification
    time, descending, and the entry the fetch works on is the first of
    the answer.  For a non-empty answer in that order, this entry has
    the greatest modification time of all, and among the entries with
    that greatest time it is the first in the order of the answer. *)
Theorem fetch_selects_most_recent_entry
    (w : World) (folder_id credentials_path target_directory : string)
    (st st1 : State) (files : list DriveFile) :
  list_transcript_files w folder_id credentials_path st = (Ret files, st1) ->
  files <> [] ->
  newest_first files ->
  exists latest_file,
    files !! 0%nat = Some latest_file
    /\ download_latest_transcript_from_drive w folder_id credentials_path
         target_directory st =
       try_except (save_transcript w latest_file target_directory)
         (fun _ => ret (VNone, VNone)) st1
    /\ (forall f, f ∈ files ->
          String.le (modified_time_of f) (modified_time_of latest_file))
    /\ list_find
         (fun f => modified_time_of f = modified_time_of latest_file) files
       = Some (0%nat, latest_file)
    /\ EvDriveList (transcript_query folder_id) "modifiedTime desc"
         LIST_FIELDS ∈ trace st1.
Proof.
  intros Hlist Hne Hsorted.
  destruct files as [|latest_file others]; [congruence|].
  exists latest_file. split; [reflexivity|].
  split; [eapply download_selects_first, Hlist|].
  split; [exact (newest_first_head latest_file others Hsorted)|].
  split.
  - cbn [list_find]. now rewrite decide_True.
  - eapply list_transcript_files_asks_newest_first, Hlist.
Qed.

Lemma three_entries_newest_first : newest_first [entry_a; entry_b; entry_c].
Proof. repeat constructor. Qed.

Lemma fetch_selects_most_recent_witness :
  exists latest_file,
    [entry_a; entry_b; entry_c] !! 0%nat = Some latest_file
    /\ download_latest_transcript_from_drive world_three "folder1" "key.json"
         "./downloads" (Demo.start ∅) =
       try_except (save_transcript world_three latest_file "./downloads")
         (fun _ => ret (VNone, VNone)) three_listed
    /\ (forall f, f ∈ [entry_a; entry_b; entry_c] ->
          String.le (modified_time_of f) (modified_time_of latest_file))
    /\ list_find
         (fun f => modified_time_of f = modified_time_of latest_file)
         [entry_a; entry_b; entry_c]
       = Some (0%nat, latest_file)
    /\ EvDriveList (transcript_query "folder1") "modifiedTime desc"
         LIST_FIELDS ∈ trace three_listed.
Proof.
  apply (fetch_selects_most_recent_entry world_three "folder1" "key.json"
           "./downloads" (Demo.start ∅) three_listed
           [entry_a; entry_b; entry_c]).
  - reflexivity.
  - discriminate.
  - exact three_entries_newest_first.
Defined.

Example three_entries_fetch_first :
  (download_latest_transcript_from_drive world_three "folder1" "key.json"
     "./downloads" (Demo.start ∅)).1
  = Ret (VStr demo_path, VStr "https://docs.google.com/document/d/a").
Proof. vm_compute. reflexivity. Qed.

(** ** The settings that [main] passes on *)

(** After a successful resolution every setting is a string, so that
    [setting] never meets [None] in [main]. *)
Lemma loaded_settings_are_strings (w : World) (st st1 : State)
    (env_vars : gmap string value) (key : string) :
  load_environment_variables w st = (Ret env_vars, st1) ->
  key ∈ setting_keys ->
  exists s, env_vars !! key = Some (VStr s).
Proof.
  intros Hload Hkey.
  pose proof (load_environment_variables_eq w st) as Heq. cbv zeta in Heq.
  rewrite Hload in Heq.
  destruct (missing_settings (environ st ∪ dotenv w)) as [|k l] eqn:Hmiss;
    [|discriminate Heq].
  injection Heq as -> _.
  unfold setting_keys in Hkey. apply elem_of_app in Hkey as [Hreq|Hopt].
  - rewrite (config_bundle_required _ key Hreq).
    assert (Hnot : key ∉ missing_settings (environ st ∪ dotenv w))
      by (rewrite Hmiss; apply not_elem_of_nil).
    unfold missing_settings in Hnot. rewrite list_elem_of_filter in Hnot.
    unfold setting_missing, required_value in *.
    destruct ((environ st ∪ dotenv w) !! env_name key) as [s|]; [eauto|].
    exfalso. apply Hnot. split; [reflexivity|exact Hreq].
  - rewrite !elem_of_cons, elem_of_nil in Hopt.
    destruct Hopt as [->|[->|[]]].
    + change (config_bundle (environ st ∪ dotenv w) !! "ai_model_name")
        with (Some (optional_value (environ st ∪ dotenv w) "ai_model_name"
                      "gemini-pro")).
      unfold optional_value. destruct (_ !! _); eauto.
    + change (config_bundle (environ st ∪ dotenv w) !! "target_directory")
        with (Some (optional_value (environ st ∪ dotenv w) "target_directory"
                      "./downloads")).
      unfold optional_value. destruct (_ !! _); eauto.
Qed.

(** No stage raises past its boundary. *)
Lemma main_returns (w : World) (st : State) :
  exists result st', main w st = (Ret result, st').
Proof. apply try_except_returns. Qed.

Lemma summarize_returns (w : World) (file_path ai_api_key model_name : string)
    (st : State) :
  exists result st',
    summarize_transcript_with_ai w file_path ai_api_key model_name st
    = (Ret result, st').
Proof. apply try_except_returns. Qed.

(** ** A complete run *)

(** One entry named meeting_2024, a generator that answers, a chat
    backend that accepts: the run succeeds and posts one message, which
    carries the summary and the URL of the entry. *)
Example complete_run_posts_once :
  (main world_plain (Demo.start Demo.settings)).1 = Ret true
  /\ List.filter is_slack_post
       (trace (main world_plain (Demo.start Demo.settings)).2)
     = [ EvSlackPost "xoxb-1" "C01" NOTIFICATION_TEXT
           (Some (message_blocks "summary" demo_url 1700000000)) ].
Proof. split; vm_compute; reflexivity. Qed.

Example missing_settings_are_all_listed :
  (load_environment_variables world_plain
     (Demo.start {[ "SLACK_BOT_TOKEN" := "xoxb-1";
                    "SLACK_CHANNEL_ID" := EmptyString ]})).1
  = Raise (ValueError
             ("以下の環境変数が設定されていません: " +:+
              "google_credentials_path, google_drive_folder_id, " +:+
              "slack_channel_id, google_ai_api_key")).
Proof. vm_compute. reflexivity. Qed.

Example unsupported_type_gives_none :
  (download_latest_transcript_from_drive
     (Demo.world [Demo.meeting "application/pdf"] (LastChunk []) true
        (Ret "summary"))
     "folder1" "key.json" "./downloads" (Demo.start ∅)).1
  = Ret (VNone, VNone).
Proof. vm_compute. reflexivity. Qed.

Example empty_response_gives_none :
  (summarize_transcript_with_ai
     (Demo.world [] (LastChunk []) true (Ret EmptyString))
     "in.md" "k" "gemini-pro"
     {| trace := []; environ := ∅;
        fs_files := {[ "in.md" := encode_utf8 "Discussed X." ]};
        fs_dirs := ∅ |}).1
  = Ret VNone.
Proof. vm_compute. reflexivity. Qed.

(** * Further properties *)

(** ** Traces *)

Lemma log_logs (st : State) (e : Event) : log st e = logs st [e].
Proof. reflexivity. Qed.

Lemma logs_nil (st : State) : logs st [] = st.
Proof. destruct st. unfold logs. cbn. now rewrite app_nil_r. Qed.

Lemma logs_logs (st : State) (evs evs' : list Event) :
  logs (logs st evs) evs' = logs st (evs ++ evs').
Proof. unfold logs. cbn. now rewrite app_assoc. Qed.

Lemma same_files_logs (st : State) (evs : list Event) :
  same_files st (logs st evs).
Proof. repeat split. Qed.

(** ** Downloads *)

(** The loop over [next_chunk()] gathers the chunks in order, whatever
    their number and sizes, and stops at the first chunk that fails. *)
Lemma next_chunks_eq (d : Download) (file_io : list Byte.byte) (st : State) :
  next_chunks d file_io st =
  (match delivered d with
   | Ret data => Ret (file_io ++ data)
   | Raise e => Raise e
   end,
   logs st (repeat EvNextChunk (chunk_calls d))).
Proof.
  revert file_io st.
  induction d as [data|data rest IH|e]; intros file_io st;
    cbn [next_chunks delivered chunk_calls repeat];
    cbv beta iota delta [bind emit ret raise].
  - reflexivity.
  - rewrite IH, log_logs, logs_logs. cbn [app].
    destruct (delivered rest); [now rewrite app_assoc|reflexivity].
  - reflexivity.
Qed.

(** [_download_file_content] for a Google document or a text file, as
    one equation. *)
Lemma text_content_eq (w : World) (file_id mime_type : string) (st : State) :
  mime_type = MIME_GOOGLE_DOC \/ mime_type = MIME_TEXT ->
  _download_file_content w file_id mime_type st =
  (Ret (match delivered (text_request w (trace st) file_id mime_type) with
        | Ret data => from_option VStr VNone (decode_utf8 data)
        | Raise _ => VNone
        end),
   logs st (text_request_event file_id mime_type
            :: repeat EvNextChunk
                 (chunk_calls (text_request w (trace st) file_id mime_type)))).
Proof.
  intros [-> | ->];
    cbv beta iota delta [_download_file_content try_except bind media_request
      extract_text call ret raise text_request text_request_event].
  - change (String.eqb MIME_GOOGLE_DOC MIME_GOOGLE_DOC) with true.
    change (String.eqb MIME_GOOGLE_DOC MIME_DOCX) with false.
    cbv beta iota. rewrite next_chunks_eq, log_logs, logs_logs. cbn [app].
    destruct (delivered _) as [data|e]; [|reflexivity].
    destruct (decode_utf8 data); reflexivity.
  - change (String.eqb MIME_TEXT MIME_GOOGLE_DOC) with false.
    change (String.eqb MIME_TEXT MIME_DOCX) with false.
    change (String.eqb MIME_TEXT MIME_TEXT) with true.
    cbv beta iota. rewrite next_chunks_eq, log_logs, logs_logs. cbn [app].
    destruct (delivered _) as [data|e]; [|reflexivity].
    destruct (decode_utf8 data); reflexivity.
Qed.

(** X1: a Google document (exported as plain text) or a text file whose
    download delivers, in chunks of any number and size, the UTF-8
    encoding of a text is extracted as exactly this text; the calls are
    the request and one [next_chunk()] per chunk. *)
Theorem text_extraction_is_the_decoded_download
    (w : World) (file_id mime_type text : string) (st : State) :
  mime_type = MIME_GOOGLE_DOC \/ mime_type = MIME_TEXT ->
  delivered (text_request w (trace st) file_id mime_type)
    = Ret (encode_utf8 text) ->
  wf_str text = true ->
  _download_file_content w file_id mime_type st =
  (Ret (VStr text),
   logs st (text_request_event file_id mime_type
            :: repeat EvNextChunk
                 (chunk_calls (text_request w (trace st) file_id mime_type)))).
Proof.
  intros Hmime Hdata Hwf.
  rewrite (text_content_eq w file_id mime_type st Hmime), Hdata.
  now rewrite (decode_encode_utf8 text Hwf).
Qed.

Lemma text_extraction_witness :
  _download_file_content world_two_chunks "f1" MIME_GOOGLE_DOC (Demo.start ∅)
  = (Ret (VStr "Discussed X. Decided Y."),
     logs (Demo.start ∅)
       [EvDriveExport "f1" MIME_TEXT; EvNextChunk; EvNextChunk]).
Proof.
  apply (text_extraction_is_the_decoded_download world_two_chunks "f1"
           MIME_GOOGLE_DOC "Discussed X. Decided Y." (Demo.start ∅)).
  - now left.
  - reflexivity.
  - reflexivity.
Defined.

(** ** The fetch when no content comes *)

Lemma fetch_without_content (w : World)
    (folder_id credentials_path target_directory : string)
    (st st1 stm st2 : State) (latest_file : DriveFile)
    (others : list DriveFile)
    (file_id file_name mime_type web_view_link : string) :
  list_transcript_files w folder_id credentials_path st
    = (Ret (latest_file :: others), st1) ->
  entry_head latest_file file_id file_name mime_type web_view_link ->
  makedirs w target_directory st1 = (Ret tt, stm) ->
  _download_file_content w file_id mime_type stm = (Ret VNone, st2) ->
  download_latest_transcript_from_drive w folder_id credentials_path
    target_directory st = (Ret (VNone, VNone), st2)
  /\ fs_files st2 = fs_files st
  /\ fs_dirs st2 = fs_dirs stm
  /\ fs_dirs st ⊆ fs_dirs stm.
Proof.
  intros Hlist [Hid Hname Hmime Hurl] Hmk Hcontent.
  destruct (list_transcript_files_inv _ _ _ _ _ _ Hlist) as (Hf & Hd & _).
  destruct (makedirs_files _ _ _ _ _ Hmk) as (Hfm & _ & Hdm).
  destruct (save_transcript_no_content w latest_file target_directory
              st1 stm st2 _ _ _ _ Hid Hname Hmime Hurl Hmk Hcontent)
    as [Hsave (Hf2 & Hd2 & _)].
  split; [|split; [|split]].
  - rewrite (download_selects_first w _ _ _ _ _ _ _ Hlist).
    erewrite try_except_ret_eq; [reflexivity|exact Hsave].
  - now rewrite Hf2, Hfm.
  - exact Hd2.
  - now rewrite <- Hd.
Qed.

(** [_download_file_content] for a supported content type, as one
    equation. *)
Lemma supported_content_eq (w : World) (file_id mime_type : string)
    (st : State) :
  supported_mime_type mime_type = true ->
  let download := text_request w (trace st) file_id mime_type in
  let st1 :=
    logs st (text_request_event file_id mime_type
             :: repeat EvNextChunk (chunk_calls download)) in
  _download_file_content w file_id mime_type st =
  match delivered download with
  | Raise _ => (Ret VNone, st1)
  | Ret data =>
      if String.eqb mime_type MIME_DOCX
      then (match docx_paragraphs w (trace st1) data with
            | Ret paragraphs => Ret (VStr (join NL paragraphs))
            | Raise _ => Ret VNone
            end, log st1 EvDocx)
      else (Ret (from_option VStr VNone (decode_utf8 data)), st1)
  end.
Proof.
  intros Hmime download st1.
  assert (Hcases : mime_type = MIME_GOOGLE_DOC \/ mime_type = MIME_TEXT
                   \/ mime_type = MIME_DOCX).
  { unfold supported_mime_type in Hmime.
    apply orb_true_iff in Hmime as [Hmime|Hmime];
      [apply orb_true_iff in Hmime as [Hmime|Hmime]|];
      apply String.eqb_eq in Hmime; auto. }
  destruct Hcases as [Htext|[Htext| ->]].
  - rewrite (text_content_eq w file_id mime_type st (or_introl Htext)).
    fold download. fold st1. subst mime_type.
    change (String.eqb MIME_GOOGLE_DOC MIME_DOCX) with false.
    destruct (delivered download); reflexivity.
  - rewrite (text_content_eq w file_id mime_type st (or_intror Htext)).
    fold download. fold st1. subst mime_type.
    change (String.eqb MIME_TEXT MIME_DOCX) with false.
    destruct (delivered download); reflexivity.
  - change (String.eqb MIME_DOCX MIME_DOCX) with true.
    assert (Hchunks :
      next_chunks (get_media w (trace st) file_id) []
        (log st (EvDriveGetMedia file_id))
      = (delivered download, st1)).
    { rewrite next_chunks_eq, log_logs, logs_logs.
      unfold st1, download, text_request, text_request_event.
      change (String.eqb MIME_DOCX MIME_GOOGLE_DOC) with false.
      cbv iota. destruct (delivered _); reflexivity. }
    destruct (delivered download) as [data|e] eqn:Hdata.
    + now apply docx_content_eq.
    + cbv beta iota delta [_download_file_content try_except bind
        media_request call ret].
      change (String.eqb MIME_DOCX MIME_GOOGLE_DOC) with false.
      change (String.eqb MIME_DOCX MIME_DOCX) with true.
      cbv beta iota. rewrite Hchunks. reflexivity.
Qed.

(** X2: when a chunk of the download raises (for a Google document, a
    docx file or a text file), when the bytes of a Google document
    export or of a text file are not valid UTF-8, or when the docx
    reader raises, the fetch returns [(None, None)]; [os.makedirs] has
    run for the target directory, and nothing is written: the files
    are those from before the call and the directories those that
    [os.makedirs] left. *)
Theorem failed_or_undecodable_download_gives_none
    (w : World) (folder_id credentials_path target_directory : string)
    (st st1 stm : State) (latest_file : DriveFile) (others : list DriveFile)
    (file_id file_name mime_type web_view_link : string) :
  list_transcript_files w folder_id credentials_path st
    = (Ret (latest_file :: others), st1) ->
  entry_head latest_file file_id file_name mime_type web_view_link ->
  makedirs w target_directory st1 = (Ret tt, stm) ->
  supported_mime_type mime_type = true ->
  let download := text_request w (trace stm) file_id mime_type in
  match delivered download with
  | Raise _ => True
  | Ret data =>
      if String.eqb mime_type MIME_DOCX
      then exists e,
             docx_paragraphs w
               (trace stm ++ text_request_event file_id mime_type
                  :: repeat EvNextChunk (chunk_calls download)) data
             = Raise e
      else decode_utf8 data = None
  end ->
  exists st2,
    download_latest_transcript_from_drive w folder_id credentials_path
      target_directory st = (Ret (VNone, VNone), st2)
    /\ fs_files st2 = fs_files st
    /\ fs_dirs st2 = fs_dirs stm
    /\ fs_dirs st ⊆ fs_dirs stm.
Proof.
  intros Hlist Hhead Hmk Hmime download Hbad.
  pose proof (supported_content_eq w file_id mime_type stm Hmime) as Heq.
  cbv zeta in Heq. fold download in Heq.
  destruct (delivered download) as [data|e].
  - destruct (String.eqb mime_type MIME_DOCX).
    + destruct Hbad as [e Hbad]. cbn [logs trace] in Heq.
      rewrite Hbad in Heq.
      eexists. eapply fetch_without_content; eassumption.
    + rewrite Hbad in Heq.
      eexists. eapply fetch_without_content; eassumption.
  - eexists. eapply fetch_without_content; eassumption.
Qed.

Lemma undecodable_download_witness :
  exists st2,
    download_latest_transcript_from_drive world_invalid_bytes "folder1"
      "key.json" "./downloads" (Demo.start ∅) = (Ret (VNone, VNone), st2)
    /\ fs_files st2 = fs_files (Demo.start ∅)
    /\ fs_dirs st2 = fs_dirs (made world_invalid_bytes
                                (listed world_invalid_bytes))
    /\ fs_dirs (Demo.start ∅)
       ⊆ fs_dirs (made world_invalid_bytes (listed world_invalid_bytes)).
Proof.
  apply (failed_or_undecodable_download_gives_none world_invalid_bytes
           "folder1" "key.json" "./downloads" (Demo.start ∅)
           (listed world_invalid_bytes)
           (made world_invalid_bytes (listed world_invalid_bytes))
           (Demo.meeting MIME_TEXT) []
           "f1" "meeting_2024" MIME_TEXT demo_url).
  - reflexivity.
  - split; reflexivity.
  - reflexivity.
  - reflexivity.
  - reflexivity.
Defined.

Lemma unsupported_content_eq (w : World) (file_id mime_type : string)
    (st : State) :
  supported_mime_type mime_type = false ->
  _download_file_content w file_id mime_type st = (Ret VNone, st).
Proof.
  unfold supported_mime_type. intros H.
  apply orb_false_elim in H as [H Htext].
  apply orb_false_elim in H as [Hdoc Hdocx].
  cbv beta iota delta [_download_file_content try_except bind media_request
    ret].
  now rewrite Hdoc, Hdocx, Htext.
Qed.

(** X3: for an entry of any other content type than Google document,
    docx and plain text, the fetch asks Drive for nothing after the
    listing: once [os.makedirs] has run for the target directory it
    returns [(None, None)], with no download request made and no file
    written. *)
Theorem unsupported_type_is_not_downloaded
    (w : World) (folder_id credentials_path target_directory : string)
    (st st1 stm : State) (latest_file : DriveFile) (others : list DriveFile)
    (file_id file_name mime_type web_view_link : string) :
  list_transcript_files w folder_id credentials_path st
    = (Ret (latest_file :: others), st1) ->
  entry_head latest_file file_id file_name mime_type web_view_link ->
  makedirs w target_directory st1 = (Ret tt, stm) ->
  supported_mime_type mime_type = false ->
  download_latest_transcript_from_drive w folder_id credentials_path
    target_directory st = (Ret (VNone, VNone), stm)
  /\ trace stm =
     trace st ++ listing_events folder_id credentials_path
              ++ [EvMakedirs target_directory]
  /\ fs_files stm = fs_files st.
Proof.
  intros Hlist Hhead Hmk Hmime.
  destruct (fetch_without_content w folder_id credentials_path
              target_directory st st1 stm stm
              latest_file others _ _ _ _ Hlist Hhead Hmk
              (unsupported_content_eq w file_id mime_type _ Hmime))
    as (Hrun & Hfiles & _).
  split; [exact Hrun|]. split; [|exact Hfiles].
  destruct (list_transcript_files_inv _ _ _ _ _ _ Hlist) as (_ & _ & _ & Ht).
  rewrite (makedirs_trace _ _ _ _ _ Hmk), (Ht _ eq_refl).
  now rewrite <- app_assoc.
Qed.

Lemma unsupported_type_witness :
  download_latest_transcript_from_drive world_pdf "folder1" "key.json"
    "./downloads" (Demo.start ∅)
  = (Ret (VNone, VNone), made world_pdf (listed world_pdf))
  /\ trace (made world_pdf (listed world_pdf)) =
     trace (Demo.start ∅) ++ listing_events "folder1" "key.json"
       ++ [EvMakedirs "./downloads"]
  /\ fs_files (made world_pdf (listed world_pdf)) = fs_files (Demo.start ∅).
Proof.
  apply (unsupported_type_is_not_downloaded world_pdf "folder1" "key.json"
           "./downloads" (Demo.start ∅) (listed world_pdf)
           (made world_pdf (listed world_pdf))
           (Demo.meeting "application/pdf") [] "f1" "meeting_2024"
           "application/pdf" demo_url).
  - reflexivity.
  - split; reflexivity.
  - reflexivity.
  - reflexivity.
Defined.

(** ** Entries with a missing field *)

(** X4: an entry that lacks [id], [name], [mimeType] or [webViewLink]
    stops the fetch right after the listing: the result is
    [(None, None)], the directory is not created and nothing is
    downloaded or written. *)
Theorem entry_without_a_head_field_stops_the_fetch
    (w : World) (folder_id credentials_path target_directory : string)
    (st st1 : State) (latest_file : DriveFile) (others : list DriveFile) :
  list_transcript_files w folder_id credentials_path st
    = (Ret (latest_file :: others), st1) ->
  latest_file !! "id" = None \/ latest_file !! "name" = None
  \/ latest_file !! "mimeType" = None
  \/ latest_file !! "webViewLink" = None ->
  download_latest_transcript_from_drive w folder_id credentials_path
    target_directory st = (Ret (VNone, VNone), st1)
  /\ trace st1 = trace st ++ listing_events folder_id credentials_path
  /\ fs_files st1 = fs_files st
  /\ fs_dirs st1 = fs_dirs st.
Proof.
  intros Hlist Hmissing.
  destruct (list_transcript_files_inv _ _ _ _ _ _ Hlist)
    as (Hf & Hd & _ & Ht).
  split; [|split; [now apply (Ht _ eq_refl)|split; assumption]].
  rewrite (download_selects_first w _ _ _ _ _ _ _ Hlist).
  cbv beta iota delta [try_except save_transcript bind getitem ret raise].
  destruct (latest_file !! "id"); [|reflexivity].
  destruct (latest_file !! "name"); [|reflexivity].
  destruct (latest_file !! "mimeType"); [|reflexivity].
  destruct (latest_file !! "webViewLink"); [|reflexivity].
  destruct Hmissing as [H|[H|[H|H]]]; discriminate H.
Qed.

Lemma entry_without_link_witness :
  download_latest_transcript_from_drive world_without_link "folder1"
    "key.json" "./downloads" (Demo.start ∅)
  = (Ret (VNone, VNone), listed world_without_link).
Proof.
  apply (entry_without_a_head_field_stops_the_fetch world_without_link
           "folder1" "key.json" "./downloads" (Demo.start ∅)
           (listed world_without_link) entry_without_link []).
  - reflexivity.
  - right. right. right. reflexivity.
Defined.

(** One [f.write] and what follows it. *)
Lemma bind_f_write {B} (path text : string) (k : unit -> M B) (st : State)
    (d : list Byte.byte) :
  bind (f_write path text) k (set_file st path d) =
  if wf_str text then k tt (set_file st path (d ++ encode_utf8 text))
  else (Raise UnicodeEncodeError, set_file st path d).
Proof.
  unfold bind. rewrite f_write_set_file. now destruct (wf_str text).
Qed.

(** The [with open(...)] block as one equation: when the file cannot be
    opened nothing changes; otherwise the file holds the texts written
    before the block ended, which it does at the first text that cannot
    be encoded or at the missing modification time. *)
Lemma write_artifact_outcome (w : World) (md_filepath : string)
    (latest_file : DriveFile) (file_name web_view_link content : string)
    (st : State) :
  write_artifact w md_filepath latest_file file_name web_view_link content st
  = match open_write_error w (trace st) md_filepath with
    | Some e => (Raise e, log st (EvOpenWrite md_filepath))
    | None =>
        (written_result latest_file file_name web_view_link content,
         set_file (log st (EvOpenWrite md_filepath)) md_filepath
           (encode_utf8
              (written_text latest_file file_name web_view_link content)))
    end.
Proof.
  destruct (open_write_error w (trace st) md_filepath) as [e|] eqn:Hopen.
  { cbv beta iota delta [write_artifact open_write bind call_check call].
    now rewrite Hopen. }
  assert (Htitle : wf_str ARTIFACT_TITLE = true) by reflexivity.
  assert (Hheading : wf_str ARTIFACT_BODY_HEADING = true) by reflexivity.
  unfold write_artifact, written_result, written_text, artifact_writes.
  erewrite bind_ret_eq.
  2:{ cbv beta iota delta [open_write bind call_check call].
      rewrite Hopen. reflexivity. }
  rewrite bind_f_write, Htitle, bind_f_write.
  destruct (latest_file !! "modifiedTime") as [modified_time|] eqn:Htime;
    cbn [fst forallb encodable_prefix]; rewrite Htitle;
    destruct (wf_str ("**元ファイル名:** " +:+ file_name +:+ NL));
    cbn [andb flatten]; rewrite ?str_app_nil_r; try reflexivity.
  - erewrite bind_ret_eq by (unfold getitem; rewrite Htime; reflexivity).
    rewrite bind_f_write.
    destruct (wf_str ("**更新日時:** " +:+ modified_time +:+ NL));
      cbn [andb flatten]; rewrite ?str_app_nil_r;
      [|now rewrite !encode_utf8_app].
    rewrite bind_f_write.
    destruct (wf_str ("**元のURL:** " +:+ web_view_link +:+ NL +:+ NL));
      cbn [andb flatten]; rewrite ?str_app_nil_r;
      [|now rewrite !encode_utf8_app, !app_assoc].
    rewrite bind_f_write, Hheading. cbn [andb flatten].
    rewrite f_write_set_file.
    destruct (wf_str content); cbn [andb flatten]; rewrite ?str_app_nil_r;
      now rewrite !encode_utf8_app, !app_assoc.
  - erewrite bind_raise_eq
      by (unfold getitem; rewrite Htime; reflexivity).
    now rewrite !encode_utf8_app.
Qed.

(** X5: an entry that has the other four fields but lacks
    [modifiedTime] makes the fetch fail after the file is opened: the
    result is [(None, None)], yet the artifact file exists and holds
    what was written before the missing field was read: the title and
    the line of the file name (the title alone when that line cannot be
    encoded as UTF-8). *)
Theorem entry_without_time_leaves_a_partial_artifact
    (w : World) (folder_id credentials_path target_directory : string)
    (st st1 stm st2 : State) (latest_file : DriveFile)
    (others : list DriveFile)
    (file_id file_name mime_type web_view_link content : string) :
  list_transcript_files w folder_id credentials_path st
    = (Ret (latest_file :: others), st1) ->
  entry_head latest_file file_id file_name mime_type web_view_link ->
  latest_file !! "modifiedTime" = None ->
  makedirs w target_directory st1 = (Ret tt, stm) ->
  _download_file_content w file_id mime_type stm
    = (Ret (VStr content), st2) ->
  open_write_error w (trace (log st2 EvNow))
    (artifact_path w target_directory st2) = None ->
  let name_line := "**元ファイル名:** " +:+ file_name +:+ NL in
  exists st3,
    download_latest_transcript_from_drive w folder_id credentials_path
      target_directory st = (Ret (VNone, VNone), st3)
    /\ fs_files st3 !! artifact_path w target_directory st2 =
       Some (encode_utf8
               (if wf_str name_line then ARTIFACT_TITLE +:+ name_line
                else ARTIFACT_TITLE)).
Proof.
  intros Hlist [Hid Hname Hmime Hurl] Htime Hmk Hcontent Hopen name_line.
  pose proof (write_artifact_outcome w (artifact_path w target_directory st2)
                latest_file file_name web_view_link content (log st2 EvNow))
    as Hwrite.
  rewrite Hopen in Hwrite.
  unfold written_result, written_text, artifact_writes in Hwrite.
  rewrite Htime in Hwrite. cbn [fst forallb encodable_prefix] in Hwrite.
  change (wf_str ARTIFACT_TITLE) with true in Hwrite.
  fold name_line in Hwrite. cbn [andb] in Hwrite.
  assert (Hraise : exists e,
    write_artifact w (artifact_path w target_directory st2) latest_file
      file_name web_view_link content (log st2 EvNow)
    = (Raise e,
       set_file
         (log (log st2 EvNow)
            (EvOpenWrite (artifact_path w target_directory st2)))
         (artifact_path w target_directory st2)
         (encode_utf8
            (if wf_str name_line then ARTIFACT_TITLE +:+ name_line
             else ARTIFACT_TITLE)))).
  { rewrite Hwrite. destruct (wf_str name_line); cbn [flatten];
      rewrite ?str_app_nil_r; eauto. }
  destruct Hraise as [e Hraise].
  eexists. split.
  - rewrite (download_selects_first w _ _ _ _ _ _ _ Hlist).
    erewrite try_except_raise_eq; [reflexivity|].
    rewrite (save_transcript_until_content w latest_file target_directory
               st1 stm _ _ _ _ Hid Hname Hmime Hurl Hmk).
    erewrite bind_ret_eq by exact Hcontent. cbv beta iota.
    erewrite bind_ret_eq by reflexivity.
    cbv zeta. fold (artifact_path w target_directory st2).
    erewrite bind_raise_eq; [reflexivity|]. exact Hraise.
  - cbv beta. cbn [set_file fs_files]. apply lookup_insert_eq.
Qed.

Lemma entry_without_time_witness :
  exists st3,
    download_latest_transcript_from_drive world_without_time "folder1"
      "key.json" "./downloads" (Demo.start ∅) = (Ret (VNone, VNone), st3)
    /\ fs_files st3 !! demo_path =
       Some (encode_utf8
               (ARTIFACT_TITLE +:+ "**元ファイル名:** " +:+ "meeting_2024"
                +:+ NL)).
Proof.
  apply (entry_without_time_leaves_a_partial_artifact world_without_time
           "folder1" "key.json" "./downloads" (Demo.start ∅)
           (listed world_without_time)
           (made world_without_time (listed world_without_time))
           (_download_file_content world_without_time "f1" MIME_TEXT
              (made world_without_time (listed world_without_time))).2
           entry_without_time [] "f1" "meeting_2024" MIME_TEXT demo_url
           "Discussed X.").
  - reflexivity.
  - split; reflexivity.
  - reflexivity.
  - reflexivity.
  - reflexivity.
  - reflexivity.
Defined.

(** ** The fetch when the listing fails *)

(** X6: when loading the credentials, building the service or the
    listing request raises, the fetch returns [(None, None)]; files,
    directories and environment are untouched, and the calls made are
    the listing calls up to the one that failed: after a credentials
    failure nothing at all is asked from Drive. *)
Theorem listing_failure_gives_none_and_stops
    (w : World) (folder_id credentials_path target_directory : string)
    (st st1 : State) (e : Exn) :
  list_transcript_files w folder_id credentials_path st = (Raise e, st1) ->
  download_latest_transcript_from_drive w folder_id credentials_path
    target_directory st = (Ret (VNone, VNone), st1)
  /\ same_files st st1
  /\ exists k,
       (1 <= k <= 3)%nat
       /\ trace st1 =
          trace st ++ take k (listing_events folder_id credentials_path)
       /\ (from_service_account_file w (trace st) credentials_path SCOPES
             <> None -> k = 1%nat).
Proof.
  intros Hlist. split; [|split].
  - cbv beta iota delta [download_latest_transcript_from_drive try_except
      bind]. rewrite Hlist. reflexivity.
  - destruct (list_transcript_files_inv _ _ _ _ _ _ Hlist) as (? & ? & ? & _).
    repeat split; assumption.
  - revert Hlist.
    cbv beta iota delta [list_transcript_files bind call_check call ret].
    destruct (from_service_account_file w (trace st) credentials_path SCOPES)
      as [e1|] eqn:Hcred.
    { intros [= _ <-]. exists 1%nat. repeat split; auto. }
    cbn [log trace].
    destruct (build w _) as [e2|].
    { intros [= _ <-]. exists 2%nat. repeat split; auto.
      - cbn. now rewrite <- app_assoc.
      - intros H. now destruct H. }
    cbn [log trace].
    destruct (files_list w _ _ _ _) as [results|e3]; [intros [=]|].
    intros [= _ <-]. exists 3%nat. repeat split; auto.
    + cbn. now rewrite <- !app_assoc.
    + intros H. now destruct H.
Qed.

Lemma credentials_failure_witness :
  download_latest_transcript_from_drive world_no_credentials "folder1"
    "key.json" "./downloads" (Demo.start ∅)
  = (Ret (VNone, VNone),
     log (Demo.start ∅) (EvCredentials "key.json" SCOPES)).
Proof.
  apply (listing_failure_gives_none_and_stops world_no_credentials "folder1"
           "key.json" "./downloads" (Demo.start ∅)
           (log (Demo.start ∅) (EvCredentials "key.json" SCOPES))
           (OSError "key.json")).
  reflexivity.
Defined.

(** ** Relations that runs preserve *)

Section Preserves.

Variable R : State -> State -> Prop.
Hypothesis R_refl : forall st, R st st.
Hypothesis R_trans : forall a b c, R a b -> R b c -> R a c.

Lemma preserves_ret {A} (a : A) : preserves R (ret a).
Proof. intros st r st' [= _ <-]. apply R_refl. Qed.

Lemma preserves_raise {A} (e : Exn) : preserves R (@raise A e).
Proof. intros st r st' [= _ <-]. apply R_refl. Qed.

Lemma preserves_getitem {V} (d : gmap string V) (key : string) :
  preserves R (getitem d key).
Proof.
  unfold getitem. destruct (d !! key);
    [apply preserves_ret|apply preserves_raise].
Qed.

Lemma preserves_as_str (v : value) : preserves R (as_str v).
Proof. destruct v; [apply preserves_raise|apply preserves_ret]. Qed.

Lemma preserves_first_item {A} (l : list A) : preserves R (first_item l).
Proof.
  unfold first_item. destruct (l !! 0%nat);
    [apply preserves_ret|apply preserves_raise].
Qed.

Lemma preserves_bind {A B} (m : M A) (k : A -> M B) :
  preserves R m -> (forall a, preserves R (k a)) -> preserves R (bind m k).
Proof.
  intros Hm Hk st r st'. unfold bind.
  destruct (m st) as [[a|e] st1] eqn:E.
  - intros H. eapply R_trans; [eapply Hm, E|eapply Hk, H].
  - intros [= _ <-]. eapply Hm, E.
Qed.

Lemma preserves_try_except {A} (m : M A) (h : Exn -> M A) :
  preserves R m -> (forall e, preserves R (h e)) ->
  preserves R (try_except m h).
Proof.
  intros Hm Hh st r st'. unfold try_except.
  destruct (m st) as [[a|e] st1] eqn:E.
  - intros [= _ <-]. eapply Hm, E.
  - intros H. eapply R_trans; [eapply Hm, E|eapply Hh, H].
Qed.

(** A single step, whatever it returns. *)
Lemma preserves_step {A} (f : State -> Res A * State) :
  (forall st, R st (f st).2) -> preserves R f.
Proof. intros Hf st r st' E. specialize (Hf st). now rewrite E in Hf. Qed.

End Preserves.

(** *** Calls of one kind *)

Lemma extends_refl (P : Event -> bool) (st : State) : extends P st st.
Proof. exists []. now rewrite app_nil_r. Qed.

Lemma extends_trans (P : Event -> bool) (a b c : State) :
  extends P a b -> extends P b c -> extends P a c.
Proof.
  intros (evs & Hab & Hevs) (evs' & Hbc & Hevs').
  exists (evs ++ evs'). split.
  - now rewrite Hbc, Hab, app_assoc.
  - now rewrite forallb_app, Hevs, Hevs'.
Qed.

Lemma extends_log (P : Event -> bool) (st : State) (e : Event) :
  P e = true -> extends P st (log st e).
Proof. intros He. exists [e]. split; [reflexivity|]. cbn. now rewrite He. Qed.

Lemma extends_same_trace (P : Event -> bool) (st st' : State) :
  trace st' = trace st -> extends P st st'.
Proof. intros H. exists []. now rewrite app_nil_r. Qed.

Lemma extends_weaken (P Q : Event -> bool) (st st' : State) :
  (forall e, P e = true -> Q e = true) -> extends P st st' -> extends Q st st'.
Proof.
  intros HPQ (evs & Ht & Hevs). exists evs. split; [exact Ht|].
  rewrite forallb_forall in *. auto.
Qed.

Section Emits.

Variable P : Event -> bool.

Lemma emits_ret {A} (a : A) : emits P (ret a).
Proof. apply preserves_ret, extends_refl. Qed.

Lemma emits_raise {A} (e : Exn) : emits P (@raise A e).
Proof. apply preserves_raise, extends_refl. Qed.

Lemma emits_bind {A B} (m : M A) (k : A -> M B) :
  emits P m -> (forall a, emits P (k a)) -> emits P (bind m k).
Proof. apply preserves_bind, extends_trans. Qed.

Lemma emits_try_except {A} (m : M A) (h : Exn -> M A) :
  emits P m -> (forall e, emits P (h e)) -> emits P (try_except m h).
Proof. apply preserves_try_except, extends_trans. Qed.

Lemma emits_call {A} (e : Event) (answer : list Event -> Res A) :
  P e = true -> emits P (call e answer).
Proof. intros He. apply preserves_step. intros st. now apply extends_log. Qed.

Lemma emits_call_check (e : Event) (answer : list Event -> option Exn) :
  P e = true -> emits P (call_check e answer).
Proof. apply emits_call. Qed.

Lemma emits_emit (e : Event) : P e = true -> emits P (emit e).
Proof. intros He. apply preserves_step. intros st. now apply extends_log. Qed.

Lemma emits_getitem {V} (d : gmap string V) (key : string) :
  emits P (getitem d key).
Proof. apply preserves_getitem, extends_refl. Qed.

Lemma emits_as_str (v : value) : emits P (as_str v).
Proof. apply preserves_as_str, extends_refl. Qed.

Lemma emits_first_item {A} (l : list A) : emits P (first_item l).
Proof. apply preserves_first_item, extends_refl. Qed.

Lemma emits_f_write (path text : string) :
  emits P (f_write path text).
Proof.
  apply preserves_step. intros st. apply extends_same_trace.
  unfold f_write. now destruct (wf_str text).
Qed.

Lemma emits_next_chunks (d : Download) (file_io : list Byte.byte) :
  P EvNextChunk = true -> emits P (next_chunks d file_io).
Proof.
  intros He. revert file_io.
  induction d as [data|data rest IH|e]; intros file_io; cbn [next_chunks];
    apply emits_bind; intros;
    auto using emits_emit, emits_ret, emits_raise.
Qed.

End Emits.

Lemma emits_weaken (P Q : Event -> bool) {A} (m : M A) :
  (forall e, P e = true -> Q e = true) -> emits P m -> emits Q m.
Proof.
  intros HPQ Hm st r st' E. eapply extends_weaken; [exact HPQ|].
  eapply Hm, E.
Qed.

Create HintDb emits discriminated.
#[local] Hint Resolve emits_ret emits_raise emits_getitem emits_as_str
  emits_first_item emits_f_write : emits.
#[local] Hint Extern 2 (emits _ (call _ _)) =>
  apply emits_call; reflexivity : emits.
#[local] Hint Extern 2 (emits _ (call_check _ _)) =>
  apply emits_call_check; reflexivity : emits.
#[local] Hint Extern 2 (emits _ (emit _)) =>
  apply emits_emit; reflexivity : emits.
#[local] Hint Extern 2 (emits _ (next_chunks _ _)) =>
  apply emits_next_chunks; reflexivity : emits.

Ltac emits_step :=
  first [ apply emits_try_except; [|intros ?]
        | apply emits_bind; [|intros ?] ].

(** The fetch makes calls of the fetch only. *)
Lemma emits_download_file_content (w : World) (file_id mime_type : string) :
  emits is_fetch_event (_download_file_content w file_id mime_type).
Proof.
  unfold _download_file_content. emits_step; [|auto with emits].
  emits_step.
  - unfold media_request.
    repeat match goal with
           | |- emits _ (if ?b then _ else _) => destruct b
           end; auto with emits.
  - destruct a as [request|]; [|auto with emits].
    emits_step; [auto with emits|]. emits_step; [|auto with emits].
    unfold extract_text. destruct (String.eqb mime_type MIME_DOCX).
    + emits_step; auto with emits.
    + destruct (decode_utf8 a); auto with emits.
Qed.

Lemma emits_makedirs (w : World) (dir : string) :
  emits is_fetch_event (makedirs w dir).
Proof.
  intros st r st' Hmk.
  exists [EvMakedirs dir]. split; [|reflexivity].
  eapply makedirs_trace, Hmk.
Qed.

Lemma emits_write_artifact (w : World) (md_filepath : string)
    (latest_file : DriveFile) (file_name web_view_link content : string) :
  emits is_fetch_event
    (write_artifact w md_filepath latest_file file_name web_view_link content).
Proof.
  unfold write_artifact. emits_step.
  - unfold open_write. emits_step; [auto with emits|].
    apply preserves_step. intros st. now apply extends_same_trace.
  - repeat (emits_step; [eauto with emits|]). eauto with emits.
Qed.

Lemma emits_list_transcript_files (w : World)
    (folder_id credentials_path : string) :
  emits is_fetch_event (list_transcript_files w folder_id credentials_path).
Proof.
  unfold list_transcript_files.
  repeat (emits_step; [auto with emits|]). auto with emits.
Qed.

Lemma emits_save_transcript (w : World) (latest_file : DriveFile)
    (target_directory : string) :
  emits is_fetch_event (save_transcript w latest_file target_directory).
Proof.
  unfold save_transcript.
  do 4 (emits_step; [auto with emits|]).
  emits_step; [apply emits_makedirs|].
  emits_step; [apply emits_download_file_content|].
  destruct a4 as [|content]; [auto with emits|].
  emits_step; [auto with emits|].
  emits_step; [apply emits_write_artifact|auto with emits].
Qed.

Lemma emits_download (w : World)
    (folder_id credentials_path target_directory : string) :
  emits is_fetch_event
    (download_latest_transcript_from_drive w folder_id credentials_path
       target_directory).
Proof.
  unfold download_latest_transcript_from_drive.
  emits_step; [|auto with emits].
  emits_step; [apply emits_list_transcript_files|].
  destruct a as [|latest others]; [auto with emits|].
  emits_step; [auto with emits|apply emits_save_transcript].
Qed.

(** The summarizer makes calls of the summarizer only. *)
Lemma emits_summarize (w : World) (file_path ai_api_key model_name : string) :
  emits is_summarize_event
    (summarize_transcript_with_ai w file_path ai_api_key model_name).
Proof.
  unfold summarize_transcript_with_ai.
  emits_step; [|auto with emits].
  emits_step.
  - unfold path_exists. emits_step; [auto with emits|].
    apply preserves_step. intros st. now apply extends_same_trace.
  - destruct (negb a); [auto with emits|].
    emits_step.
    + unfold read_text. emits_step; [auto with emits|].
      apply preserves_step. intros st.
      apply extends_same_trace.
      destruct (fs_files st !! file_path) as [data|]; [|reflexivity].
      destruct (decode_utf8 data); reflexivity.
    + destruct (negb (str_truthy (strip a0))); [auto with emits|].
      do 3 (emits_step; [auto with emits|]).
      destruct (str_truthy a3); auto with emits.
Qed.

(** ** What the fetch does to the files *)

Lemma elsewhere_refl (path : string) (st : State) : elsewhere path st st.
Proof. repeat split. Qed.

Lemma elsewhere_trans (path : string) (a b c : State) :
  elsewhere path a b -> elsewhere path b c -> elsewhere path a c.
Proof.
  intros (Hab & Hdab & Heab) (Hbc & Hdbc & Hebc). split; [|split].
  - intros q Hq. now rewrite Hbc, Hab.
  - now rewrite Hdbc.
  - now rewrite Hebc.
Qed.

Lemma elsewhere_same_files (path : string) (st st' : State) :
  same_files st st' -> elsewhere path st st'.
Proof. intros (Hf & Hd & He). split; [|split]; auto. intros. now rewrite Hf. Qed.

Lemma elsewhere_set_file (path : string) (st : State)
    (data : list Byte.byte) :
  elsewhere path st (set_file st path data).
Proof.
  split; [|split]; try reflexivity.
  intros q Hq. cbn. now apply lookup_insert_ne.
Qed.

Lemma write_artifact_elsewhere (w : World) (md_filepath : string)
    (latest_file : DriveFile) (file_name web_view_link content : string) :
  preserves (elsewhere md_filepath)
    (write_artifact w md_filepath latest_file file_name web_view_link content).
Proof.
  intros st r st'. rewrite write_artifact_outcome.
  destruct (open_write_error w (trace st) md_filepath).
  - intros [= _ <-]. apply elsewhere_same_files, same_files_log.
  - intros [= _ <-].
    eapply elsewhere_trans;
      [apply elsewhere_same_files, same_files_log|apply elsewhere_set_file].
Qed.

(** Every run of [save_transcript] either stops before the file is
    opened, or gets as far as the [with open(...)] block. *)
Lemma save_transcript_cases (w : World) (latest_file : DriveFile)
    (target_directory : string) (st st' : State) (r : Res (value * value)) :
  save_transcript w latest_file target_directory st = (r, st') ->
  ((r = Ret (VNone, VNone) \/ exists e, r = Raise e)
   /\ fs_files st' = fs_files st /\ environ st' = environ st
   /\ fs_dirs st ⊆ fs_dirs st'
   /\ (forall d, d ∈ fs_dirs st' ->
         d ∈ fs_dirs st \/ path_prefix d target_directory))
  \/ exists file_id file_name mime_type web_view_link content stm st2 rw,
       entry_head latest_file file_id file_name mime_type web_view_link
       /\ makedirs w target_directory st = (Ret tt, stm)
       /\ _download_file_content w file_id mime_type stm
          = (Ret (VStr content), st2)
       /\ write_artifact w (artifact_path w target_directory st2) latest_file
            file_name web_view_link content (log st2 EvNow) = (rw, st')
       /\ r = match rw with
              | Ret _ => Ret (VStr (artifact_path w target_directory st2),
                              VStr web_view_link)
              | Raise e => Raise e
              end.
Proof.
  assert (Hstill : forall (e : Exn),
    (Raise e = Ret (VNone, VNone) \/ exists e', @Raise (value * value) e = Raise e')
    /\ fs_files st = fs_files st /\ environ st = environ st
    /\ fs_dirs st ⊆ fs_dirs st
    /\ (forall d, d ∈ fs_dirs st ->
          d ∈ fs_dirs st \/ path_prefix d target_directory))
    by (intros e; eauto 10).
  destruct (latest_file !! "id") as [file_id|] eqn:Hid.
  2:{ cbv beta iota delta [save_transcript bind getitem raise].
      rewrite Hid. intros [= <- <-]. left. apply Hstill. }
  destruct (latest_file !! "name") as [file_name|] eqn:Hname.
  2:{ cbv beta iota delta [save_transcript bind getitem raise ret].
      rewrite Hid, Hname. intros [= <- <-]. left. apply Hstill. }
  destruct (latest_file !! "mimeType") as [mime_type|] eqn:Hmime.
  2:{ cbv beta iota delta [save_transcript bind getitem raise ret].
      rewrite Hid, Hname, Hmime. intros [= <- <-]. left. apply Hstill. }
  destruct (latest_file !! "webViewLink") as [web_view_link|] eqn:Hurl.
  2:{ cbv beta iota delta [save_transcript bind getitem raise ret].
      rewrite Hid, Hname, Hmime, Hurl. intros [= <- <-]. left.
      apply Hstill. }
  clear Hstill.
  assert (Hhead : entry_head latest_file file_id file_name mime_type
                    web_view_link) by (split; assumption).
  destruct (makedirs w target_directory st) as [rm stm] eqn:Hmk.
  pose proof (makedirs_made_for _ _ _ _ _ Hmk)
    as (_ & Hfm & Hem & Hsub & Hnew).
  cbn [log fs_files environ fs_dirs] in Hfm, Hem, Hsub, Hnew.
  destruct rm as [[]|e].
  2:{ unfold save_transcript.
      do 4 (erewrite bind_ret_eq
              by (unfold getitem;
                  first [rewrite Hid|rewrite Hname|rewrite Hmime
                        |rewrite Hurl]; reflexivity)).
      erewrite bind_raise_eq by exact Hmk.
      intros [= <- <-]. left. eauto 10. }
  rewrite (save_transcript_until_content w latest_file target_directory st
             stm _ _ _ _ Hid Hname Hmime Hurl Hmk).
  unfold bind at 1.
  destruct (_download_file_content w file_id mime_type stm)
    as [[[|content]|e] st2] eqn:Hcontent.
  - intros [= <- <-]. left.
    destruct (download_file_content_same_files _ _ _ _ _ _ Hcontent)
      as (Hf & Hd & He).
    split; [now left|]. rewrite Hf, He, Hd. auto.
  - intros Hrun. right.
    erewrite bind_ret_eq in Hrun by reflexivity.
    cbv zeta in Hrun. fold (artifact_path w target_directory st2) in Hrun.
    unfold bind in Hrun.
    destruct (write_artifact w (artifact_path w target_directory st2)
                latest_file file_name web_view_link content (log st2 EvNow))
      as [rw st3] eqn:Hwrite.
    exists file_id, file_name, mime_type, web_view_link, content, stm, st2, rw.
    assert (Hend : st3 = st'
                   /\ r = match rw with
                          | Ret _ =>
                              Ret (VStr (artifact_path w target_directory st2),
                                   VStr web_view_link)
                          | Raise e => Raise e
                          end)
      by (destruct rw; injection Hrun as <- <-; split; reflexivity).
    destruct Hend as [<- ->]. repeat split; assumption.
  - intros [= <- <-]. left.
    destruct (download_file_content_same_files _ _ _ _ _ _ Hcontent)
      as (Hf & Hd & He).
    split; [eauto|]. rewrite Hf, He, Hd. auto.
Qed.

(** Every run of the fetch ends in the listing or in [save_transcript]
    for the first entry of the listing. *)
Lemma download_cases (w : World)
    (folder_id credentials_path target_directory : string)
    (st st' : State) (r : Res (value * value)) :
  download_latest_transcript_from_drive w folder_id credentials_path
    target_directory st = (r, st') ->
  (r = Ret (VNone, VNone)
   /\ exists rl, list_transcript_files w folder_id credentials_path st
                 = (rl, st'))
  \/ exists latest_file others st1 rs,
       list_transcript_files w folder_id credentials_path st
         = (Ret (latest_file :: others), st1)
       /\ save_transcript w latest_file target_directory st1 = (rs, st')
       /\ r = match rs with
              | Ret fetched => Ret fetched
              | Raise _ => Ret (VNone, VNone)
              end.
Proof.
  intros Hrun.
  destruct (list_transcript_files w folder_id credentials_path st)
    as [[[|latest_file others]|e] st1] eqn:Hlist.
  - left.
    cbv beta iota delta [download_latest_transcript_from_drive try_except
      bind ret] in Hrun.
    rewrite Hlist in Hrun. injection Hrun as <- <-. eauto.
  - right.
    rewrite (download_selects_first w _ _ _ _ _ _ _ Hlist) in Hrun.
    unfold try_except in Hrun.
    destruct (save_transcript w latest_file target_directory st1)
      as [rs st2] eqn:Hsave.
    exists latest_file, others, st1, rs.
    destruct rs; injection Hrun as <- <-; auto.
  - left.
    cbv beta iota delta [download_latest_transcript_from_drive try_except
      bind ret] in Hrun.
    rewrite Hlist in Hrun. injection Hrun as <- <-. eauto.
Qed.

(** X7: whatever happens, the fetch leaves the environment alone and
    removes no directory; every directory it makes is the target
    directory or a prefix of its path (the directories of
    [os.makedirs]); and it changes at most one file, whose name is
    [transcript_], a timestamp and [.md], joined to the target
    directory. *)
Theorem fetch_changes_at_most_the_artifact
    (w : World) (folder_id credentials_path target_directory : string)
    (st st' : State) (r : Res (value * value)) :
  download_latest_transcript_from_drive w folder_id credentials_path
    target_directory st = (r, st') ->
  environ st' = environ st
  /\ fs_dirs st ⊆ fs_dirs st'
  /\ (forall d, d ∈ fs_dirs st' ->
        d ∈ fs_dirs st \/ path_prefix d target_directory)
  /\ exists timestamp,
       forall q, q <> artifact_path_at target_directory timestamp ->
                 fs_files st' !! q = fs_files st !! q.
Proof.
  intros Hrun.
  destruct (download_cases _ _ _ _ _ _ _ Hrun)
    as [(_ & rl & Hlist)|(latest & others & st1 & rs & Hlist & Hsave & _)].
  - destruct (list_transcript_files_inv _ _ _ _ _ _ Hlist)
      as (Hf & Hd & He & _).
    split; [exact He|]. rewrite Hd. split; [reflexivity|]. split; [auto|].
    exists EmptyString. intros q _. now rewrite Hf.
  - destruct (list_transcript_files_inv _ _ _ _ _ _ Hlist)
      as (Hf & Hd & He & _).
    destruct (save_transcript_cases _ _ _ _ _ _ Hsave)
      as [(_ & Hf' & He' & Hsub & Hnew)
         |(id & name & mime & url & content & stm & st2 & rw
           & _ & Hmk & Hcontent & Hwrite & _)].
    + split; [now rewrite He'|]. rewrite <- Hd.
      split; [exact Hsub|]. split; [exact Hnew|].
      exists EmptyString. intros q _. now rewrite Hf', Hf.
    + pose proof (makedirs_made_for _ _ _ _ _ Hmk)
        as (_ & Hfm & Hem & Hsub & Hnew).
      cbn [log fs_files environ fs_dirs] in Hfm, Hem, Hsub, Hnew.
      destruct (download_file_content_same_files _ _ _ _ _ _ Hcontent)
        as (Hf2 & Hd2 & He2).
      destruct (write_artifact_elsewhere _ _ _ _ _ _ _ _ _ Hwrite)
        as (Hf3 & Hd3 & He3).
      cbn [log environ fs_dirs fs_files] in Hf3, Hd3, He3.
      split; [rewrite He3, He2, Hem; exact He|].
      rewrite Hd3, Hd2, <- Hd.
      split; [exact Hsub|]. split; [exact Hnew|].
      exists (now_strftime w (trace st2)). intros q Hq.
      rewrite (Hf3 q Hq), Hf2, Hfm. now rewrite Hf.
Qed.

Lemma fetch_changes_witness :
  environ plain_run.2 = environ (Demo.start ∅)
  /\ fs_dirs (Demo.start ∅) ⊆ fs_dirs plain_run.2
  /\ (forall d, d ∈ fs_dirs plain_run.2 ->
        d ∈ fs_dirs (Demo.start ∅) \/ path_prefix d "./downloads")
  /\ exists timestamp,
       forall q, q <> artifact_path_at "./downloads" timestamp ->
                 fs_files plain_run.2 !! q = fs_files (Demo.start ∅) !! q.
Proof.
  apply (fetch_changes_at_most_the_artifact world_plain "folder1" "key.json"
           "./downloads" (Demo.start ∅) plain_run.2 plain_run.1).
  reflexivity.
Defined.

(** The six texts, written one after the other, are the artifact. *)
Lemma flatten_artifact_writes
    (file_name modified_time web_view_link content : string) :
  flatten
    [ ARTIFACT_TITLE; "**元ファイル名:** " +:+ file_name +:+ NL;
      "**更新日時:** " +:+ modified_time +:+ NL;
      "**元のURL:** " +:+ web_view_link +:+ NL +:+ NL;
      ARTIFACT_BODY_HEADING; content ]
  = artifact_text file_name modified_time web_view_link content.
Proof.
  unfold artifact_text, artifact_header. cbn [flatten].
  now rewrite str_app_nil_r, !str_app_assoc.
Qed.

Lemma encodable_prefix_all (texts : list string) :
  forallb wf_str texts = true -> encodable_prefix texts = texts.
Proof.
  induction texts as [|text texts IH]; [reflexivity|].
  cbn [forallb encodable_prefix]. intros H.
  apply andb_true_iff in H as [-> H]. now rewrite IH.
Qed.

Lemma wf_str_flatten (texts : list string) :
  forallb wf_str texts = true -> wf_str (flatten texts) = true.
Proof.
  induction texts as [|text texts IH]; [reflexivity|].
  cbn [forallb flatten]. intros H.
  apply andb_true_iff in H as [Htext H]. apply wf_str_app; auto.
Qed.

(** What stands behind a pair of path and URL that the fetch returns. *)
Lemma returned_pair_inv
    (w : World) (folder_id credentials_path target_directory : string)
    (st st' : State) (path url : string) :
  download_latest_transcript_from_drive w folder_id credentials_path
    target_directory st = (Ret (VStr path, VStr url), st') ->
  exists latest_file others st1 stm st2
         file_id file_name mime_type modified_time content,
    list_transcript_files w folder_id credentials_path st
      = (Ret (latest_file :: others), st1)
    /\ entry_fields latest_file file_id file_name mime_type modified_time url
    /\ makedirs w target_directory st1 = (Ret tt, stm)
    /\ _download_file_content w file_id mime_type stm
       = (Ret (VStr content), st2)
    /\ path = artifact_path_at target_directory (now_strftime w (trace st2))
    /\ fs_files st' !! path =
       Some (encode_utf8 (artifact_text file_name modified_time url content))
    /\ wf_str (artifact_text file_name modified_time url content) = true.
Proof.
  intros Hrun.
  destruct (download_cases _ _ _ _ _ _ _ Hrun)
    as [([=] & _)|(latest & others & st1 & rs & Hlist & Hsave & Hr)].
  destruct rs as [fetched|e]; [|discriminate Hr]. injection Hr as <-.
  destruct (save_transcript_cases _ _ _ _ _ _ Hsave)
    as [([[=]|[e [=]]] & _)
       |(id & name & mime & url' & content & stm & st2 & rw
         & [Hid Hname Hmime Hurl] & Hmk & Hcontent & Hwrite & Hr)].
  destruct rw as [[]|e]; [|discriminate Hr]. injection Hr as -> ->.
  rewrite write_artifact_outcome in Hwrite.
  destruct (open_write_error w (trace (log st2 EvNow))
              (artifact_path w target_directory st2)); [discriminate Hwrite|].
  unfold written_result, written_text, artifact_writes in Hwrite.
  destruct (latest !! "modifiedTime") as [modified_time|] eqn:Htime.
  2:{ cbn [fst] in Hwrite.
      destruct (forallb wf_str _) in Hwrite; discriminate Hwrite. }
  cbn [fst] in Hwrite.
  destruct (forallb wf_str _) eqn:Hwf in Hwrite; [|discriminate Hwrite].
  rewrite (encodable_prefix_all _ Hwf), flatten_artifact_writes in Hwrite.
  injection Hwrite as <-.
  exists latest, others, st1, stm, st2, id, name, mime, modified_time, content.
  split; [exact Hlist|]. split; [now split|]. split; [exact Hmk|].
  split; [exact Hcontent|]. split; [reflexivity|]. split.
  - cbn [set_file fs_files]. apply lookup_insert_eq.
  - rewrite <- flatten_artifact_writes. now apply wf_str_flatten.
Qed.

(** X8: when the fetch returns a path and a URL, the listing was not
    empty and its first entry has all five fields, the URL being its
    [webViewLink]; [os.makedirs] and the extraction of the text of that
    entry (by its [id] and [mimeType]) have succeeded; the path is
    [transcript_], the timestamp read after the extraction and [.md],
    joined to the target directory; and the file at the path holds the
    complete artifact of that entry: header with name, modification
    time and URL, then the text that the extraction returned, all of
    it valid UTF-8. *)
Theorem returned_path_holds_the_complete_artifact
    (w : World) (folder_id credentials_path target_directory : string)
    (st st' : State) (path url : string) :
  download_latest_transcript_from_drive w folder_id credentials_path
    target_directory st = (Ret (VStr path, VStr url), st') ->
  exists latest_file others st1 stm st2
         file_id file_name mime_type modified_time content,
    list_transcript_files w folder_id credentials_path st
      = (Ret (latest_file :: others), st1)
    /\ entry_fields latest_file file_id file_name mime_type modified_time url
    /\ makedirs w target_directory st1 = (Ret tt, stm)
    /\ _download_file_content w file_id mime_type stm
       = (Ret (VStr content), st2)
    /\ path = artifact_path_at target_directory (now_strftime w (trace st2))
    /\ fs_files st' !! path =
       Some (encode_utf8 (artifact_text file_name modified_time url content))
    /\ wf_str (artifact_text file_name modified_time url content) = true.
Proof. apply returned_pair_inv. Qed.

Lemma returned_path_witness :
  exists latest_file others st1 stm st2
         file_id file_name mime_type modified_time content,
    list_transcript_files world_plain "folder1" "key.json" (Demo.start ∅)
      = (Ret (latest_file :: others), st1)
    /\ entry_fields latest_file file_id file_name mime_type modified_time
         demo_url
    /\ makedirs world_plain "./downloads" st1 = (Ret tt, stm)
    /\ _download_file_content world_plain file_id mime_type stm
       = (Ret (VStr content), st2)
    /\ demo_path =
       artifact_path_at "./downloads" (now_strftime world_plain (trace st2))
    /\ fs_files plain_run.2 !! demo_path =
       Some (encode_utf8
               (artifact_text file_name modified_time demo_url content))
    /\ wf_str (artifact_text file_name modified_time demo_url content) = true.
Proof.
  apply (returned_path_holds_the_complete_artifact world_plain "folder1"
           "key.json" "./downloads" (Demo.start ∅) plain_run.2 demo_path
           demo_url).
  reflexivity.
Defined.

(** ** The summarizer *)

Lemma path_exists_eq (path : string) (st : State) :
  path_exists path st =
  (Ret (bool_decide (is_Some (fs_files st !! path))
        || bool_decide (path ∈ fs_dirs st)), log st (EvExists path)).
Proof. reflexivity. Qed.

Lemma read_text_state (w : World) (path : string) (st st1 : State)
    (r : Res string) :
  read_text w path st = (r, st1) -> st1 = log st (EvOpenRead path).
Proof.
  cbv beta iota delta [read_text bind call_check call].
  destruct (open_read_error w (trace st) path); [now intros [= _ <-]|].
  cbn [log fs_files].
  destruct (fs_files st !! path) as [data|]; [|now intros [= _ <-]].
  destruct (decode_utf8 data); now intros [= _ <-].
Qed.

Lemma read_text_file (w : World) (path content : string) (st st1 : State) :
  read_text w path st = (Ret content, st1) ->
  is_Some (fs_files st !! path).
Proof.
  cbv beta iota delta [read_text bind call_check call].
  destruct (open_read_error w (trace st) path); [intros [=]|].
  cbn [log fs_files].
  destruct (fs_files st !! path) as [data|]; [eauto|intros [=]].
Qed.

(** X9: when the input path is neither a file nor a directory, or the
    file cannot be read (it cannot be opened, or it is not valid UTF-8),
    the summarizer returns [None]; it has tested for the file and, in
    the second case, tried to read it, and has not called the generation
    backend. *)
Theorem missing_or_unreadable_input_gives_none
    (w : World) (file_path ai_api_key model_name : string) (st : State) :
  (fs_files st !! file_path = None /\ file_path ∉ fs_dirs st)
  \/ (exists e st1,
        read_text w file_path (log st (EvExists file_path)) = (Raise e, st1)) ->
  exists st' evs,
    summarize_transcript_with_ai w file_path ai_api_key model_name st
      = (Ret VNone, st')
    /\ trace st' = trace st ++ evs
    /\ (evs = [EvExists file_path]
        \/ evs = [EvExists file_path; EvOpenRead file_path])
    /\ Forall (fun e => is_genai_call e = false) evs.
Proof.
  intros [[Hfile Hdir]|(e & st1 & Hread)].
  - exists (log st (EvExists file_path)), [EvExists file_path].
    split; [|split; [reflexivity|split; [auto|repeat constructor]]].
    cbv beta iota delta [summarize_transcript_with_ai try_except].
    erewrite bind_ret_eq by apply path_exists_eq.
    rewrite Hfile.
    rewrite bool_decide_eq_false_2 by (intros [? [=]]).
    rewrite bool_decide_eq_false_2 by exact Hdir. reflexivity.
  - pose proof (read_text_state _ _ _ _ _ Hread) as ->.
    destruct (bool_decide (is_Some (fs_files st !! file_path))
              || bool_decide (file_path ∈ fs_dirs st)) eqn:Hexists.
    + exists (log (log st (EvExists file_path)) (EvOpenRead file_path)),
        [EvExists file_path; EvOpenRead file_path].
      split; [|split; [cbn; now rewrite <- app_assoc|split; [auto|repeat constructor]]].
      cbv beta iota delta [summarize_transcript_with_ai try_except].
      erewrite bind_ret_eq by apply path_exists_eq.
      rewrite Hexists. cbn [negb]. unfold bind at 1. rewrite Hread.
      reflexivity.
    + exists (log st (EvExists file_path)), [EvExists file_path].
      split; [|split; [reflexivity|split; [auto|repeat constructor]]].
      cbv beta iota delta [summarize_transcript_with_ai try_except].
      erewrite bind_ret_eq by apply path_exists_eq.
      rewrite Hexists. reflexivity.
Qed.

Lemma missing_input_witness :
  exists st' evs,
    summarize_transcript_with_ai world_plain "in.md" "k" "gemini-pro"
      (Demo.start ∅) = (Ret VNone, st')
    /\ trace st' = trace (Demo.start ∅) ++ evs
    /\ (evs = [EvExists "in.md"]
        \/ evs = [EvExists "in.md"; EvOpenRead "in.md"])
    /\ Forall (fun e => is_genai_call e = false) evs.
Proof.
  apply (missing_or_unreadable_input_gives_none world_plain "in.md" "k"
           "gemini-pro" (Demo.start ∅)).
  left. split; [reflexivity|]. cbn. apply not_elem_of_empty.
Defined.

(** The summarizer on an input that can be read and is not blank. *)
Lemma summarize_readable_eq
    (w : World) (file_path ai_api_key model_name content : string)
    (st st1 : State) :
  read_text w file_path (log st (EvExists file_path)) = (Ret content, st1) ->
  strip content <> EmptyString ->
  let prompt := PROMPT_HEAD +:+ content +:+ PROMPT_TAIL in
  let st3 := generation_state st1 ai_api_key model_name in
  summarize_transcript_with_ai w file_path ai_api_key model_name st
    = (Ret (summary_of (generate_content_text w (trace st3) model_name
                          prompt)),
       log st3 (EvGenerate model_name prompt)).
Proof.
  intros Hread Hcontent prompt st3.
  pose proof (read_text_file _ _ _ _ _ Hread) as Hfile.
  cbv beta iota delta [summarize_transcript_with_ai try_except].
  erewrite bind_ret_eq by apply path_exists_eq.
  rewrite (bool_decide_eq_true_2 _ Hfile). cbn [orb negb].
  erewrite bind_ret_eq by exact Hread.
  destruct (strip content) as [|c s] eqn:Hstrip; [now destruct Hcontent|].
  cbn [str_truthy truthy negb].
  cbv beta iota zeta delta [bind emit call _create_summary_prompt].
  fold prompt. fold (generation_state st1 ai_api_key model_name).
  fold st3.
  destruct (generate_content_text w (trace st3) model_name prompt)
    as [[|c' text]|e]; reflexivity.
Qed.

(** X10: when the input file can be read and holds more than whitespace,
    the summarizer configures the backend, selects the model and makes
    one generation call, whose prompt holds the text read from the file
    between the fixed head and tail.  It returns the stripped answer,
    and [None] when the call raises or answers the empty string; so
    what it returns is a non-empty string exactly when the answer holds
    more than whitespace. *)
Theorem readable_input_is_summarized_by_one_generation
    (w : World) (file_path ai_api_key model_name content : string)
    (st st1 : State) :
  read_text w file_path (log st (EvExists file_path)) = (Ret content, st1) ->
  strip content <> EmptyString ->
  let prompt := PROMPT_HEAD +:+ content +:+ PROMPT_TAIL in
  let st3 := generation_state st1 ai_api_key model_name in
  let answer := generate_content_text w (trace st3) model_name prompt in
  summarize_transcript_with_ai w file_path ai_api_key model_name st
    = (Ret (summary_of answer), log st3 (EvGenerate model_name prompt))
  /\ trace (log st3 (EvGenerate model_name prompt)) =
     trace st ++ [ EvExists file_path; EvOpenRead file_path;
                   EvGenaiConfigure ai_api_key; EvGenaiModel model_name;
                   EvGenerate model_name prompt ]
  /\ (truthy (summary_of answer) = true <->
      exists text, answer = Ret text /\ strip text <> EmptyString).
Proof.
  intros Hread Hcontent prompt st3 answer.
  pose proof (read_text_state _ _ _ _ _ Hread) as Hst1.
  split; [|split].
  - now apply summarize_readable_eq.
  - subst st3. rewrite Hst1. cbn. now rewrite <- !app_assoc.
  - destruct answer as [text|e]; cbn [summary_of].
    + destruct text as [|c text]; cbn [str_truthy truthy].
      * split; [discriminate|]. intros (text' & [= <-] & Hne).
        now destruct Hne.
      * destruct (strip (String c text)) as [|c' s'] eqn:Hstrip;
          cbn [truthy].
        -- split; [discriminate|]. intros (text' & [= <-] & Hne).
           now rewrite Hstrip in Hne.
        -- split; [|reflexivity]. intros _. exists (String c text).
           split; [reflexivity|]. now rewrite Hstrip.
    + split; [discriminate|]. intros (text & [=] & _).
Qed.

Lemma readable_input_witness :
  (summarize_transcript_with_ai world_plain "in.md" "k" "gemini-pro"
     state_with_notes).1 = Ret (VStr "summary").
Proof.
  pose proof (readable_input_is_summarized_by_one_generation world_plain
                "in.md" "k" "gemini-pro" "Discussed X." state_with_notes
                (log (log state_with_notes (EvExists "in.md"))
                   (EvOpenRead "in.md"))) as H.
  cbv zeta in H.
  destruct H as (-> & _); [reflexivity|vm_compute; discriminate|].
  reflexivity.
Defined.

(** ** What the summarizer and the Slack functions leave alone *)

Lemma keeps_files_pure {A} (f : State -> Res A * State) :
  (forall st, (f st).2 = st) -> keeps_files f.
Proof.
  intros Hf st r st' E. specialize (Hf st). rewrite E in Hf.
  cbn in Hf. subst st'. apply same_files_refl.
Qed.

Lemma keeps_files_summarize (w : World)
    (file_path ai_api_key model_name : string) :
  keeps_files (summarize_transcript_with_ai w file_path ai_api_key model_name).
Proof.
  unfold summarize_transcript_with_ai.
  apply keeps_files_try_except; [|auto with effects].
  apply keeps_files_bind.
  { unfold path_exists. apply keeps_files_bind; [auto with effects|].
    intros _. now apply keeps_files_pure. }
  intros found. destruct (negb found); [auto with effects|].
  apply keeps_files_bind.
  { unfold read_text, call_check.
    apply keeps_files_bind; [auto with effects|].
    intros _. apply keeps_files_pure. intros st.
    destruct (fs_files st !! file_path) as [data|];
      [destruct (decode_utf8 data)|]; reflexivity. }
  intros content. destruct (negb (str_truthy (strip content)));
    [auto with effects|].
  do 2 (apply keeps_files_bind; [auto with effects|intros _]).
  cbv zeta. apply keeps_files_bind; [auto with effects|intros text].
  destruct (str_truthy text); auto with effects.
Qed.

(** X11: the summarizer and the three Slack functions only read: files,
    directories and environment are after the call what they were
    before it, whatever the call returns. *)
Theorem summarizer_and_slack_change_no_file (w : World) :
  (forall file_path ai_api_key model_name,
      keeps_files
        (summarize_transcript_with_ai w file_path ai_api_key model_name))
  /\ (forall slack_token channel_id summary_text google_doc_url,
         keeps_files
           (post_summary_to_slack w slack_token channel_id summary_text
              google_doc_url)
         /\ keeps_files
              (post_simple_message_to_slack w slack_token channel_id
                 summary_text google_doc_url))
  /\ (forall slack_token, keeps_files (test_slack_connection w slack_token)).
Proof.
  split; [|split].
  - apply keeps_files_summarize.
  - intros slack_token channel_id summary_text google_doc_url. split.
    + unfold post_summary_to_slack, _create_slack_message.
      apply keeps_files_try_except; [|auto with effects].
      apply keeps_files_bind;
        [apply keeps_files_bind; auto with effects|].
      intros message. apply keeps_files_bind; [auto with effects|].
      intros response. destruct (ok response); auto with effects.
    + unfold post_simple_message_to_slack.
      apply keeps_files_try_except; [|auto with effects]. cbv zeta.
      apply keeps_files_bind; [auto with effects|].
      intros response. destruct (ok response); auto with effects.
  - intros slack_token. unfold test_slack_connection.
    apply keeps_files_try_except; [|auto with effects].
    apply keeps_files_bind; [auto with effects|].
    intros response. destruct (ok response); auto with effects.
Qed.

(** ** The plain-text message *)

(** X12: [post_simple_message_to_slack] makes one post, of a text that
    holds the summary and the URL, with no blocks; it reads no clock,
    and answers the [ok] of the response, [False] when the call
    raises. *)
Theorem simple_message_is_posted_once_as_text
    (w : World)
    (slack_token channel_id summary_text google_doc_url : string)
    (st : State) :
  let message := _create_simple_slack_message summary_text google_doc_url in
  post_simple_message_to_slack w slack_token channel_id summary_text
    google_doc_url st =
  (Ret (match chat_postMessage w (trace st) slack_token channel_id message
                None with
        | Ret response => ok response
        | Raise _ => false
        end),
   log st (EvSlackPost slack_token channel_id message None))
  /\ contains message summary_text
  /\ contains message google_doc_url.
Proof.
  intros message. split; [|split].
  - cbv beta iota zeta delta [post_simple_message_to_slack try_except bind
      call ret].
    fold message.
    destruct (chat_postMessage w (trace st) slack_token channel_id message
                None) as [[[|]]|e]; reflexivity.
  - unfold message, _create_simple_slack_message.
    apply contains_app_r, contains_app_l, contains_refl.
  - unfold message, _create_simple_slack_message.
    do 3 apply contains_app_r. apply contains_app_l, contains_refl.
Qed.

(** ** The stages of a run *)

Lemma setting_loaded (w : World) (st st1 st0 : State)
    (env_vars : gmap string value) (key : string) :
  load_environment_variables w st = (Ret env_vars, st1) ->
  key ∈ setting_keys ->
  setting env_vars key st0 = (Ret (setting_of env_vars key), st0).
Proof.
  intros Hload Hkey.
  destruct (loaded_settings_are_strings w st st1 env_vars key Hload Hkey)
    as [s Hs].
  unfold setting_of. rewrite Hs. now apply setting_eq.
Qed.

Lemma truthy_VStr (s : string) : s <> EmptyString -> truthy (VStr s) = true.
Proof. destruct s; [now intros []|reflexivity]. Qed.

Ltac setting_key :=
  cbv [setting_keys required_vars app]; rewrite !elem_of_cons;
  repeat first [ left; reflexivity | right ].

Ltac main_step Hload :=
  first
    [ erewrite bind_ret_eq by eassumption
    | erewrite bind_ret_eq by (eapply setting_loaded; [exact Hload|setting_key])
    | erewrite bind_ret_eq by reflexivity ];
  cbv beta iota; cbn [negb].

(** A run that follows the stages is a run of [main]. *)
Lemma run_of_main_main (w : World) (st st' : State) (stopped : option Stage) :
  run_of_main w st stopped st' ->
  main w st = (Ret (result_of stopped), st').
Proof.
  intros Hrun. unfold main.
  destruct Hrun
    as [e st1 Hload
       |env_vars st1 st2 Hload Hauth
       |env_vars st2 file_path google_doc_url st3 (st1 & Hload & Hauth)
          Hfetch Hempty
       |env_vars file_path google_doc_url st3 summary_text st4
          (st2 & (st1 & Hload & Hauth) & Hfetch & Hpath & Hurl) Hsum Hnone
       |env_vars google_doc_url summary_text st4 st5
          (file_path & st3
           & (st2 & (st1 & Hload & Hauth) & Hfetch & Hpath & Hurl)
           & Hsum & Htext) Hpost
       |env_vars google_doc_url summary_text st4 st5
          (file_path & st3
           & (st2 & (st1 & Hload & Hauth) & Hfetch & Hpath & Hurl)
           & Hsum & Htext) Hpost ].
  - erewrite try_except_raise_eq; [reflexivity|].
    apply bind_raise_eq. exact Hload.
  - apply try_except_ret_eq.
    do 3 main_step Hload. reflexivity.
  - apply try_except_ret_eq.
    do 7 main_step Hload.
    destruct (truthy file_path), (truthy google_doc_url);
      try discriminate Hempty; reflexivity.
  - apply try_except_ret_eq.
    do 7 main_step Hload.
    rewrite !truthy_VStr by assumption. cbn [negb orb].
    do 5 main_step Hload.
    rewrite Hnone. reflexivity.
  - apply try_except_ret_eq.
    do 7 main_step Hload.
    rewrite !truthy_VStr by assumption. cbn [negb orb].
    do 5 main_step Hload.
    rewrite truthy_VStr by assumption. cbn [negb].
    do 4 main_step Hload. reflexivity.
  - apply try_except_ret_eq.
    do 7 main_step Hload.
    rewrite !truthy_VStr by assumption. cbn [negb orb].
    do 5 main_step Hload.
    rewrite truthy_VStr by assumption. cbn [negb].
    do 4 main_step Hload. reflexivity.
Qed.

(** Every start has a run that follows the stages. *)
Lemma run_of_main_total (w : World) (st : State) :
  exists stopped st', run_of_main w st stopped st'.
Proof.
  destruct (load_environment_variables w st) as [[env_vars|e] st1] eqn:Hload;
    [|eauto using run_of_main].
  pose proof (test_slack_connection_eq w
                (setting_of env_vars "slack_bot_token") st1) as Hauth.
  destruct (match auth_test w (trace st1)
                    (setting_of env_vars "slack_bot_token") with
            | Ret response => ok response
            | Raise _ => false
            end); [|eauto using run_of_main].
  assert (Hconn : connected w st env_vars
                    (log st1 (EvSlackAuthTest
                                (setting_of env_vars "slack_bot_token"))))
    by (exists st1; auto).
  destruct (download_latest_transcript_from_drive w
              (setting_of env_vars "google_drive_folder_id")
              (setting_of env_vars "google_credentials_path")
              (setting_of env_vars "target_directory")
              (log st1 (EvSlackAuthTest
                          (setting_of env_vars "slack_bot_token"))))
    as [[[file_path google_doc_url]|e] st3] eqn:Hfetch.
  2:{ exfalso.
      revert Hfetch. unfold download_latest_transcript_from_drive.
      match goal with
      | |- try_except ?m ?h ?s = _ -> _ =>
          destruct (try_except_returns m (VNone, VNone) s) as (a & s' & ->)
      end.
      discriminate. }
  destruct (truthy file_path && truthy google_doc_url) eqn:Hfull;
    [|eauto using run_of_main].
  apply andb_true_iff in Hfull as [Hpath Hurl].
  destruct file_path as [|file_path]; [discriminate Hpath|].
  destruct google_doc_url as [|google_doc_url]; [discriminate Hurl|].
  assert (Hfetched : fetched w st env_vars file_path google_doc_url st3).
  { exists (log st1 (EvSlackAuthTest (setting_of env_vars "slack_bot_token"))).
    repeat split; [exact Hconn|exact Hfetch| |].
    - intros ->. discriminate Hpath.
    - intros ->. discriminate Hurl. }
  destruct (summarize_returns w file_path
              (setting_of env_vars "google_ai_api_key")
              (setting_of env_vars "ai_model_name") st3)
    as (summary & st4 & Hsum).
  destruct (truthy summary) eqn:Htext; [|eauto using run_of_main].
  destruct summary as [|summary_text]; [discriminate Htext|].
  assert (Hsummarized : summarized w st env_vars google_doc_url summary_text
                          st4).
  { exists file_path, st3. repeat split; [exact Hfetched|exact Hsum|].
    intros ->. discriminate Htext. }
  pose proof (post_summary_to_slack_eq w
                (setting_of env_vars "slack_bot_token")
                (setting_of env_vars "slack_channel_id") summary_text
                google_doc_url st4) as Hpost.
  cbv zeta in Hpost.
  destruct (match chat_postMessage w (trace (log st4 EvTime))
                    (setting_of env_vars "slack_bot_token")
                    (setting_of env_vars "slack_channel_id")
                    NOTIFICATION_TEXT
                    (Some (message_blocks summary_text google_doc_url
                             (time_time w (trace st4)))) with
            | Ret response => ok response
            | Raise _ => false
            end); eauto using run_of_main.
Qed.

(** X13: every run of [main] goes through the stages in order:
    configuration, connection test, fetch, summary, publication.  It
    stops at the first stage that fails (an exception for the first,
    [False], an empty pair, an empty summary, [False] for the others)
    and returns [False]; it returns [True] when all five succeed.  Each
    stage gets the settings and the results of the stages before it. *)
Theorem main_stops_at_the_first_failing_stage (w : World) (st : State) :
  exists stopped st',
    run_of_main w st stopped st'
    /\ main w st = (Ret (result_of stopped), st').
Proof.
  destruct (run_of_main_total w st) as (stopped & st' & Hrun).
  exists stopped, st'. split; [exact Hrun|]. now apply run_of_main_main.
Qed.

Lemma main_run_inv (w : World) (st st' : State) (result : bool) :
  main w st = (Ret result, st') ->
  exists stopped, run_of_main w st stopped st' /\ result = result_of stopped.
Proof.
  intros Hmain.
  destruct (run_of_main_total w st) as (stopped & st'' & Hrun).
  rewrite (run_of_main_main _ _ _ _ Hrun) in Hmain.
  injection Hmain as <- <-. eauto.
Qed.

(** *** The calls of each stage *)

Lemma load_trace (w : World) (st st1 : State)
    (r : Res (gmap string value)) :
  load_environment_variables w st = (r, st1) ->
  trace st1 = trace st ++ [EvLoadDotenv]
  /\ fs_files st1 = fs_files st /\ fs_dirs st1 = fs_dirs st
  /\ environ st1 = environ st ∪ dotenv w.
Proof.
  pose proof (load_environment_variables_eq w st) as Heq. cbv zeta in Heq.
  rewrite Heq. intros [= _ <-]. auto.
Qed.

Lemma connection_trace (w : World) (slack_token : string) (st1 st2 : State)
    (r : Res bool) :
  test_slack_connection w slack_token st1 = (r, st2) ->
  st2 = log st1 (EvSlackAuthTest slack_token).
Proof. rewrite test_slack_connection_eq. now intros [= _ <-]. Qed.

Lemma connected_trace (w : World) (st st2 : State)
    (env_vars : gmap string value) :
  connected w st env_vars st2 ->
  trace st2 =
  trace st ++ [ EvLoadDotenv;
                EvSlackAuthTest (setting_of env_vars "slack_bot_token") ].
Proof.
  intros (st1 & Hload & Hauth).
  apply load_trace in Hload as (Htrace & _).
  apply connection_trace in Hauth as ->.
  cbn. rewrite Htrace. now rewrite <- app_assoc.
Qed.

Lemma fetched_trace (w : World) (st st3 : State)
    (env_vars : gmap string value) (file_path google_doc_url : string) :
  fetched w st env_vars file_path google_doc_url st3 ->
  exists fetch_events,
    trace st3 =
    trace st ++ [ EvLoadDotenv;
                  EvSlackAuthTest (setting_of env_vars "slack_bot_token") ]
             ++ fetch_events
    /\ forallb is_fetch_event fetch_events = true.
Proof.
  intros (st2 & Hconn & Hfetch & _).
  apply connected_trace in Hconn.
  apply emits_download in Hfetch as (evs & Htrace & Hevs).
  exists evs. split; [|exact Hevs].
  rewrite Htrace, Hconn. now rewrite <- app_assoc.
Qed.

Lemma summarized_trace (w : World) (st st4 : State)
    (env_vars : gmap string value) (google_doc_url summary_text : string) :
  summarized w st env_vars google_doc_url summary_text st4 ->
  exists fetch_events summary_events,
    trace st4 =
    trace st ++ [ EvLoadDotenv;
                  EvSlackAuthTest (setting_of env_vars "slack_bot_token") ]
             ++ fetch_events ++ summary_events
    /\ forallb is_fetch_event fetch_events = true
    /\ forallb is_summarize_event summary_events = true.
Proof.
  intros (file_path & st3 & Hfetched & Hsum & _).
  apply fetched_trace in Hfetched as (fetch_events & Htrace3 & Hfetch).
  apply emits_summarize in Hsum as (evs & Htrace & Hevs).
  exists fetch_events, evs. split; [|auto].
  rewrite Htrace, Htrace3. now rewrite <- !app_assoc.
Qed.

Lemma post_trace (w : World)
    (slack_token channel_id summary_text google_doc_url : string)
    (st4 st5 : State) (r : Res bool) :
  post_summary_to_slack w slack_token channel_id summary_text google_doc_url
    st4 = (r, st5) ->
  st5 = log (log st4 EvTime)
          (EvSlackPost slack_token channel_id NOTIFICATION_TEXT
             (Some (message_blocks summary_text google_doc_url
                      (time_time w (trace st4))))).
Proof.
  pose proof (post_summary_to_slack_eq w slack_token channel_id summary_text
                google_doc_url st4) as Heq.
  cbv zeta in Heq. rewrite Heq. now intros [= _ <-].
Qed.

(** X14: the calls of a run of [main] come in the order of the stages:
    the loading of the settings, at most one connection test, calls of
    the fetch, calls of the summarizer, and at most one post, which is
    then the last call of the run and comes right after the clock is
    read for its footer. *)
Theorem main_calls_follow_the_stage_order (w : World) (st : State) :
  exists auth_events fetch_events summary_events post_events,
    trace (main w st).2 =
    trace st ++ EvLoadDotenv :: auth_events ++ fetch_events
             ++ summary_events ++ post_events
    /\ (auth_events = []
        \/ exists slack_token, auth_events = [EvSlackAuthTest slack_token])
    /\ forallb is_fetch_event fetch_events = true
    /\ forallb is_summarize_event summary_events = true
    /\ (post_events = []
        \/ exists slack_token channel_id payload,
             post_events =
             [ EvTime;
               EvSlackPost slack_token channel_id NOTIFICATION_TEXT
                 (Some payload) ]).
Proof.
  destruct (run_of_main_total w st) as (stopped & st' & Hrun).
  rewrite (run_of_main_main _ _ _ _ Hrun). cbn [snd].
  destruct Hrun
    as [e st1 Hload
       |env_vars st1 st2 Hload Hauth
       |env_vars st2 file_path google_doc_url st3 Hconn Hfetch Hempty
       |env_vars file_path google_doc_url st3 summary_text st4 Hfetched
          Hsum Hnone
       |env_vars google_doc_url summary_text st4 st5 Hsummarized Hpost
       |env_vars google_doc_url summary_text st4 st5 Hsummarized Hpost ].
  - apply load_trace in Hload as (-> & _).
    exists [], [], [], []. auto 10.
  - apply load_trace in Hload as (Htrace & _).
    apply connection_trace in Hauth as ->.
    exists [EvSlackAuthTest (setting_of env_vars "slack_bot_token")],
      [], [], [].
    split; [cbn; rewrite Htrace; now rewrite <- app_assoc|]. eauto 10.
  - apply connected_trace in Hconn.
    apply emits_download in Hfetch as (evs & Htrace & Hevs).
    exists [EvSlackAuthTest (setting_of env_vars "slack_bot_token")],
      evs, [], [].
    split; [|eauto 10].
    rewrite Htrace, Hconn, app_nil_r. now rewrite <- app_assoc.
  - apply fetched_trace in Hfetched as (fetch_events & Htrace3 & Hfetch).
    apply emits_summarize in Hsum as (evs & Htrace & Hevs).
    exists [EvSlackAuthTest (setting_of env_vars "slack_bot_token")],
      fetch_events, evs, [].
    split; [|eauto 10].
    rewrite Htrace, Htrace3, app_nil_r. now rewrite <- !app_assoc.
  - apply summarized_trace in Hsummarized
      as (fetch_events & summary_events & Htrace4 & Hfetch & Hsum).
    apply post_trace in Hpost as ->.
    eexists [EvSlackAuthTest (setting_of env_vars "slack_bot_token")],
      fetch_events, summary_events, [EvTime; EvSlackPost _ _ _ _].
    split; [|eauto 10].
    cbn [log trace]. rewrite Htrace4. now rewrite <- !app_assoc.
  - apply summarized_trace in Hsummarized
      as (fetch_events & summary_events & Htrace4 & Hfetch & Hsum).
    apply post_trace in Hpost as ->.
    eexists [EvSlackAuthTest (setting_of env_vars "slack_bot_token")],
      fetch_events, summary_events, [EvTime; EvSlackPost _ _ _ _].
    split; [|eauto 10].
    cbn [log trace]. rewrite Htrace4. now rewrite <- !app_assoc.
Qed.

Lemma fetch_event_kind (e : Event) :
  is_fetch_event e = true ->
  is_genai_call e = false /\ is_slack_post e = false.
Proof. destruct e; cbn; auto; discriminate. Qed.

Lemma summarize_event_kind (e : Event) :
  is_summarize_event e = true ->
  is_drive_call e = false /\ is_slack_post e = false.
Proof. destruct e; cbn; auto; discriminate. Qed.

Lemma forallb_Forall_kind (P : Event -> bool) (Q : Event -> Prop)
    (evs : list Event) :
  (forall e, P e = true -> Q e) ->
  forallb P evs = true -> Forall (fun e => P e = true /\ Q e) evs.
Proof.
  intros HPQ. induction evs as [|e evs IH]; cbn [forallb]; intros Hevs.
  - constructor.
  - apply andb_true_iff in Hevs as [He Hevs]. constructor; auto.
Qed.

(** X15: when a required setting is unset or empty, [main] returns
    [False] having only loaded the settings: no connection test, no
    call to Drive, to the generator or to Slack, and no file changed. *)
Theorem missing_setting_stops_the_run_before_any_call
    (w : World) (st : State) (key : string) :
  key ∈ required_vars ->
  setting_missing (environ st ∪ dotenv w) key = true ->
  exists st1,
    main w st = (Ret false, st1)
    /\ trace st1 = trace st ++ [EvLoadDotenv]
    /\ fs_files st1 = fs_files st /\ fs_dirs st1 = fs_dirs st.
Proof.
  intros Hkey Hmissing.
  destruct (load_environment_variables w st) as [r st1] eqn:Hload.
  pose proof (load_trace _ _ _ _ Hload) as (Htrace & Hfiles & Hdirs & _).
  exists st1. split; [|auto].
  pose proof (load_environment_variables_eq w st) as Heq. cbv zeta in Heq.
  rewrite Hload in Heq.
  destruct (missing_settings (environ st ∪ dotenv w)) as [|k l] eqn:Hnone.
  { exfalso.
    assert (Hin : key ∈ missing_settings (environ st ∪ dotenv w))
      by (unfold missing_settings; rewrite list_elem_of_filter; auto).
    rewrite Hnone in Hin. now apply elem_of_nil in Hin. }
  injection Heq as ->.
  apply (run_of_main_main w st st1 (Some Configuration)).
  eapply configuration_fails, Hload.
Qed.

Lemma missing_setting_witness :
  exists st1,
    main world_plain (Demo.start ∅) = (Ret false, st1)
    /\ trace st1 = trace (Demo.start ∅) ++ [EvLoadDotenv]
    /\ fs_files st1 = fs_files (Demo.start ∅)
    /\ fs_dirs st1 = fs_dirs (Demo.start ∅).
Proof.
  apply (missing_setting_stops_the_run_before_any_call world_plain
           (Demo.start ∅) "slack_bot_token").
  - cbv [required_vars]. rewrite !elem_of_cons. auto.
  - reflexivity.
Defined.

(** X16: when the connection test has passed and the fetch returns a
    pair one of whose components is [None] or the empty string, [main]
    returns [False] right after the fetch: the calls of the run are the
    loading of the settings, the connection test and calls of the
    fetch, with no call to the generator and no post. *)
Theorem failed_fetch_stops_before_generation
    (w : World) (st st2 st3 : State) (env_vars : gmap string value)
    (file_path google_doc_url : value) :
  connected w st env_vars st2 ->
  download_latest_transcript_from_drive w
    (setting_of env_vars "google_drive_folder_id")
    (setting_of env_vars "google_credentials_path")
    (setting_of env_vars "target_directory") st2
    = (Ret (file_path, google_doc_url), st3) ->
  truthy file_path && truthy google_doc_url = false ->
  exists fetch_events,
    main w st = (Ret false, st3)
    /\ trace st3 =
       trace st ++ [ EvLoadDotenv;
                     EvSlackAuthTest (setting_of env_vars "slack_bot_token") ]
                ++ fetch_events
    /\ Forall (fun e => is_fetch_event e = true
                        /\ is_genai_call e = false /\ is_slack_post e = false)
         fetch_events.
Proof.
  intros Hconn Hfetch Hempty.
  pose proof (connected_trace _ _ _ _ Hconn) as Htrace2.
  pose proof (emits_download _ _ _ _ _ _ _ Hfetch) as (evs & Htrace & Hevs).
  exists evs. split; [|split].
  - apply (run_of_main_main w st st3 (Some Fetch)).
    eapply fetch_fails; eassumption.
  - rewrite Htrace, Htrace2. now rewrite <- app_assoc.
  - now apply forallb_Forall_kind; [apply fetch_event_kind|].
Qed.

Lemma empty_link_witness :
  exists fetch_events,
    main world_empty_link (Demo.start Demo.settings)
      = (Ret false, after_fetch world_empty_link)
    /\ trace (after_fetch world_empty_link) =
       trace (Demo.start Demo.settings)
         ++ [ EvLoadDotenv;
              EvSlackAuthTest (setting_of demo_bundle "slack_bot_token") ]
         ++ fetch_events
    /\ Forall (fun e => is_fetch_event e = true
                        /\ is_genai_call e = false /\ is_slack_post e = false)
         fetch_events.
Proof.
  apply (failed_fetch_stops_before_generation world_empty_link
           (Demo.start Demo.settings) (after_connection world_empty_link)
           (after_fetch world_empty_link) demo_bundle
           (VStr demo_path) (VStr EmptyString)).
  - exists (load_environment_variables world_empty_link
              (Demo.start Demo.settings)).2.
    split; vm_compute; reflexivity.
  - vm_compute. reflexivity.
  - reflexivity.
Defined.

(** X17: when the fetch has returned a path and a URL and the
    summarizer returns [None] or the empty string, [main] returns
    [False] right after the summarizer: nothing is posted, and the
    files (the artifact among them) stay as the fetch left them. *)
Theorem failed_summary_stops_before_publication
    (w : World) (st st3 st4 : State) (env_vars : gmap string value)
    (file_path google_doc_url : string) (summary_text : value) :
  fetched w st env_vars file_path google_doc_url st3 ->
  summarize_transcript_with_ai w file_path
    (setting_of env_vars "google_ai_api_key")
    (setting_of env_vars "ai_model_name") st3 = (Ret summary_text, st4) ->
  truthy summary_text = false ->
  exists summary_events,
    main w st = (Ret false, st4)
    /\ trace st4 = trace st3 ++ summary_events
    /\ Forall (fun e => is_summarize_event e = true
                        /\ is_drive_call e = false /\ is_slack_post e = false)
         summary_events
    /\ same_files st3 st4.
Proof.
  intros Hfetched Hsum Hnone.
  pose proof (emits_summarize _ _ _ _ _ _ _ Hsum) as (evs & Htrace & Hevs).
  exists evs. split; [|split; [|split]].
  - apply (run_of_main_main w st st4 (Some Summary)).
    eapply summary_fails; eassumption.
  - exact Htrace.
  - now apply forallb_Forall_kind; [apply summarize_event_kind|].
  - eapply keeps_files_summarize, Hsum.
Qed.

Lemma blank_answer_witness :
  exists summary_events,
    main world_blank_answer (Demo.start Demo.settings)
      = (Ret false, after_summary world_blank_answer)
    /\ trace (after_summary world_blank_answer) =
       trace (after_fetch world_blank_answer) ++ summary_events
    /\ Forall (fun e => is_summarize_event e = true
                        /\ is_drive_call e = false /\ is_slack_post e = false)
         summary_events
    /\ same_files (after_fetch world_blank_answer)
         (after_summary world_blank_answer).
Proof.
  apply (failed_summary_stops_before_publication world_blank_answer
           (Demo.start Demo.settings) (after_fetch world_blank_answer)
           (after_summary world_blank_answer) demo_bundle
           demo_path demo_url (VStr EmptyString)).
  - exists (after_connection world_blank_answer). split; [|split; [|split]].
    + exists (load_environment_variables world_blank_answer
                (Demo.start Demo.settings)).2.
      split; vm_compute; reflexivity.
    + vm_compute. reflexivity.
    + discriminate.
    + discriminate.
  - vm_compute. reflexivity.
  - reflexivity.
Defined.

(** X18: when [main] returns [True], the run has resolved the settings,
    passed the connection test, fetched an artifact and its URL and got
    a non-empty summary, and its last two calls read the clock and post
    one message to the configured channel with the configured token:
    the notification text with the blocks built from that summary and
    that URL.  The post was acknowledged, and it is the only post of
    the run. *)
Theorem successful_run_ends_with_the_acknowledged_post
    (w : World) (st st' : State) :
  main w st = (Ret true, st') ->
  exists env_vars google_doc_url summary_text st4 earlier,
    summarized w st env_vars google_doc_url summary_text st4
    /\ trace st4 = trace st ++ earlier
    /\ Forall (fun e => is_slack_post e = false) earlier
    /\ let slack_token := setting_of env_vars "slack_bot_token" in
       let channel_id := setting_of env_vars "slack_channel_id" in
       let payload :=
         Some (message_blocks summary_text google_doc_url
                 (time_time w (trace st4))) in
       trace st' =
       trace st4 ++ [ EvTime;
                      EvSlackPost slack_token channel_id NOTIFICATION_TEXT
                        payload ]
       /\ exists response,
            chat_postMessage w (trace st4 ++ [EvTime]) slack_token channel_id
              NOTIFICATION_TEXT payload = Ret response
            /\ ok response = true.
Proof.
  intros Hmain.
  destruct (main_run_inv _ _ _ _ Hmain) as (stopped & Hrun & Hresult).
  destruct Hrun
    as [| | | | |env_vars google_doc_url summary_text st4 st5 Hsummarized
                  Hpost ]; try discriminate Hresult.
  exists env_vars, google_doc_url, summary_text, st4.
  destruct (summarized_trace _ _ _ _ _ _ Hsummarized)
    as (fetch_events & summary_events & Htrace4 & Hfetch & Hsum).
  eexists. split; [exact Hsummarized|]. split; [exact Htrace4|].
  split.
  { change (?a :: ?b :: ?l) with ([a; b] ++ l).
    rewrite !Forall_app. split; [repeat constructor|]. split.
    - eapply Forall_impl;
        [apply (forallb_Forall_kind _ _ _ fetch_event_kind Hfetch)|].
      intros e (_ & _ & He). exact He.
    - eapply Forall_impl;
        [apply (forallb_Forall_kind _ _ _ summarize_event_kind Hsum)|].
      intros e (_ & _ & He). exact He. }
  cbv zeta.
  pose proof (post_trace _ _ _ _ _ _ _ _ Hpost) as Hst5.
  split.
  { rewrite Hst5. cbn. now rewrite <- app_assoc. }
  pose proof (post_summary_to_slack_eq w
                (setting_of env_vars "slack_bot_token")
                (setting_of env_vars "slack_channel_id") summary_text
                google_doc_url st4) as Heq.
  cbv zeta in Heq. rewrite Hpost in Heq. cbn [log trace] in Heq.
  destruct (chat_postMessage w (trace st4 ++ [EvTime])
              (setting_of env_vars "slack_bot_token")
              (setting_of env_vars "slack_channel_id") NOTIFICATION_TEXT
              (Some (message_blocks summary_text google_doc_url
                       (time_time w (trace st4)))))
    as [response|e]; [|discriminate Heq].
  exists response. split; [reflexivity|]. now injection Heq as <-.
Qed.

(** ** The artifact as input of the summarizer *)

Lemma lstrip_chars_last (chars : list string) (x : string) :
  isspace x = false ->
  exists kept, lstrip_chars (chars ++ [x]) = kept ++ [x].
Proof.
  intros Hx. induction chars as [|c chars IH]; cbn [app lstrip_chars].
  - rewrite Hx. now exists [].
  - destruct (isspace c); [exact IH|]. now exists (c :: chars).
Qed.

(** A text that starts with the two characters of a Markdown title is
    not blank. *)
Lemma strip_title (rest : string) :
  strip (String "#" (String " " rest)) <> EmptyString.
Proof.
  unfold strip.
  destruct (utf8_chars_cons " " rest) as (r & cs & Hchars).
  cbn [utf8_chars]. cbn [utf8_chars] in Hchars. rewrite Hchars.
  change (is_continuation " ") with false. cbv iota.
  change (lstrip_chars (?a :: ?l)) with (a :: l).
  unfold rstrip_chars. cbn [rev].
  destruct (lstrip_chars_last (rev cs ++ [String " " r]) "#" eq_refl)
    as (kept & ->).
  rewrite rev_app_distr. cbn [rev app].
  destruct (rev kept); cbn [String.concat]; [discriminate|].
  rewrite str_app_cons. discriminate.
Qed.

Lemma artifact_text_title
    (file_name modified_time web_view_link content : string) :
  exists rest,
    universal_newlines
      (artifact_text file_name modified_time web_view_link content)
    = String "#" (String " " rest).
Proof.
  assert (Htitle : exists rest,
             artifact_text file_name modified_time web_view_link content
             = String "#" (String " " rest)).
  { unfold artifact_text, artifact_header, ARTIFACT_TITLE.
    rewrite !str_app_cons. eauto. }
  destruct Htitle as (rest & ->).
  rewrite !universal_newlines_cons by reflexivity. eauto.
Qed.

(** X19: the fetch and the summarizer composed.  When the fetch has
    returned a path and the file at that path can be opened for
    reading, the summarizer reads the whole artifact of the first
    listing entry: the header with its name, modification time and URL,
    then the text that the extraction of that entry returned, with the
    carriage returns turned into line feeds.  This text is never blank,
    whatever was extracted, so the summarizer always goes on to the
    generation call, with that text in the prompt. *)
Theorem returned_artifact_reaches_the_generator
    (w : World)
    (folder_id credentials_path target_directory ai_api_key model_name
       path url : string)
    (st st3 : State) :
  download_latest_transcript_from_drive w folder_id credentials_path
    target_directory st = (Ret (VStr path, VStr url), st3) ->
  open_read_error w (trace (log st3 (EvExists path))) path = None ->
  exists latest_file others st1 stm st2
         file_id file_name mime_type modified_time content,
    list_transcript_files w folder_id credentials_path st
      = (Ret (latest_file :: others), st1)
    /\ entry_fields latest_file file_id file_name mime_type modified_time url
    /\ makedirs w target_directory st1 = (Ret tt, stm)
    /\ _download_file_content w file_id mime_type stm
       = (Ret (VStr content), st2)
    /\ let text :=
         universal_newlines
           (artifact_text file_name modified_time url content) in
       let prompt := PROMPT_HEAD +:+ text +:+ PROMPT_TAIL in
       let st5 :=
         generation_state
           (log (log st3 (EvExists path)) (EvOpenRead path))
           ai_api_key model_name in
       strip text <> EmptyString
       /\ summarize_transcript_with_ai w path ai_api_key model_name st3
          = (Ret (summary_of (generate_content_text w (trace st5) model_name
                                prompt)),
             log st5 (EvGenerate model_name prompt)).
Proof.
  intros Hfetch Hopen.
  destruct (returned_pair_inv _ _ _ _ _ _ _ _ Hfetch)
    as (latest & others & st1 & stm & st2 & file_id & file_name & mime_type
        & modified_time & content
        & Hlist & Hfields & Hmk & Hcontent & _ & Hfile & Hwf).
  exists latest, others, st1, stm, st2, file_id, file_name, mime_type,
    modified_time, content.
  split; [exact Hlist|]. split; [exact Hfields|]. split; [exact Hmk|].
  split; [exact Hcontent|]. cbv zeta.
  assert (Hread :
    read_text w path (log st3 (EvExists path))
    = (Ret (universal_newlines
              (artifact_text file_name modified_time url content)),
       log (log st3 (EvExists path)) (EvOpenRead path)))
    by (now apply read_text_eq).
  assert (Hstrip :
    strip (universal_newlines
             (artifact_text file_name modified_time url content))
    <> EmptyString).
  { destruct (artifact_text_title file_name modified_time url content)
      as (rest & ->). apply strip_title. }
  split; [exact Hstrip|].
  now apply summarize_readable_eq.
Qed.

Lemma blank_artifact_witness :
  exists latest_file others st1 stm st2
         file_id file_name mime_type modified_time content,
    list_transcript_files world_blank "folder1" "key.json"
      (after_connection world_blank)
      = (Ret (latest_file :: others), st1)
    /\ entry_fields latest_file file_id file_name mime_type modified_time
         demo_url
    /\ makedirs world_blank "./downloads" st1 = (Ret tt, stm)
    /\ _download_file_content world_blank file_id mime_type stm
       = (Ret (VStr content), st2)
    /\ let text :=
         universal_newlines
           (artifact_text file_name modified_time demo_url content) in
       let prompt := PROMPT_HEAD +:+ text +:+ PROMPT_TAIL in
       let st5 :=
         generation_state
           (log (log (after_fetch world_blank) (EvExists demo_path))
              (EvOpenRead demo_path))
           "k" "gemini-pro" in
       strip text <> EmptyString
       /\ summarize_transcript_with_ai world_blank demo_path "k" "gemini-pro"
            (after_fetch world_blank)
          = (Ret (summary_of (generate_content_text world_blank (trace st5)
                                "gemini-pro" prompt)),
             log st5 (EvGenerate "gemini-pro" prompt)).
Proof.
  apply (returned_artifact_reaches_the_generator world_blank "folder1"
           "key.json" "./downloads" "k" "gemini-pro" demo_path demo_url
           (after_connection world_blank) (after_fetch world_blank)).
  - vm_compute. reflexivity.
  - reflexivity.
Defined.

Lemma successful_run_witness :
  exists env_vars google_doc_url summary_text st4 earlier,
    summarized world_plain (Demo.start Demo.settings) env_vars google_doc_url
      summary_text st4
    /\ trace st4 = trace (Demo.start Demo.settings) ++ earlier
    /\ Forall (fun e => is_slack_post e = false) earlier
    /\ let slack_token := setting_of env_vars "slack_bot_token" in
       let channel_id := setting_of env_vars "slack_channel_id" in
       let payload :=
         Some (message_blocks summary_text google_doc_url
                 (time_time world_plain (trace st4))) in
       trace (main world_plain (Demo.start Demo.settings)).2 =
       trace st4 ++ [ EvTime;
                      EvSlackPost slack_token channel_id NOTIFICATION_TEXT
                        payload ]
       /\ exists response,
            chat_postMessage world_plain (trace st4 ++ [EvTime]) slack_token
              channel_id NOTIFICATION_TEXT payload = Ret response
            /\ ok response = true.
Proof.
  apply (successful_run_ends_with_the_acknowledged_post world_plain
           (Demo.start Demo.settings)
           (main world_plain (Demo.start Demo.settings)).2).
  vm_compute. reflexivity.
Defined.
